(** * stir: the Martini presentation tools of [mt_nice.py] and the settings
      export of [store_settings.py], embedded and verified.

    The Python code drives a host application (PyMOL) through its [cmd]
    interface.  The embedding keeps the Python side as it is written
    (dictionaries in insertion order, exceptions that leave the effects
    made so far, the random source threaded through the calls) and models
    the host by the state its commands read and write. *)

From Stdlib Require Import List NArith ZArith Bool Floats String Ascii.
From Stdlib Require Import Permutation Lia.
Import ListNotations.

Set Warnings "-inexact-float".
Set Implicit Arguments.

(** ** Python strings and dictionaries *)

(** A Python [str] is a sequence of Unicode code points. *)
Definition char := N.
Definition pystr := list char.

(** An ASCII literal of the source as a [pystr]. *)
Definition py (s : string) : pystr :=
  List.map N_of_ascii (list_ascii_of_string s).

Fixpoint str_eqb (a b : pystr) : bool :=
  match a, b with
  | [], [] => true
  | x :: a', y :: b' => N.eqb x y && str_eqb a' b'
  | _, _ => false
  end.

(** [a.startswith(p)] *)
Fixpoint startswith (p a : pystr) : bool :=
  match p, a with
  | [], _ => true
  | x :: p', y :: a' => N.eqb x y && startswith p' a'
  | _ :: _, [] => false
  end.

(** [str(n)] for a non-negative integer. *)
Definition digit_of (d : nat) : char := (48 + N.of_nat d)%N.

Fixpoint uint_str (u : Decimal.uint) : pystr :=
  match u with
  | Decimal.Nil => []
  | Decimal.D0 u => digit_of 0 :: uint_str u
  | Decimal.D1 u => digit_of 1 :: uint_str u
  | Decimal.D2 u => digit_of 2 :: uint_str u
  | Decimal.D3 u => digit_of 3 :: uint_str u
  | Decimal.D4 u => digit_of 4 :: uint_str u
  | Decimal.D5 u => digit_of 5 :: uint_str u
  | Decimal.D6 u => digit_of 6 :: uint_str u
  | Decimal.D7 u => digit_of 7 :: uint_str u
  | Decimal.D8 u => digit_of 8 :: uint_str u
  | Decimal.D9 u => digit_of 9 :: uint_str u
  end.

Definition str_of_nat (n : nat) : pystr := uint_str (Nat.to_uint n).

(** A Python [dict] with [str] keys: the items in insertion order.
    Assigning to a key that is present keeps its position. *)
Definition dict (V : Type) := list (pystr * V).

Fixpoint dict_get {V} (d : dict V) (k : pystr) : option V :=
  match d with
  | [] => None
  | (k', v) :: d' => if str_eqb k' k then Some v else dict_get d' k
  end.

Fixpoint dict_set {V} (d : dict V) (k : pystr) (v : V) : dict V :=
  match d with
  | [] => [(k, v)]
  | (k', v') :: d' =>
      if str_eqb k' k then (k', v) :: d' else (k', v') :: dict_set d' k v
  end.

Definition dict_keys {V} (d : dict V) : list pystr := List.map fst d.
Definition dict_values {V} (d : dict V) : list V := List.map snd d.

(** ** Regular expressions, as far as [alter_vdw] writes them *)

Inductive class_item :=
| CChar (c : char)   (* a literal member of a bracket set *)
| CWord              (* \w *)
| CDigit.            (* \d *)

Inductive regex :=
| Lit (c : char)
| Class (items : list class_item)
| Seq (r1 r2 : regex)
| Alt (r1 r2 : regex)
| Group (r : regex).

Section Classifier.

(** The Unicode tables behind [\w] and [\d] belong to the [re] module;
    the classifier is stated for any such tables. *)
Variable word_char : char -> bool.
Variable digit_char : char -> bool.

Definition in_item (x : char) (i : class_item) : bool :=
  match i with
  | CChar c => N.eqb x c
  | CWord => word_char x
  | CDigit => digit_char x
  end.

Definition in_class (items : list class_item) (x : char) : bool :=
  existsb (in_item x) items.

(** The suffixes left after the pattern has consumed a prefix of [s], in
    the order a backtracking matcher tries them. *)
Fixpoint residues (r : regex) (s : pystr) : list pystr :=
  match r with
  | Lit c =>
      match s with
      | x :: t => if N.eqb x c then [t] else []
      | [] => []
      end
  | Class items =>
      match s with
      | x :: t => if in_class items x then [t] else []
      | [] => []
      end
  | Seq r1 r2 => flat_map (residues r2) (residues r1 s)
  | Alt r1 r2 => residues r1 s ++ residues r2 s
  | Group r' => residues r' s
  end.

(** [bool(pattern.match(s))]: a match anchored at the start of [s]. *)
Definition re_match (r : regex) (s : pystr) : bool :=
  match residues r s with
  | [] => false
  | _ :: _ => true
  end.

Definition QPNCX : list class_item :=
  List.map CChar (py "QPNCX").

Definition letter (s : string) : char :=
  match py s with
  | c :: _ => c
  | [] => 0%N
  end.

(** '[QPNCX][\w\d]|W' *)
Definition pat_regular : regex :=
  Alt (Seq (Class QPNCX) (Class [CWord; CDigit])) (Lit (letter "W")).
(** 'S([QPNCX][\w\d]|W)' *)
Definition pat_small : regex :=
  Seq (Lit (letter "S")) (Group pat_regular).
(** 'T([QPNCX][\w\d]|W)' *)
Definition pat_tiny : regex :=
  Seq (Lit (letter "T")) (Group pat_regular).

Definition vdw_patterns : list (regex * float) :=
  [ (pat_regular, 2.35%float);
    (pat_small, 2.00%float);
    (pat_tiny, 1.65%float) ].

(** The loop of [alter_vdw] over a rule table. *)
Fixpoint first_radius (rules : list (regex * float)) (elem : pystr)
         (vdw : float) : float :=
  match rules with
  | [] => vdw
  | (pattern, radius) :: rest =>
      if re_match pattern elem then radius else first_radius rest elem vdw
  end.

Definition alter_vdw (elem : pystr) (vdw : float) : float :=
  first_radius vdw_patterns elem vdw.

(** The rules of a table that match a bead code. *)
Definition matching (rules : list (regex * float)) (elem : pystr)
  : list (regex * float) :=
  filter (fun rule => re_match (fst rule) elem) rules.

End Classifier.

(** ** The host: atoms, named selections, settings, colors *)

Definition rgb := (Z * Z * Z)%type.

(** What the host keeps per atom, as far as these tools read or write it.
    [a_protein], [a_nucleic] and [a_organic] are the host's own
    classification of the atom (polymer.protein, polymer.nucleic,
    organic). *)
Record atom := mk_atom {
  a_name : pystr;
  a_resn : pystr;
  a_resi : pystr;
  a_chain : pystr;
  a_elem : pystr;
  a_vdw : float;
  a_color : Z;
  a_reps : list pystr;
  a_protein : bool;
  a_nucleic : bool;
  a_organic : bool
}.

Definition with_vdw (a : atom) (v : float) : atom :=
  mk_atom (a_name a) (a_resn a) (a_resi a) (a_chain a) (a_elem a) v
          (a_color a) (a_reps a) (a_protein a) (a_nucleic a) (a_organic a).

Definition with_color (a : atom) (c : Z) : atom :=
  mk_atom (a_name a) (a_resn a) (a_resi a) (a_chain a) (a_elem a) (a_vdw a)
          c (a_reps a) (a_protein a) (a_nucleic a) (a_organic a).

Definition with_reps (a : atom) (r : list pystr) : atom :=
  mk_atom (a_name a) (a_resn a) (a_resi a) (a_chain a) (a_elem a) (a_vdw a)
          (a_color a) r (a_protein a) (a_nucleic a) (a_organic a).

(** The calls made on the host's [cmd] interface, with their arguments as
    the Python code passes them. *)
Inductive call :=
| c_set_color (name : pystr) (value : rgb)
| c_get_color_index (name : pystr)
| c_select (name logic : pystr)
| c_delete (name : pystr)
| c_sync
| c_deselect
| c_recolor
| c_set (name : pystr) (value : float)
| c_iterate (selection expression : pystr)
| c_alter (selection expression : pystr)
| c_color (color selection : pystr)
| c_show_as (representation selection : pystr)
| c_hide (representation selection : pystr).

(** The host state.  A named selection is the list of the indices of its
    atoms; a color handle is the position of the color in the color table;
    [h_log] lists the calls received, oldest first. *)
Record pymol := mk_pymol {
  h_atoms : list atom;
  h_selections : dict (list nat);
  h_settings : dict float;
  h_colors : list (pystr * rgb);
  h_log : list call
}.

(** [cmd.set_color]: a known name keeps its handle and takes the new value,
    a new name is appended. *)
Definition set_color (tbl : list (pystr * rgb)) (name : pystr) (value : rgb)
  : list (pystr * rgb) := dict_set tbl name value.

Fixpoint index_from (tbl : list (pystr * rgb)) (name : pystr) (i : Z)
  : option Z :=
  match tbl with
  | [] => None
  | (n, _) :: t => if str_eqb n name then Some i else index_from t name (i + 1)
  end.

Definition color_index (tbl : list (pystr * rgb)) (name : pystr) : option Z :=
  index_from tbl name 0.

Definition mem_index (l : list nat) (i : nat) : bool := existsb (Nat.eqb i) l.

(** ** The fragment of the host's selection language the registry uses

    Space-separated words; [name P] and [resn P] match the atom name and
    the residue name against [P], where a trailing [*] makes [P] a prefix;
    [polymer.protein], [polymer.nucleic], [organic] and [all] are
    keywords; any other word names a selection made earlier; [not] binds
    tighter than a chain of [and] or a chain of [or].  Expressions outside
    the fragment are not given a meaning here. *)

Inductive sel_expr :=
| s_all
| s_protein
| s_nucleic
| s_organic
| s_name (pattern : pystr)
| s_resn (pattern : pystr)
| s_ref (name : pystr)
| s_not (e : sel_expr)
| s_and (e1 e2 : sel_expr)
| s_or (e1 e2 : sel_expr).

Definition space : char := 32%N.
Definition star : char := 42%N.

Fixpoint words_aux (s : pystr) (cur : pystr) : list pystr :=
  match s with
  | [] => match cur with [] => [] | _ => [rev cur] end
  | c :: t =>
      if N.eqb c space
      then match cur with [] => words_aux t [] | _ => rev cur :: words_aux t [] end
      else words_aux t (c :: cur)
  end.

(** [s.split()] *)
Definition words (s : pystr) : list pystr := words_aux s [].

Definition is_word (w : string) (t : pystr) : bool := str_eqb t (py w).

Fixpoint parse_term (ts : list pystr) : option sel_expr :=
  match ts with
  | [] => None
  | [t] =>
      if is_word "all" t then Some s_all
      else if is_word "polymer.protein" t then Some s_protein
      else if is_word "polymer.nucleic" t then Some s_nucleic
      else if is_word "organic" t then Some s_organic
      else if is_word "not" t || is_word "and" t || is_word "or" t
              || is_word "name" t || is_word "resn" t then None
      else Some (s_ref t)
  | t :: rest =>
      if is_word "not" t then option_map s_not (parse_term rest)
      else match rest with
           | [p] => if is_word "name" t then Some (s_name p)
                    else if is_word "resn" t then Some (s_resn p)
                    else None
           | _ => None
           end
  end.

(** The word lists between the occurrences of the operator [op]. *)
Fixpoint split_on (op : string) (ts : list pystr) (cur : list pystr)
  : list (list pystr) :=
  match ts with
  | [] => [rev cur]
  | t :: rest =>
      if is_word op t then rev cur :: split_on op rest []
      else split_on op rest (t :: cur)
  end.

Fixpoint parse_chain (mk : sel_expr -> sel_expr -> sel_expr)
         (acc : sel_expr) (parts : list (list pystr)) : option sel_expr :=
  match parts with
  | [] => Some acc
  | p :: rest =>
      match parse_term p with
      | Some e => parse_chain mk (mk acc e) rest
      | None => None
      end
  end.

Definition parse_with (op : string) (mk : sel_expr -> sel_expr -> sel_expr)
           (ts : list pystr) : option sel_expr :=
  match split_on op ts [] with
  | [] => None
  | p :: rest =>
      match parse_term p with
      | Some e => parse_chain mk e rest
      | None => None
      end
  end.

Definition parse_sel (s : pystr) : option sel_expr :=
  let ts := words s in
  if existsb (is_word "or") ts
  then (if existsb (is_word "and") ts then None else parse_with "or" s_or ts)
  else parse_with "and" s_and ts.

(** [P] against a name: a trailing [*] is a wildcard, otherwise the two
    are equal. *)
Definition match_pattern (p s : pystr) : bool :=
  match rev p with
  | c :: rp => if N.eqb c star then startswith (rev rp) s else str_eqb p s
  | [] => str_eqb p s
  end.

Fixpoint eval_sel (sels : dict (list nat)) (e : sel_expr)
  : option (nat -> atom -> bool) :=
  match e with
  | s_all => Some (fun _ _ => true)
  | s_protein => Some (fun _ a => a_protein a)
  | s_nucleic => Some (fun _ a => a_nucleic a)
  | s_organic => Some (fun _ a => a_organic a)
  | s_name p => Some (fun _ a => match_pattern p (a_name a))
  | s_resn p => Some (fun _ a => match_pattern p (a_resn a))
  | s_ref n =>
      match dict_get sels n with
      | Some l => Some (fun i _ => mem_index l i)
      | None => None
      end
  | s_not e1 =>
      match eval_sel sels e1 with
      | Some f => Some (fun i a => negb (f i a))
      | None => None
      end
  | s_and e1 e2 =>
      match eval_sel sels e1, eval_sel sels e2 with
      | Some f, Some g => Some (fun i a => f i a && g i a)
      | _, _ => None
      end
  | s_or e1 e2 =>
      match eval_sel sels e1, eval_sel sels e2 with
      | Some f, Some g => Some (fun i a => f i a || g i a)
      | _, _ => None
      end
  end.

Fixpoint indices_from (f : nat -> atom -> bool) (i : nat) (l : list atom)
  : list nat :=
  match l with
  | [] => []
  | a :: t => if f i a then i :: indices_from f (S i) t
              else indices_from f (S i) t
  end.

(** The atoms a selection string of the fragment denotes, [None] when the
    string is outside the fragment or names a selection that does not
    exist. *)
Definition pymol_select (atoms : list atom) (sels : dict (list nat))
           (s : pystr) : option (list nat) :=
  match parse_sel s with
  | Some e =>
      match eval_sel sels e with
      | Some f => Some (indices_from f 0 atoms)
      | None => None
      end
  | None => None
  end.

(** The identifiers of the atom that the preset table colors by. *)
Definition atom_attribute (method : pystr) (a : atom) : option pystr :=
  if is_word "name" method then Some (a_name a)
  else if is_word "resn" method then Some (a_resn a)
  else if is_word "resi" method then Some (a_resi a)
  else if is_word "chain" method then Some (a_chain a)
  else if is_word "elem" method then Some (a_elem a)
  else None.

(** [\w] and [\d] on ASCII. *)
Definition ascii_digit (c : char) : bool := (48 <=? c)%N && (c <=? 57)%N.
Definition ascii_word (c : char) : bool :=
  ascii_digit c || ((65 <=? c)%N && (c <=? 90)%N)
  || ((97 <=? c)%N && (c <=? 122)%N) || N.eqb c 95.

(** ** The Python side: exceptions, [pymol.stored], the effect monad *)

Inductive exn :=
| CmdException
| AttributeError (attribute : pystr)
| KeyError (key : pystr)
| NameError (expression : pystr)
| IndexError
| TypeError (message : pystr)
| ValueError (message : pystr)
| OSError.

Inductive result (A : Type) :=
| Ok (a : A)
| Raise (e : exn).
Arguments Ok {A} a.
Arguments Raise {A} e.

(** A function of this module or of [cmd] stored in the preset table. *)
Inductive func := f_mt_color | f_cmd_color | f_cmd_show_as | f_cmd_hide.

(** A preset entry: [None], or a list with the function first and its
    arguments following. *)
Definition command := option (func * list pystr).

(** The attributes these tools set on [pymol.stored]; [None] while an
    attribute has not been assigned. *)
Record stored := mk_stored {
  mt_colors : option (list Z);
  mt_selectors : option (dict pystr);
  mt_nice_set : option (dict (dict (dict command)));
  tmp_dict : option (dict Z)
}.

(** The state a call runs in: the host, [pymol.stored], the random
    source (the draws still to come) and what was printed. *)
Record world := mk_world {
  host : pymol;
  st : stored;
  rng : nat -> nat;
  stdout : list pystr
}.

(** A Python call over a state [S]: it returns or raises, and leaves a
    state either way. *)
Definition St (S A : Type) := S -> result A * S.

Definition ret {S A} (a : A) : St S A := fun w => (Ok a, w).
Definition raise {S A} (e : exn) : St S A := fun w => (Raise e, w).
Definition bind {S A B} (c : St S A) (k : A -> St S B) : St S B :=
  fun w => match c w with
           | (Ok a, w') => k a w'
           | (Raise e, w') => (Raise e, w')
           end.

Declare Scope py_scope.
Delimit Scope py_scope with py.
Notation "x <- c ;; k" := (bind c (fun x => k))
  (at level 100, c at next level, right associativity) : py_scope.
Notation "c ;; k" := (bind c (fun _ => k))
  (at level 100, right associativity) : py_scope.
Open Scope py_scope.

(** [for x in l: body(x)] *)
Fixpoint for_each {S A} (l : list A) (body : A -> St S unit) : St S unit :=
  match l with
  | [] => ret tt
  | x :: t => body x ;; for_each t body
  end.

Definition M := St world.

Definition get_host : M pymol := fun w => (Ok (host w), w).
Definition put_host (h : pymol) : M unit :=
  fun w => (Ok tt, mk_world h (st w) (rng w) (stdout w)).
Definition get_stored : M stored := fun w => (Ok (st w), w).
Definition put_stored (s : stored) : M unit :=
  fun w => (Ok tt, mk_world (host w) s (rng w) (stdout w)).

(** [print(line)] *)
Definition print (line : pystr) : M unit :=
  fun w => (Ok tt, mk_world (host w) (st w) (rng w) (stdout w ++ [line])).

(** [random.choice(seq)] *)
Definition random_choice (seq : list Z) : M Z :=
  fun w =>
    match seq with
    | [] => (Raise IndexError, w)
    | x :: _ =>
        (Ok (nth (rng w 0 mod List.length seq) seq x),
         mk_world (host w) (st w) (fun n => rng w (S n)) (stdout w))
    end.

(** [stored.<name>] read: AttributeError while it is unassigned. *)
Definition stored_attr {A} (name : string) (field : stored -> option A)
  : M A :=
  fun w => match field (st w) with
           | Some a => (Ok a, w)
           | None => (Raise (AttributeError (py name)), w)
           end.

Definition set_mt_colors (v : list Z) : M unit :=
  s <- get_stored ;;
  put_stored (mk_stored (Some v) (mt_selectors s) (mt_nice_set s) (tmp_dict s)).
Definition set_mt_selectors (v : dict pystr) : M unit :=
  s <- get_stored ;;
  put_stored (mk_stored (mt_colors s) (Some v) (mt_nice_set s) (tmp_dict s)).
Definition set_mt_nice_set (v : dict (dict (dict command))) : M unit :=
  s <- get_stored ;;
  put_stored (mk_stored (mt_colors s) (mt_selectors s) (Some v) (tmp_dict s)).
Definition set_tmp_dict (v : dict Z) : M unit :=
  s <- get_stored ;;
  put_stored (mk_stored (mt_colors s) (mt_selectors s) (mt_nice_set s) (Some v)).

(** ** The host commands *)

Definition log_call (c : call) : M unit :=
  h <- get_host ;;
  put_host (mk_pymol (h_atoms h) (h_selections h) (h_settings h)
                     (h_colors h) (h_log h ++ [c])).

Definition put_atoms (l : list atom) : M unit :=
  h <- get_host ;;
  put_host (mk_pymol l (h_selections h) (h_settings h) (h_colors h) (h_log h)).

Definition put_selections (s : dict (list nat)) : M unit :=
  h <- get_host ;;
  put_host (mk_pymol (h_atoms h) s (h_settings h) (h_colors h) (h_log h)).

(** Applies [f] to the atoms of the selection in turn, up to the first one
    on which it raises; the atoms changed before that stay changed. *)
Fixpoint alter_atoms (member : nat -> bool) (f : atom -> result atom)
         (i : nat) (l : list atom) : list atom * option exn :=
  match l with
  | [] => ([], None)
  | a :: t =>
      if member i then
        match f a with
        | Ok a' => let (t', e) := alter_atoms member f (S i) t in (a' :: t', e)
        | Raise e => (a :: t, Some e)
        end
      else let (t', e) := alter_atoms member f (S i) t in (a :: t', e)
  end.

Fixpoint iterate_atoms (member : nat -> bool) (body : atom -> M unit)
         (i : nat) (l : list atom) : M unit :=
  match l with
  | [] => ret tt
  | a :: t =>
      (if member i then body a else ret tt) ;;
      iterate_atoms member body (S i) t
  end.

Definition cmd_sync : M unit := log_call c_sync.

(** Turns off the display of the named selections, which nothing here
    reads. *)
Definition cmd_deselect : M unit := log_call c_deselect.

(** Rebuilds the displayed colors from the atoms' colors. *)
Definition cmd_recolor : M unit := log_call c_recolor.

Definition cmd_set (name : pystr) (value : float) : M unit :=
  log_call (c_set name value) ;;
  h <- get_host ;;
  put_host (mk_pymol (h_atoms h) (h_selections h)
                     (dict_set (h_settings h) name value)
                     (h_colors h) (h_log h)).

Definition cmd_set_color (name : pystr) (value : rgb) : M unit :=
  log_call (c_set_color name value) ;;
  h <- get_host ;;
  put_host (mk_pymol (h_atoms h) (h_selections h) (h_settings h)
                     (set_color (h_colors h) name value) (h_log h)).

(** The handle of a color name, -1 for an unknown name. *)
Definition cmd_get_color_index (name : pystr) : M Z :=
  log_call (c_get_color_index name) ;;
  h <- get_host ;;
  ret (match color_index (h_colors h) name with
       | Some i => i
       | None => (-1)%Z
       end).

Definition cmd_delete (name : pystr) : M unit :=
  log_call (c_delete name) ;;
  h <- get_host ;;
  put_selections
    (filter (fun kv => negb (str_eqb (fst kv) name)) (h_selections h)).

Section Stir.

Variable word_char : char -> bool.
Variable digit_char : char -> bool.

(** The host's selection language: the indices of the atoms a selection
    string denotes, given the atoms and the named selections, or [None]
    when the host rejects the string. *)
Variable sel_eval : list atom -> dict (list nat) -> pystr -> option (list nat).

(** The value of an expression over the atom's identifiers, as
    [iterate] and [alter] evaluate it, or [None] when it raises. *)
Variable attr_eval : pystr -> atom -> option pystr.

Definition resolve (selection : pystr) : M (list nat) :=
  h <- get_host ;;
  match sel_eval (h_atoms h) (h_selections h) selection with
  | Some l => ret l
  | None => raise CmdException
  end.

Definition cmd_select (name logic : pystr) : M unit :=
  log_call (c_select name logic) ;;
  l <- resolve logic ;;
  h <- get_host ;;
  put_selections (dict_set (h_selections h) name l).

Definition cmd_alter (selection expression : pystr)
           (f : atom -> result atom) : M unit :=
  log_call (c_alter selection expression) ;;
  l <- resolve selection ;;
  h <- get_host ;;
  let (atoms', e) := alter_atoms (mem_index l) f 0 (h_atoms h) in
  put_atoms atoms' ;;
  match e with
  | Some e => raise e
  | None => ret tt
  end.

Definition cmd_iterate (selection expression : pystr)
           (body : atom -> M unit) : M unit :=
  log_call (c_iterate selection expression) ;;
  l <- resolve selection ;;
  h <- get_host ;;
  iterate_atoms (mem_index l) body 0 (h_atoms h).

Definition cmd_color (color selection : pystr) : M unit :=
  log_call (c_color color selection) ;;
  h <- get_host ;;
  match color_index (h_colors h) color with
  | None => raise CmdException
  | Some idx =>
      l <- resolve selection ;;
      put_atoms (fst (alter_atoms (mem_index l)
                        (fun a => Ok (with_color a idx)) 0 (h_atoms h)))
  end.

Definition cmd_show_as (representation selection : pystr) : M unit :=
  log_call (c_show_as representation selection) ;;
  l <- resolve selection ;;
  h <- get_host ;;
  put_atoms (fst (alter_atoms (mem_index l)
                    (fun a => Ok (with_reps a [representation]))
                    0 (h_atoms h))).

Definition cmd_hide (representation selection : pystr) : M unit :=
  log_call (c_hide representation selection) ;;
  l <- resolve selection ;;
  h <- get_host ;;
  put_atoms
    (fst (alter_atoms (mem_index l)
            (fun a =>
               Ok (with_reps a
                     (if is_word "everything" representation then []
                      else filter (fun r => negb (str_eqb r representation))
                                  (a_reps a))))
            0 (h_atoms h))).

(** ** [mt_nice.py] *)

Definition colors : list rgb :=
  [ (240, 163, 255); (0, 117, 220); (153, 63, 0); (76, 0, 92);
    (25, 25, 25); (0, 92, 49); (43, 206, 72); (255, 204, 153);
    (128, 128, 128); (148, 255, 181); (143, 124, 0); (157, 204, 0);
    (194, 0, 136); (0, 51, 128); (255, 164, 5); (255, 168, 187);
    (66, 102, 0); (255, 0, 16); (94, 241, 242); (0, 153, 143);
    (224, 255, 102); (116, 10, 255); (153, 0, 0); (255, 255, 128);
    (255, 255, 0); (255, 80, 5) ]%Z.

(** f'mt_color_{i}' *)
Definition col_name (i : nat) : pystr := py "mt_color_" ++ str_of_nat i.

Definition selectors : dict pystr :=
  [ (py "prot", py "polymer.protein");
    (py "BB", py "polymer.protein and name BB");
    (py "SC", py "polymer.protein and name SC*");
    (py "solv", py "resn W or resn WN or resn ION");
    (py "ions", py "resn ION");
    (py "lip", py "organic and not ions");
    (py "nucl", py "polymer.nucleic") ].

Definition entry (color_method style : command) : dict command :=
  [ (py "color_method", color_method); (py "style", style) ].

Definition color_by (method : string) : command := Some (f_mt_color, [py method]).
Definition color_fixed (color : string) : command := Some (f_cmd_color, [py color]).
Definition do_show_as (rep : string) : command := Some (f_cmd_show_as, [py rep]).
Definition do_hide (rep : string) : command := Some (f_cmd_hide, [py rep]).

Definition nice_set : dict (dict (dict command)) :=
  [ (py "clean",
     [ (py "prot", entry None None);
       (py "BB", entry (color_by "chain") (do_show_as "sticks"));
       (py "SC", entry None (do_hide "everything"));
       (py "solv", entry None (do_hide "everything"));
       (py "ions", entry None (do_hide "everything"));
       (py "lip", entry (color_by "resn") (do_show_as "sticks"));
       (py "nucl", entry (color_by "resi") (do_show_as "sticks")) ]);
    (py "rainbow",
     [ (py "prot", entry None None);
       (py "BB", entry (color_by "chain") (do_show_as "sticks"));
       (py "SC", entry (color_by "resn") (do_show_as "sticks"));
       (py "solv", entry (color_fixed "blue") (do_show_as "nb_spheres"));
       (py "ions", entry (color_by "name") (do_show_as "nb_spheres"));
       (py "lip", entry (color_by "resi") (do_show_as "sticks"));
       (py "nucl", entry (color_by "resn") (do_show_as "sticks")) ]);
    (py "balls",
     [ (py "prot", entry None None);
       (py "BB", entry (color_fixed "purple") (do_show_as "spheres"));
       (py "SC", entry (color_fixed "red") (do_show_as "spheres"));
       (py "solv", entry (color_fixed "blue") (do_show_as "nb_spheres"));
       (py "ions", entry (color_by "resn") (do_show_as "nb_spheres"));
       (py "lip", entry (color_by "resn") (do_show_as "spheres"));
       (py "nucl", entry (color_by "resi") (do_show_as "spheres")) ]) ].

(** The first loop of [nice_settings], from index [i] on: registers the
    colors and collects them in the local dictionary. *)
Fixpoint register_colors (i : nat) (l : list rgb) (d : dict rgb)
  : M (dict rgb) :=
  match l with
  | [] => ret d
  | value :: t =>
      cmd_set_color (col_name i) value ;;
      register_colors (S i) t (dict_set d (col_name i) value)
  end.

Definition nice_settings : M unit :=
  local_colors <- register_colors 0 colors [] ;;
  set_mt_colors [] ;;
  for_each (dict_keys local_colors)
    (fun color =>
       idx <- cmd_get_color_index color ;;
       l <- stored_attr "mt_colors" mt_colors ;;
       set_mt_colors (l ++ [idx])) ;;
  set_mt_selectors selectors ;;
  set_mt_nice_set nice_set.

(** [mt_sele(delete)]; [None] is the default argument. *)
Definition mt_sele (delete : option pystr) : M unit :=
  (match delete with
   | Some ((_ :: _) as d) =>
       if is_word "delete" d then
         s <- stored_attr "mt_selectors" mt_selectors ;;
         for_each (dict_keys s) cmd_delete
       else
         print (py "Unknown option. Type `mt_sele delete` to delete all the mt selections")
   | _ =>
       s <- stored_attr "mt_selectors" mt_selectors ;;
       for_each s (fun item => cmd_select (fst item) (snd item))
   end) ;;
  cmd_sync ;;
  cmd_deselect ;;
  cmd_sync.

Definition mt_color (method selection : pystr) : M unit :=
  set_tmp_dict [] ;;
  (* stored.r_choice = random.choice *)
  cmd_iterate selection
    (py "stored.tmp_dict[" ++ method ++ py "] = stored.r_choice(stored.mt_colors)")
    (fun a =>
       palette <- stored_attr "mt_colors" mt_colors ;;
       c <- random_choice palette ;;
       d <- stored_attr "tmp_dict" tmp_dict ;;
       match attr_eval method a with
       | Some k => set_tmp_dict (dict_set d k c)
       | None => raise (NameError method)
       end) ;;
  d <- stored_attr "tmp_dict" tmp_dict ;;
  cmd_alter selection (py "color = stored.tmp_dict[" ++ method ++ py "]")
    (fun a =>
       match attr_eval method a with
       | Some k =>
           match dict_get d k with
           | Some c => Ok (with_color a c)
           | None => Raise (KeyError k)
           end
       | None => Raise (NameError method)
       end) ;;
  cmd_sync ;;
  set_tmp_dict [] ;;
  cmd_recolor ;;
  cmd_sync.

Definition set_vdw (selection : pystr) : M unit :=
  cmd_alter selection (py "vdw=stored.alter_vdw(elem, vdw)")
    (fun a =>
       Ok (with_vdw a (alter_vdw word_char digit_char (a_elem a) (a_vdw a)))) ;;
  cmd_sync.

(** The call of a preset entry: its function on its arguments, with the
    keyword argument [selection]. *)
Definition call_command (f : func) (args : list pystr) (sel : pystr)
  : M unit :=
  match f, args with
  | f_mt_color, [method] => mt_color method sel
  | f_cmd_color, [color] => cmd_color color sel
  | f_cmd_show_as, [rep] => cmd_show_as rep sel
  | f_cmd_hide, [rep] => cmd_hide rep sel
  (* the preset table gives every function exactly one argument *)
  | _, _ => raise (TypeError (py "wrong number of arguments"))
  end.

Definition valid_styles : list pystr := [py "clean"; py "rainbow"; py "balls"].

Definition mt_nice (style selection : pystr) : M unit :=
  if negb (existsb (str_eqb style) valid_styles) then
    print (py "Error: " ++ style ++ py " is not a valid option. See help mt_nice")
  else
    mt_sele None ;;
    cmd_set (py "stick_radius") 0.7%float ;;
    cmd_sync ;;
    set_vdw selection ;;
    cmd_sync ;;
    table <- stored_attr "mt_nice_set" mt_nice_set ;;
    match dict_get table style with
    | None => raise (KeyError style)
    | Some settings =>
        for_each settings
          (fun item =>
             let sel_type := fst item in
             for_each (dict_values (snd item))
               (fun command =>
                  match command with
                  | Some (f, args) =>
                      call_command f args (selection ++ py " and " ++ sel_type)
                  | None => ret tt
                  end))
    end.

(** [load]; the three [cmd.extend] calls after [nice_settings] make the
    functions commands of the host and change nothing of the state kept
    here. *)
Definition load : M unit := nice_settings.

(** ** The preset engine in the words of its specification *)

(** The rule of a preset for a group: the entry of the table in the
    slot ["color_method"] or ["style"], [None] when it is absent. *)
Definition rule_of (preset group slot : pystr) : command :=
  match dict_get nice_set preset with
  | Some groups =>
      match dict_get groups group with
      | Some rules =>
          match dict_get rules slot with
          | Some c => c
          | None => None
          end
      | None => None
      end
  | None => None
  end.

(** Applying a rule to a scope; an absent rule does nothing. *)
Definition apply_rule (scope : pystr) (c : command) : M unit :=
  match c with
  | Some (f, args) => call_command f args scope
  | None => ret tt
  end.

(** Resolve the groups of the registry, set the stick radius, run the
    bead classifier over the selection, then for each group of the
    registry in its order apply the color rule and then the style rule of
    the preset, scoped to "selection and group". *)
Definition preset_steps (preset selection : pystr) : M unit :=
  mt_sele None ;;
  cmd_set (py "stick_radius") 0.7%float ;;
  cmd_sync ;;
  set_vdw selection ;;
  cmd_sync ;;
  for_each (dict_keys selectors)
    (fun group =>
       let scope := selection ++ py " and " ++ group in
       apply_rule scope (rule_of preset group (py "color_method")) ;;
       apply_rule scope (rule_of preset group (py "style"))).

(** The host calls a rule makes when it succeeds. *)
Definition rule_calls (scope : pystr) (c : command) : list call :=
  match c with
  | Some (f_mt_color, [method]) =>
      [ c_iterate scope
          (py "stored.tmp_dict[" ++ method
           ++ py "] = stored.r_choice(stored.mt_colors)");
        c_alter scope (py "color = stored.tmp_dict[" ++ method ++ py "]");
        c_sync; c_recolor; c_sync ]
  | Some (f_cmd_color, [color]) => [c_color color scope]
  | Some (f_cmd_show_as, [rep]) => [c_show_as rep scope]
  | Some (f_cmd_hide, [rep]) => [c_hide rep scope]
  | _ => []
  end.

(** The host calls of a preset on a selection, in order. *)
Definition preset_calls (preset selection : pystr) : list call :=
  List.map (fun item => c_select (fst item) (snd item)) selectors
  ++ [ c_sync; c_deselect; c_sync;
       c_set (py "stick_radius") 0.7%float; c_sync;
       c_alter selection (py "vdw=stored.alter_vdw(elem, vdw)"); c_sync;
       c_sync ]
  ++ flat_map
       (fun group =>
          let scope := selection ++ py " and " ++ group in
          rule_calls scope (rule_of preset group (py "color_method"))
          ++ rule_calls scope (rule_of preset group (py "style")))
       (dict_keys selectors).

End Stir.

(** ** [store_settings.py] *)

(** The values a setting can have. *)
Inductive value :=
| v_str (s : pystr)
| v_int (z : Z)
| v_bool (b : bool)
| v_float (f : float)
| v_other (text : pystr).   (* any other object, with its [str()] *)

Definition isinstance_str (v : value) : bool :=
  match v with v_str _ => true | _ => false end.

(** [bool] is a subclass of [int]. *)
Definition isinstance_int (v : value) : bool :=
  match v with v_int _ | v_bool _ => true | _ => false end.

Definition str_of_Z (z : Z) : pystr :=
  match z with
  | Z0 => py "0"
  | Zpos p => str_of_nat (Pos.to_nat p)
  | Zneg p => py "-" ++ str_of_nat (Pos.to_nat p)
  end.

Definition newline : char := 10%N.
Definition dquote : char := 34%N.
Definition slash : char := 47%N.
Definition dot : char := 46%N.

(** [s.rfind(c)], scanning from index [i] with [last] the answer so far. *)
Fixpoint rfind_from (c : char) (s : pystr) (i last : Z) : Z :=
  match s with
  | [] => last
  | x :: t => rfind_from c t (i + 1) (if N.eqb x c then i else last)
  end.

Definition rfind (c : char) (s : pystr) : Z := rfind_from c s 0 (-1).

(** [os.path.splitext] on POSIX: the extension starts at the last dot of
    the last path component, leading dots of that component apart. *)
Definition posix_splitext (p : pystr) : pystr * pystr :=
  let sepIndex := rfind slash p in
  let dotIndex := rfind dot p in
  if (sepIndex <? dotIndex)%Z
     && existsb (fun x => negb (N.eqb x dot))
                (firstn (Z.to_nat (dotIndex - (sepIndex + 1)))
                        (skipn (Z.to_nat (sepIndex + 1)) p))
  then (firstn (Z.to_nat dotIndex) p, skipn (Z.to_nat dotIndex) p)
  else (p, []).

(** The files by path, and the paths that can be opened for writing. *)
Record filesystem := mk_fs {
  files : dict pystr;
  writable : pystr -> bool
}.

(** [open(path, 'w+')]: the file is created or emptied. *)
Definition open_w (path : pystr) : St filesystem unit :=
  fun fs =>
    if writable fs path
    then (Ok tt, mk_fs (dict_set (files fs) path []) (writable fs))
    else (Raise OSError, fs).

(** [print(text, file=f)] on the file opened at [path]. *)
Definition fprint (path text : pystr) : St filesystem unit :=
  fun fs =>
    match dict_get (files fs) path with
    | Some content =>
        (Ok tt, mk_fs (dict_set (files fs) path (content ++ text ++ [newline]))
                      (writable fs))
    | None => (Raise OSError, fs)
    end.

(** [setting, value = key] for a [str]: its characters, which must be
    two. *)
Definition unpack_pair (key : pystr) : result (value * value) :=
  match key with
  | [a; b] => Ok (v_str [a], v_str [b])
  | [] => Raise (ValueError (py "not enough values to unpack (expected 2, got 0)"))
  | [_] => Raise (ValueError (py "not enough values to unpack (expected 2, got 1)"))
  | _ => Raise (ValueError (py "too many values to unpack (expected 2)"))
  end.

Definition header : pystr :=
  py "# pymol settings file autogenerated by stir" ++ [newline].

Section StoreSettings.

(** [os.path.splitext] *)
Variable splitext : pystr -> pystr * pystr.
(** [pymol.setting.name_list] and [pymol.setting.get_setting] *)
Variable name_list : list pystr.
Variable get_setting : pystr -> value.
(** [str()] of a float *)
Variable float_str : float -> pystr.

(** f'{v}' *)
Definition format (v : value) : pystr :=
  match v with
  | v_str s => s
  | v_int z => str_of_Z z
  | v_bool true => py "True"
  | v_bool false => py "False"
  | v_float f => float_str f
  | v_other text => text
  end.

(** The body of the write loop on one element of the iteration. *)
Definition write_setting (path : pystr) (key : pystr) : St filesystem unit :=
  match unpack_pair key with
  | Raise e => raise e
  | Ok (setting, value) =>
      if isinstance_str value then
        fprint path (py "cmd.set(" ++ [dquote] ++ format setting ++ [dquote]
                     ++ py ", " ++ [dquote] ++ format value ++ [dquote]
                     ++ py ")")
      else if isinstance_int value then
        fprint path (py "cmd.set(" ++ [dquote] ++ format setting ++ [dquote]
                     ++ py ", " ++ format value ++ py ")")
      else
        raise (ValueError (format value ++ py " is neither a string nor an int"))
  end.

Definition collect_settings : dict value :=
  fold_left (fun d setting => dict_set d setting (get_setting setting))
            name_list [].

Definition store_settings (filename : pystr) : St filesystem unit :=
  if negb (str_eqb (snd (splitext filename)) (py ".py")) then
    raise (TypeError (filename ++ py " must be a .py file"))
  else
    let settings_dict := collect_settings in
    open_w filename ;;
    fprint filename header ;;
    (* iterating a dict yields its keys *)
    for_each (dict_keys settings_dict) (write_setting filename).

End StoreSettings.

(** ** Notions used in the statements *)

(** The random source after [n] draws. *)
Definition shift (n : nat) (r : nat -> nat) : nat -> nat := fun k => r (n + k).

(** The number of atoms of [l], numbered from [i], that a selection
    holds. *)
Fixpoint count_sel (member : nat -> bool) (i : nat) (l : list atom) : nat :=
  match l with
  | [] => 0
  | _ :: t => (if member i then 1 else 0) + count_sel member (S i) t
  end.

(** The element [random.choice] returns on the draw [n]. *)
Definition pick (pal : list Z) (n : nat) : Z :=
  nth (n mod List.length pal) pal (hd 0%Z pal).

(** The dictionary the [iterate] of [mt_color] builds from [d]: one draw
    per atom of the selection, assigned to the atom's key. *)
Fixpoint assign (member : nat -> bool) (key : atom -> option pystr)
         (pal : list Z) (r : nat -> nat) (i : nat) (l : list atom)
         (d : dict Z) : dict Z :=
  match l with
  | [] => d
  | a :: t =>
      if member i then
        match key a with
        | Some k =>
            assign member key pal (shift 1 r) (S i) t
                   (dict_set d k (pick pal (r 0)))
        | None => d
        end
      else assign member key pal r (S i) t d
  end.

(** The color a dictionary gives an atom. *)
Definition color_of (key : atom -> option pystr) (d : dict Z) (a : atom) : Z :=
  match key a with
  | Some k => match dict_get d k with Some c => c | None => 0%Z end
  | None => 0%Z
  end.

(** The color of the atom of index [i]. *)
Definition color_at (w : world) (i : nat) : option Z :=
  option_map a_color (nth_error (h_atoms (host w)) i).

(** The same atoms up to their colors. *)
Definition recolored (l l' : list atom) : Prop :=
  Forall2 (fun a a' => exists c, a' = with_color a c) l l'.

(** Whether the named selection [group] of the host holds the atom of
    index [i]. *)
Definition selected (h : pymol) (group : string) (i : nat) : bool :=
  match dict_get (h_selections h) (py group) with
  | Some l => mem_index l i
  | None => false
  end.

(** The tables of [nice_settings] are in place. *)
Definition loaded (w : world) : Prop :=
  mt_selectors (st w) = Some selectors /\ mt_nice_set (st w) = Some nice_set.

(** A call that leaves [pymol.stored] as it is. *)
Definition keeps_st {A} (c : M A) : Prop := forall w, st (snd (c w)) = st w.

(** A call that, when it returns, has made the host calls [l] in order. *)
Definition logs {A} (c : M A) (l : list call) : Prop :=
  forall w a w', c w = (Ok a, w') -> h_log (host w') = h_log (host w) ++ l.

(** The state [w] with the random source [r]. *)
Definition with_rng (w : world) (r : nat -> nat) : world :=
  mk_world (host w) (st w) r (stdout w).

(** No string occurs twice in [l]. *)
Fixpoint distinctb (l : list pystr) : bool :=
  match l with
  | [] => true
  | x :: t => negb (existsb (str_eqb x) t) && distinctb t
  end.

(** [enumerate(l)] from [i]. *)
Fixpoint enumerate_from {A} (i : nat) (l : list A) : list (nat * A) :=
  match l with
  | [] => []
  | x :: t => (i, x) :: enumerate_from (S i) t
  end.

(** The palette with the names [nice_settings] registers it under. *)
Definition named (i : nat) (l : list rgb) : list (pystr * rgb) :=
  List.map (fun p => (col_name (fst p), snd p)) (enumerate_from i l).

(** A color table after the colors [l] were registered in turn. *)
Definition registered (l : list (pystr * rgb)) (tbl : list (pystr * rgb))
  : list (pystr * rgb) :=
  fold_left (fun t p => set_color t (fst p) (snd p)) l tbl.

(** What [cmd.get_color_index] returns on a table. *)
Definition handle (tbl : list (pystr * rgb)) (name : pystr) : Z :=
  match color_index tbl name with
  | Some i => i
  | None => (-1)%Z
  end.

(** The atoms each string of the registry denotes, in the fragment of the
    selection language above; [ions] is the selection named ions. *)
Definition group_atoms (atoms : list atom) (ions : list nat) (group : string)
  : list nat :=
  indices_from
    (fun i a =>
       if is_word "prot" (py group) then a_protein a
       else if is_word "BB" (py group) then
         a_protein a && str_eqb (py "BB") (a_name a)
       else if is_word "SC" (py group) then
         a_protein a && startswith (py "SC") (a_name a)
       else if is_word "solv" (py group) then
         str_eqb (py "W") (a_resn a) || str_eqb (py "WN") (a_resn a)
         || str_eqb (py "ION") (a_resn a)
       else if is_word "ions" (py group) then str_eqb (py "ION") (a_resn a)
       else if is_word "lip" (py group) then
         a_organic a && negb (mem_index ions i)
       else if is_word "nucl" (py group) then a_nucleic a
       else false)
    0 atoms.

(** ** A small system to run the tools on *)

Definition bead (name resn resi chain elem : string) (vdw : float)
           (protein nucleic organic : bool) : atom :=
  mk_atom (py name) (py resn) (py resi) (py chain) (py elem) vdw 0 []
          protein nucleic organic.

Definition demo_atoms : list atom :=
  [ bead "BB" "ALA" "1" "A" "P5" 1.5 true false false;
    bead "SC1" "LYS" "2" "A" "SC3" 1.5 true false false;
    bead "BB" "LYS" "2" "A" "TQd" 1.5 true false false;
    bead "BBx" "LYS" "2" "B" "Nda" 1.5 true false false;
    bead "W" "W" "3" "" "W" 1.5 false false false;
    bead "NA" "ION" "4" "" "Qd" 1.5 false false true;
    bead "C1A" "POPC" "5" "" "zz" 1.5 false false true ].

Definition demo_host : pymol :=
  mk_pymol demo_atoms [] []
           [ (py "red", (255, 0, 0)%Z); (py "blue", (0, 0, 255)%Z);
             (py "purple", (128, 0, 128)%Z) ] [].

Definition demo_world : world :=
  mk_world demo_host (mk_stored None None None None) (fun n => 3 * n + 1) [].

(** The demo system after [load]. *)
Definition demo_loaded : world := snd (load demo_world).

(** The handles of the palette in the demo system. *)
Definition demo_palette : list Z := List.map Z.of_nat (seq 3 26).

(** A file system with no file, where every path can be opened. *)
Definition demo_fs : filesystem := mk_fs [] (fun _ => true).

(** Two setting names, the first of them a name of the host. *)
Definition demo_names : list pystr := [py "bonding_vdw_cutoff"; py "ab"].

Definition demo_setting (name : pystr) : value :=
  if is_word "ab" name then v_float 1.5 else v_int 0.

Definition demo_float_str (f : float) : pystr := py "1.5".

(** ** Notions used in the further properties *)

(** A bead code that starts like a regular bead: W, or one of Q, P, N, C,
    X followed by a word character or a digit. *)
Definition regular_code (word_char digit_char : char -> bool) (s : pystr)
  : bool :=
  match s with
  | [] => false
  | x :: rest =>
      N.eqb x (letter "W")
      || (existsb (N.eqb x) (py "QPNCX")
          && match rest with
             | [] => false
             | y :: _ => word_char y || digit_char y
             end)
  end.

(** A code that is the character [c] followed by a regular code. *)
Definition prefixed_code (word_char digit_char : char -> bool) (c : char)
           (s : pystr) : bool :=
  match s with
  | [] => false
  | x :: rest => N.eqb x c && regular_code word_char digit_char rest
  end.

(** The atoms after the classifier ran over the atoms of index in [m]. *)
Definition classified (word_char digit_char : char -> bool) (m : list nat)
           (atoms : list atom) : list atom :=
  fst (alter_atoms (mem_index m)
         (fun a => Ok (with_vdw a (alter_vdw word_char digit_char
                                     (a_elem a) (a_vdw a))))
         0 atoms).

(** A dictionary without the keys [names]. *)
Definition without {V} (names : list pystr) (d : dict V) : dict V :=
  filter (fun kv => negb (existsb (str_eqb (fst kv)) names)) d.

(** A dictionary after the items [items] were assigned in turn. *)
Definition updated {V} (items : dict V) (d : dict V) : dict V :=
  fold_left (fun d kv => dict_set d (fst kv) (snd kv)) items d.

(** The selections of the registry on [atoms], by name. *)
Definition registry_values (atoms : list atom) : dict (list nat) :=
  List.map
    (fun g => (py g, group_atoms atoms (group_atoms atoms [] "ions") g))
    ["prot"; "BB"; "SC"; "solv"; "ions"; "lip"; "nucl"]%string.

(** The same bead up to radius, color and representations. *)
Definition same_bead (a a' : atom) : Prop :=
  a_name a' = a_name a /\ a_resn a' = a_resn a /\ a_resi a' = a_resi a /\
  a_chain a' = a_chain a /\ a_elem a' = a_elem a /\
  a_protein a' = a_protein a /\ a_nucleic a' = a_nucleic a /\
  a_organic a' = a_organic a.

(** A host with the same color table and the same beads. *)
Definition restyled (h h' : pymol) : Prop :=
  h_colors h' = h_colors h /\ Forall2 same_bead (h_atoms h) (h_atoms h').

(** A host with the same settings. *)
Definition same_settings (h h' : pymol) : Prop := h_settings h' = h_settings h.

(** A call that, whatever its outcome, leaves the host related by [R] to
    the host it started from. *)
Definition preserves (R : pymol -> pymol -> Prop) {A} (c : M A) : Prop :=
  forall w, R (host w) (host (snd (c w))).

(** An exception of the host: it rejects a selection or a color name, or
    an expression names what an atom does not have. *)
Definition host_error (e : exn) : Prop :=
  e = CmdException \/ exists expression, e = NameError expression.

(** The tables of [nice_settings] are in place and the palette holds a
    color. *)
Definition ready (s : stored) : Prop :=
  mt_selectors s = Some selectors /\ mt_nice_set s = Some nice_set /\
  exists pal, mt_colors s = Some pal /\ pal <> [].

(** A call that, from a ready state, returns a value in [Q] in a ready
    state or raises an exception of the host. *)
Definition guarded {A} (Q : A -> Prop) (c : M A) : Prop :=
  forall w, ready (st w) ->
    match fst (c w) with
    | Ok a => Q a /\ ready (st (snd (c w)))
    | Raise e => host_error e
    end.

(** A preset entry that is absent or holds a function and one argument. *)
Definition unary (c : command) : bool :=
  match c with
  | None => true
  | Some (_, [_]) => true
  | Some _ => false
  end.

(** The names of a list in the order of their first occurrence. *)
Definition first_seen (names : list pystr) : list pystr :=
  fold_left (fun ks n => if existsb (str_eqb n) ks then ks else ks ++ [n])
            names [].

(** The line the export writes for a key of two characters. *)
Definition setting_line (key : pystr) : pystr :=
  py "cmd.set(" ++ [dquote] ++ firstn 1 key ++ [dquote] ++ py ", "
  ++ [dquote] ++ skipn 1 key ++ [dquote] ++ py ")" ++ [newline].

(** The messages of a failed unpacking into two. *)
Definition unpack_messages : list pystr :=
  [ py "not enough values to unpack (expected 2, got 0)";
    py "not enough values to unpack (expected 2, got 1)";
    py "too many values to unpack (expected 2)" ].

(** ** [stir.py]: two loops of [main] *)

(** What the confirmation loop writes. *)
Inductive output :=
| out_prompt                 (* the warning passed to [input] *)
| out_help                   (* [parser.print_help()] *)
| out_print (line : pystr).

(** How the confirmation loop ends: the run goes on, the process exits
    with status 0, or [input] finds no more input. *)
Inductive confirmation := proceed | exit_0 | end_of_input.

Section Main.

(** [str.lower] *)
Variable lower : pystr -> pystr.

(** [clean_path], from the module utils, applied to the parsed arguments,
    with the suffix and the text of the path it returns. *)
Variable path : Type.
Variable clean_path_args : result path.
Variable suffix : path -> pystr.
Variable path_str : path -> pystr.

(** The loop [while not ok] on the answers typed, first to last: its end,
    what it wrote, and the answers it did not read. *)
Fixpoint confirm (answers : list pystr)
  : confirmation * list output * list pystr :=
  match answers with
  | [] => (end_of_input, [out_prompt], [])
  | inp :: rest =>
      if existsb (str_eqb (lower inp)) [py "yes"; py "y"] then
        (proceed, [out_prompt], rest)
      else if existsb (str_eqb (lower inp)) [py "no"; py "n"; py ""] then
        (exit_0, [out_prompt; out_help], rest)
      else
        let '(c, written, unread) := confirm rest in
        (c,
         out_prompt
         :: out_print (py "ERROR: " ++ [dquote] ++ inp ++ [dquote]
                       ++ py " is not a valid choice")
         :: written,
         unread)
  end.

(** The loop over [args.pymol], from the lists [pymol_args] and [scripts]
    built so far. *)
Fixpoint sort_args (pymol : list pystr) (pymol_args scripts : list pystr)
  : result (list pystr * list pystr) :=
  match pymol with
  | [] => Ok (pymol_args, scripts)
  | arg :: rest =>
      match clean_path_args with
      | Raise e => Raise e
      | Ok p =>
          if existsb (str_eqb (suffix p)) [py ".pml"; py ".py"]
          then sort_args rest pymol_args (scripts ++ [path_str p])
          else sort_args rest (pymol_args ++ [path_str p]) scripts
      end
  end.

End Main.

(** An answer the confirmation loop does not know. *)
Definition unknown_answer (lower : pystr -> pystr) (inp : pystr) : bool :=
  negb (existsb (str_eqb (lower inp))
                [py "yes"; py "y"; py "no"; py "n"; py ""]).

(** The error lines for answers the loop does not know. *)
Definition complaints (answers : list pystr) : list output :=
  flat_map
    (fun inp =>
       [ out_prompt;
         out_print (py "ERROR: " ++ [dquote] ++ inp ++ [dquote]
                    ++ py " is not a valid choice") ])
    answers.

(** ASCII [lower]. *)
Definition ascii_lower (s : pystr) : pystr :=
  List.map (fun c => if (65 <=? c)%N && (c <=? 90)%N then (c + 32)%N else c) s.

(** * Properties *)

Unset Implicit Arguments.

(** ** Strings *)

Lemma str_eqb_eq (a b : pystr) : str_eqb a b = true <-> a = b.
Proof.
  revert b; induction a as [|x a IH]; intros [|y b]; simpl; split;
    try congruence; try reflexivity.
  - intros H. apply andb_true_iff in H as [H1 H2].
    apply N.eqb_eq in H1. apply IH in H2. congruence.
  - intros H. injection H as -> ->.
    rewrite N.eqb_refl. simpl. now apply IH.
Qed.

Lemma str_eqb_refl (a : pystr) : str_eqb a a = true.
Proof. now apply str_eqb_eq. Qed.

Lemma str_eqb_neq (a b : pystr) : str_eqb a b = false <-> a <> b.
Proof.
  split.
  - intros H E. apply str_eqb_eq in E. congruence.
  - intros H. destruct (str_eqb a b) eqn:E; [|reflexivity].
    apply str_eqb_eq in E. contradiction.
Qed.

Lemma str_eqb_sym (a b : pystr) : str_eqb a b = str_eqb b a.
Proof.
  destruct (str_eqb b a) eqn:E.
  - apply str_eqb_eq in E. subst. apply str_eqb_refl.
  - apply str_eqb_neq. apply str_eqb_neq in E. congruence.
Qed.

(** ** The bead classifier *)

Section ClassifierFacts.

Variable word_char : char -> bool.
Variable digit_char : char -> bool.

Abbreviation re_match := (re_match word_char digit_char).
Abbreviation first_radius := (first_radius word_char digit_char).
Abbreviation alter_vdw := (alter_vdw word_char digit_char).
Abbreviation matching := (matching word_char digit_char).

(** A bead code the regular pattern matches starts with one of
    Q, P, N, C, X or W. *)
Lemma regular_first (s : pystr) :
  re_match pat_regular s = true ->
  exists x t, s = x :: t /\ In x (py "QPNCXW").
Proof.
  destruct s as [|x t]; [discriminate|].
  intros H. exists x, t. split; [reflexivity|].
  unfold re_match, pat_regular in H. cbn -[N.eqb] in H.
  destruct (N.eqb_spec x 81); [subst; vm_compute; tauto|].
  destruct (N.eqb_spec x 80); [subst; vm_compute; tauto|].
  destruct (N.eqb_spec x 78); [subst; vm_compute; tauto|].
  destruct (N.eqb_spec x 67); [subst; vm_compute; tauto|].
  destruct (N.eqb_spec x 88); [subst; vm_compute; tauto|].
  destruct (N.eqb_spec x 87); [subst; vm_compute; tauto|].
  discriminate.
Qed.

Lemma prefixed_first (c : char) (s : pystr) :
  re_match (Seq (Lit c) (Group pat_regular)) s = true ->
  exists t, s = c :: t.
Proof.
  destruct s as [|x t]; [discriminate|].
  unfold re_match. cbn -[N.eqb].
  destruct (N.eqb_spec x c); [subst; eauto | discriminate].
Qed.

Lemma regular_not_small (s : pystr) :
  re_match pat_regular s = true -> re_match pat_small s = false.
Proof.
  intros H. destruct (re_match pat_small s) eqn:E; [|reflexivity].
  apply regular_first in H as (x & t & -> & Hx).
  apply prefixed_first in E as (t' & E). injection E as -> _.
  vm_compute in Hx. intuition discriminate.
Qed.

Lemma regular_not_tiny (s : pystr) :
  re_match pat_regular s = true -> re_match pat_tiny s = false.
Proof.
  intros H. destruct (re_match pat_tiny s) eqn:E; [|reflexivity].
  apply regular_first in H as (x & t & -> & Hx).
  apply prefixed_first in E as (t' & E). injection E as -> _.
  vm_compute in Hx. intuition discriminate.
Qed.

Lemma small_not_tiny (s : pystr) :
  re_match pat_small s = true -> re_match pat_tiny s = false.
Proof.
  intros H. destruct (re_match pat_tiny s) eqn:E; [|reflexivity].
  apply prefixed_first in H as (t & ->).
  apply prefixed_first in E as (t' & E). discriminate.
Qed.

(** C1.  [alter_vdw] is a total function from the bead code and the
    current radius to a radius: on a code that the regular pattern
    matches it is 2.35, on one that the S-prefixed pattern matches 2.00,
    on one that the T-prefixed pattern matches 1.65, and on a code none of
    the three patterns matches it is the radius it was given. *)
Theorem alter_vdw_classifies (elem : pystr) (vdw : float) :
  (exists r : float, alter_vdw elem vdw = r) /\
  (re_match pat_regular elem = true -> alter_vdw elem vdw = 2.35%float) /\
  (re_match pat_small elem = true -> alter_vdw elem vdw = 2.00%float) /\
  (re_match pat_tiny elem = true -> alter_vdw elem vdw = 1.65%float) /\
  (re_match pat_regular elem = false ->
   re_match pat_small elem = false ->
   re_match pat_tiny elem = false ->
   alter_vdw elem vdw = vdw).
Proof.
  change (alter_vdw elem vdw) with
    (if re_match pat_regular elem then 2.35%float
     else if re_match pat_small elem then 2.00%float
     else if re_match pat_tiny elem then 1.65%float
     else vdw).
  split; [eexists; reflexivity|].
  split; [intros H; now rewrite H|].
  split.
  { intros H. destruct (re_match pat_regular elem) eqn:R.
    - apply regular_not_small in R. congruence.
    - now rewrite H. }
  split.
  { intros H. destruct (re_match pat_regular elem) eqn:R.
    - apply regular_not_tiny in R. congruence.
    - destruct (re_match pat_small elem) eqn:S.
      + apply small_not_tiny in S. congruence.
      + now rewrite H. }
  intros R S T. now rewrite R, S, T.
Qed.

Lemma at_most_one_rule (elem : pystr) :
  List.length (matching vdw_patterns elem) <= 1.
Proof.
  unfold matching, vdw_patterns. cbn [filter fst].
  destruct (re_match pat_regular elem) eqn:R.
  - rewrite (regular_not_small _ R), (regular_not_tiny _ R). simpl. lia.
  - destruct (re_match pat_small elem) eqn:S.
    + rewrite (small_not_tiny _ S). simpl. lia.
    + destruct (re_match pat_tiny elem); simpl; lia.
Qed.

Lemma matching_cons_true rule rules elem :
  re_match (fst rule) elem = true ->
  matching (rule :: rules) elem = rule :: matching rules elem.
Proof. intros H. unfold matching. simpl. now rewrite H. Qed.

Lemma matching_cons_false rule rules elem :
  re_match (fst rule) elem = false ->
  matching (rule :: rules) elem = matching rules elem.
Proof. intros H. unfold matching. simpl. now rewrite H. Qed.

(** The loop returns the radius of the first matching rule. *)
Lemma first_radius_matching (rules : list (regex * float)) elem vdw :
  first_radius rules elem vdw =
  match matching rules elem with
  | [] => vdw
  | rule :: _ => snd rule
  end.
Proof.
  induction rules as [|[p r] rules IH]; [reflexivity|].
  change (first_radius ((p, r) :: rules) elem vdw) with
    (if re_match p elem then r else first_radius rules elem vdw).
  destruct (re_match p elem) eqn:E.
  - now rewrite matching_cons_true.
  - now rewrite matching_cons_false.
Qed.

Lemma matching_perm rules rules' elem :
  Permutation rules rules' ->
  Permutation (matching rules elem) (matching rules' elem).
Proof.
  induction 1 as [|x l l' _ IH|x y l|l l' l'' _ IH1 _ IH2].
  - constructor.
  - unfold matching in *. simpl.
    destruct (re_match (fst x) elem); [now constructor | assumption].
  - unfold matching. simpl.
    destruct (re_match (fst x) elem), (re_match (fst y) elem);
      try apply Permutation_refl.
    apply perm_swap.
  - eapply Permutation_trans; eassumption.
Qed.

(** C10.  At most one of the three rules matches a bead code, so the
    loop over the rules taken in any order returns what it returns in the
    order of the code. *)
Theorem rule_order_irrelevant (rules : list (regex * float))
        (elem : pystr) (vdw : float) :
  Permutation vdw_patterns rules ->
  List.length (matching vdw_patterns elem) <= 1 /\
  first_radius rules elem vdw = alter_vdw elem vdw.
Proof.
  intros P. split; [apply at_most_one_rule|].
  unfold alter_vdw. rewrite !first_radius_matching.
  pose proof (at_most_one_rule elem) as L.
  pose proof (matching_perm _ _ elem P) as Q.
  destruct (matching vdw_patterns elem) as [|a [|b m]].
  - apply Permutation_nil in Q. now rewrite Q.
  - apply Permutation_length_1_inv in Q. now rewrite Q.
  - simpl in L. lia.
Qed.

End ClassifierFacts.

(** ** The effect monad *)

Lemma bind_ext {S A B} (c : St S A) (k k' : A -> St S B) :
  (forall a w, k a w = k' a w) -> forall w, bind c k w = bind c k' w.
Proof.
  intros H w. unfold bind. destruct (c w) as [[a|e] w']; [apply H|reflexivity].
Qed.

(** Two continuations that agree on the states reachable from states
    satisfying an invariant of [c] give the same call. *)
Lemma bind_ext_inv {S A B} (P : S -> Prop) (c : St S A) (k k' : A -> St S B) :
  (forall w, P w -> P (snd (c w))) ->
  (forall a w, P w -> k a w = k' a w) ->
  forall w, P w -> bind c k w = bind c k' w.
Proof.
  intros Hc Hk w Hw. unfold bind. specialize (Hc w Hw).
  destruct (c w) as [[a|e] w']; [apply Hk; exact Hc|reflexivity].
Qed.

Lemma bind_ret_tt {S} (c : St S unit) (w : S) : (c ;; ret tt) w = c w.
Proof.
  unfold bind, ret. destruct (c w) as [[[]|e] w']; reflexivity.
Qed.

Lemma for_each_ext {S A} (l : list A) (b b' : A -> St S unit) :
  (forall x w, b x w = b' x w) -> forall w, for_each l b w = for_each l b' w.
Proof.
  intros H. induction l as [|x l IH]; intros w; [reflexivity|].
  simpl. unfold bind. rewrite H.
  destruct (b' x w) as [[a|e] w']; [apply IH|reflexivity].
Qed.

Lemma for_each_map {S A B} (f : A -> B) (l : list A) (b : B -> St S unit) :
  forall w, for_each (List.map f l) b w = for_each l (fun x => b (f x)) w.
Proof.
  induction l as [|x l IH]; intros w; [reflexivity|].
  simpl. apply bind_ext. intros _ w'. apply IH.
Qed.

Lemma keeps_ret {A} (a : A) : keeps_st (ret a).
Proof. intros w. reflexivity. Qed.

Lemma keeps_raise {A} (e : exn) : keeps_st (@raise world A e).
Proof. intros w. reflexivity. Qed.

Lemma keeps_bind {A B} (c : M A) (k : A -> M B) :
  keeps_st c -> (forall a, keeps_st (k a)) -> keeps_st (bind c k).
Proof.
  intros Hc Hk w. unfold bind. specialize (Hc w).
  destruct (c w) as [[a|e] w']; simpl in *; [|exact Hc].
  rewrite Hk. exact Hc.
Qed.

Lemma keeps_for_each {A} (l : list A) (b : A -> M unit) :
  (forall x, keeps_st (b x)) -> keeps_st (for_each l b).
Proof.
  intros H. induction l as [|x l IH]; simpl.
  - apply keeps_ret.
  - apply keeps_bind; [apply H | intros _; exact IH].
Qed.

Lemma keeps_get_host : keeps_st get_host.
Proof. intros w. reflexivity. Qed.

Lemma keeps_put_host h : keeps_st (put_host h).
Proof. intros w. reflexivity. Qed.

Lemma keeps_stored_attr {A} name (field : stored -> option A) :
  keeps_st (stored_attr name field).
Proof. intros w. unfold stored_attr. destruct (field (st w)); reflexivity. Qed.

Create HintDb keeps.
#[local] Hint Resolve keeps_ret keeps_raise keeps_get_host keeps_put_host
  keeps_stored_attr : keeps.

Ltac keeps :=
  repeat first
    [ progress auto with keeps
    | apply keeps_bind
    | apply keeps_for_each
    | intro ].

Lemma keeps_log_call c : keeps_st (log_call c).
Proof. unfold log_call. keeps. Qed.

Lemma keeps_put_atoms l : keeps_st (put_atoms l).
Proof. unfold put_atoms. keeps. Qed.

Lemma keeps_put_selections s : keeps_st (put_selections s).
Proof. unfold put_selections. keeps. Qed.

#[local] Hint Resolve keeps_log_call keeps_put_atoms keeps_put_selections : keeps.

Lemma keeps_cmd_sync : keeps_st cmd_sync.
Proof. unfold cmd_sync. keeps. Qed.

Lemma keeps_cmd_deselect : keeps_st cmd_deselect.
Proof. unfold cmd_deselect. keeps. Qed.

Lemma keeps_cmd_set name value : keeps_st (cmd_set name value).
Proof. unfold cmd_set. keeps. Qed.

#[local] Hint Resolve keeps_cmd_sync keeps_cmd_deselect keeps_cmd_set : keeps.

(** ** Altering the atoms of a selection *)

Lemma alter_atoms_ok (member : nat -> bool) (f : atom -> result atom)
      (g : atom -> atom) (l : list atom) :
  forall i,
    (forall j a, nth_error l j = Some a -> member (i + j) = true ->
                 f a = Ok (g a)) ->
    snd (alter_atoms member f i l) = None /\
    forall j, nth_error (fst (alter_atoms member f i l)) j =
              option_map (fun a => if member (i + j) then g a else a)
                         (nth_error l j).
Proof.
  induction l as [|a l IH]; intros i H.
  - split; [reflexivity|]. intros [|j]; reflexivity.
  - assert (H' : forall j b, nth_error l j = Some b ->
                             member (S i + j) = true -> f b = Ok (g b)).
    { intros j b Hj Hm. apply (H (S j)); [exact Hj|].
      now rewrite Nat.add_succ_r. }
    destruct (IH (S i) H') as [E N].
    cbn [alter_atoms].
    destruct (member i) eqn:Mi.
    + rewrite (H 0 a eq_refl) by (now rewrite Nat.add_0_r).
      destruct (alter_atoms member f (S i) l) as [t' e]. simpl in *.
      split; [exact E|].
      intros [|j]; simpl.
      * now rewrite Nat.add_0_r, Mi.
      * rewrite N. now rewrite Nat.add_succ_r.
    + destruct (alter_atoms member f (S i) l) as [t' e]. simpl in *.
      split; [exact E|].
      intros [|j]; simpl.
      * now rewrite Nat.add_0_r, Mi.
      * rewrite N. now rewrite Nat.add_succ_r.
Qed.

(** ** The calls a program makes *)

Lemma logs_eq {A} (c : M A) (l l' : list call) :
  logs c l -> l = l' -> logs c l'.
Proof. now intros H <-. Qed.

Lemma logs_ret {A} (a : A) : logs (ret a) [].
Proof.
  intros w b w' H. injection H as _ <-. now rewrite app_nil_r.
Qed.

Lemma logs_raise {A} (e : exn) (l : list call) : logs (@raise world A e) l.
Proof. intros w a w' H. discriminate. Qed.

Lemma logs_bind {A B} (c : M A) (k : A -> M B) (l1 l2 : list call) :
  logs c l1 -> (forall a, logs (k a) l2) -> logs (bind c k) (l1 ++ l2).
Proof.
  intros Hc Hk w b w' H. unfold bind in H.
  destruct (c w) as [[a|e] w1] eqn:E; [|discriminate].
  rewrite (Hk a _ _ _ H), (Hc _ _ _ E). now rewrite app_assoc.
Qed.

Lemma logs_for_each {A} (l : list A) (b : A -> M unit)
      (f : A -> list call) :
  (forall x, logs (b x) (f x)) -> logs (for_each l b) (flat_map f l).
Proof.
  intros H. induction l as [|x l IH]; simpl.
  - apply logs_ret.
  - apply logs_bind; [apply H|intros _; exact IH].
Qed.

Lemma logs_quiet {A} (c : M A) :
  (forall w, h_log (host (snd (c w))) = h_log (host w)) -> logs c [].
Proof.
  intros H w a w' E. rewrite app_nil_r, <- (H w), E. reflexivity.
Qed.

Lemma logs_get_host : logs get_host [].
Proof. apply logs_quiet. reflexivity. Qed.

Lemma logs_get_stored : logs get_stored [].
Proof. apply logs_quiet. reflexivity. Qed.

Lemma logs_put_stored s : logs (put_stored s) [].
Proof. apply logs_quiet. reflexivity. Qed.

Lemma logs_stored_attr {A} name (field : stored -> option A) :
  logs (stored_attr name field) [].
Proof.
  apply logs_quiet. intros w. unfold stored_attr.
  now destruct (field (st w)).
Qed.

Lemma logs_random_choice seq : logs (random_choice seq) [].
Proof. apply logs_quiet. intros w. now destruct seq. Qed.

Lemma logs_log_call c : logs (log_call c) [c].
Proof. intros w a w' H. injection H as _ <-. reflexivity. Qed.

Lemma logs_put_atoms l : logs (put_atoms l) [].
Proof. apply logs_quiet. reflexivity. Qed.

Lemma logs_put_selections s : logs (put_selections s) [].
Proof. apply logs_quiet. reflexivity. Qed.

Lemma logs_set_tmp_dict d : logs (set_tmp_dict d) [].
Proof. apply logs_quiet. reflexivity. Qed.

Lemma logs_iterate_atoms member body l :
  (forall a, logs (body a) []) ->
  forall i, logs (iterate_atoms member body i l) [].
Proof.
  intros H. induction l as [|a l IH]; intros i; simpl.
  - apply logs_ret.
  - apply (logs_bind _ _ [] []); [|intros _; apply IH].
    destruct (member i); [apply H|apply logs_ret].
Qed.

Create HintDb logs.
#[local] Hint Resolve logs_ret logs_raise logs_get_host logs_get_stored
  logs_put_stored logs_stored_attr logs_random_choice logs_log_call
  logs_put_atoms logs_put_selections logs_set_tmp_dict : logs.

(** Splits a sequence of calls and closes the primitive ones. *)
Ltac logs :=
  repeat first
    [ match goal with |- forall _, logs _ _ => intro end
    | solve [eauto with logs]
    | eapply logs_bind ].

Lemma logs_cmd_sync : logs cmd_sync [c_sync].
Proof. apply logs_log_call. Qed.

Lemma logs_cmd_deselect : logs cmd_deselect [c_deselect].
Proof. apply logs_log_call. Qed.

Lemma logs_cmd_recolor : logs cmd_recolor [c_recolor].
Proof. apply logs_log_call. Qed.

Lemma logs_cmd_set name value : logs (cmd_set name value) [c_set name value].
Proof.
  eapply logs_eq; [unfold cmd_set; eapply logs_bind; [apply logs_log_call|]|].
  - intros _. apply logs_quiet. reflexivity.
  - reflexivity.
Qed.

#[local] Hint Resolve logs_cmd_sync logs_cmd_deselect logs_cmd_recolor
  logs_cmd_set : logs.

(** ** The preset engine *)

Section StirFacts.

Variable word_char : char -> bool.
Variable digit_char : char -> bool.
Variable sel_eval : list atom -> dict (list nat) -> pystr -> option (list nat).
Variable attr_eval : pystr -> atom -> option pystr.

Abbreviation resolve := (resolve sel_eval).
Abbreviation cmd_select := (cmd_select sel_eval).
Abbreviation cmd_alter := (cmd_alter sel_eval).
Abbreviation cmd_iterate := (cmd_iterate sel_eval).
Abbreviation mt_sele := (mt_sele sel_eval).
Abbreviation mt_color := (mt_color sel_eval attr_eval).
Abbreviation set_vdw := (set_vdw word_char digit_char sel_eval).
Abbreviation call_command := (call_command sel_eval attr_eval).
Abbreviation apply_rule := (apply_rule sel_eval attr_eval).
Abbreviation mt_nice := (mt_nice word_char digit_char sel_eval attr_eval).
Abbreviation preset_steps :=
  (preset_steps word_char digit_char sel_eval attr_eval).

Lemma keeps_resolve s : keeps_st (resolve s).
Proof.
  intros w. unfold resolve, bind, get_host.
  destruct (sel_eval _ _ s); reflexivity.
Qed.

#[local] Hint Resolve keeps_resolve : keeps.

Lemma keeps_cmd_select name logic : keeps_st (cmd_select name logic).
Proof. unfold cmd_select. keeps. Qed.

Lemma keeps_cmd_alter s e f : keeps_st (cmd_alter s e f).
Proof.
  unfold cmd_alter. keeps.
  destruct (alter_atoms _ _ _ _) as [l [e'|]]; keeps.
Qed.

#[local] Hint Resolve keeps_cmd_select keeps_cmd_alter : keeps.

Lemma keeps_set_vdw s : keeps_st (set_vdw s).
Proof. unfold set_vdw. keeps. Qed.

Lemma keeps_mt_sele_default : keeps_st (mt_sele None).
Proof. unfold mt_sele. keeps. Qed.

Lemma logs_resolve s : logs (resolve s) [].
Proof.
  apply logs_quiet. intros w. unfold resolve, bind, get_host.
  now destruct (sel_eval _ _ s).
Qed.

#[local] Hint Resolve logs_resolve : logs.

Lemma logs_cmd_select name logic :
  logs (cmd_select name logic) [c_select name logic].
Proof. eapply logs_eq; [unfold cmd_select; logs|reflexivity]. Qed.

Lemma logs_cmd_alter s e f : logs (cmd_alter s e f) [c_alter s e].
Proof.
  unfold cmd_alter. eapply logs_eq.
  - logs. destruct (alter_atoms _ _ _ _) as [l [e'|]]; logs.
  - reflexivity.
Qed.

Lemma logs_cmd_iterate s e body :
  (forall a, logs (body a) []) -> logs (cmd_iterate s e body) [c_iterate s e].
Proof.
  intros H. unfold cmd_iterate. eapply logs_eq.
  - logs. now apply logs_iterate_atoms.
  - reflexivity.
Qed.

Lemma logs_cmd_color color s : logs (cmd_color sel_eval color s) [c_color color s].
Proof.
  unfold cmd_color. eapply logs_eq.
  - logs. destruct (color_index _ _); logs.
  - reflexivity.
Qed.

Lemma logs_cmd_show_as rep s :
  logs (cmd_show_as sel_eval rep s) [c_show_as rep s].
Proof. eapply logs_eq; [unfold cmd_show_as; logs|reflexivity]. Qed.

Lemma logs_cmd_hide rep s : logs (cmd_hide sel_eval rep s) [c_hide rep s].
Proof. eapply logs_eq; [unfold cmd_hide; logs|reflexivity]. Qed.

#[local] Hint Resolve logs_cmd_select logs_cmd_alter logs_cmd_color
  logs_cmd_show_as logs_cmd_hide : logs.

Lemma logs_mt_color method s :
  logs (mt_color method s) (rule_calls s (Some (f_mt_color, [method]))).
Proof.
  unfold mt_color. eapply logs_eq.
  - eapply logs_bind; [apply logs_set_tmp_dict|intros _].
    eapply logs_bind.
    + apply logs_cmd_iterate. intros a. eapply logs_eq.
      * logs. destruct (attr_eval method a); logs.
      * reflexivity.
    + intros _. logs.
  - reflexivity.
Qed.

Lemma logs_set_vdw s :
  logs (set_vdw s) [c_alter s (py "vdw=stored.alter_vdw(elem, vdw)"); c_sync].
Proof. eapply logs_eq; [unfold set_vdw; logs|reflexivity]. Qed.

Lemma logs_apply_rule scope c : logs (apply_rule scope c) (rule_calls scope c).
Proof.
  destruct c as [[f args]|]; [|apply logs_ret].
  destruct f, args as [|x [|y args]];
    try apply logs_raise; cbn [rule_calls apply_rule call_command].
  - apply logs_mt_color.
  - apply logs_cmd_color.
  - apply logs_cmd_show_as.
  - apply logs_cmd_hide.
Qed.

(** The calls of [mt_sele()] with the registry in place. *)
Lemma mt_sele_calls (w w' : world) (a : unit) :
  mt_selectors (st w) = Some selectors ->
  mt_sele None w = (Ok a, w') ->
  h_log (host w') =
  h_log (host w)
  ++ List.map (fun item => c_select (fst item) (snd item)) selectors
  ++ [c_sync; c_deselect; c_sync].
Proof.
  intros H E.
  assert (R : mt_sele None w =
              (for_each selectors (fun item => cmd_select (fst item) (snd item)) ;;
               cmd_sync ;; cmd_deselect ;; cmd_sync) w).
  { unfold mt_sele, bind, stored_attr. rewrite H. reflexivity. }
  rewrite R in E. revert E. generalize w a w'.
  change (logs (for_each selectors
                  (fun item => cmd_select (fst item) (snd item)) ;;
                cmd_sync ;; cmd_deselect ;; cmd_sync)
               (List.map (fun item => c_select (fst item) (snd item)) selectors
                ++ [c_sync; c_deselect; c_sync])).
  eapply logs_eq.
  - eapply logs_bind.
    + apply (logs_for_each _ _ (fun item => [c_select (fst item) (snd item)])).
      intros x. apply logs_cmd_select.
    + intros _. logs.
  - reflexivity.
Qed.

(** What [set_vdw] does to the atoms: each atom of the selection takes the
    radius the classifier gives its bead code, the others keep theirs. *)
Lemma set_vdw_radii (selection : pystr) (w : world) (m : list nat) :
  sel_eval (h_atoms (host w)) (h_selections (host w)) selection = Some m ->
  exists w',
    set_vdw selection w = (Ok tt, w') /\
    forall j,
      nth_error (h_atoms (host w')) j =
      option_map
        (fun a =>
           if mem_index m j
           then with_vdw a (alter_vdw word_char digit_char (a_elem a) (a_vdw a))
           else a)
        (nth_error (h_atoms (host w)) j).
Proof.
  destruct w as [[atoms sels settings cols log] s r out].
  cbn [host h_atoms h_selections]. intros Hs.
  set (g := fun a => with_vdw a (alter_vdw word_char digit_char
                                   (a_elem a) (a_vdw a))).
  destruct (alter_atoms_ok (mem_index m) (fun a => Ok (g a)) g atoms 0
              (fun _ _ _ _ => eq_refl)) as [E N].
  exists (mk_world
            (mk_pymol (fst (alter_atoms (mem_index m) (fun a => Ok (g a)) 0 atoms))
               sels settings cols
               ((log ++ [c_alter selection
                           (py "vdw=stored.alter_vdw(elem, vdw)")])
                ++ [c_sync]))
            s r out).
  split.
  - unfold set_vdw, cmd_alter, cmd_sync, log_call, resolve, put_atoms,
      bind, get_host, put_host, ret.
    cbn [host st rng stdout h_atoms h_selections h_settings h_colors h_log].
    rewrite Hs.
    cbn [host st rng stdout h_atoms h_selections h_settings h_colors h_log].
    change (fun a : atom =>
              Ok (with_vdw a (alter_vdw word_char digit_char
                                (a_elem a) (a_vdw a))))
      with (fun a : atom => @Ok atom (g a)).
    destruct (alter_atoms (mem_index m) (fun a => Ok (g a)) 0 atoms)
      as [atoms' e].
    cbn [fst snd] in *. subst e.
    cbn [host st rng stdout h_atoms h_selections h_settings h_colors h_log].
    reflexivity.
  - cbn [host h_atoms]. exact N.
Qed.

Lemma valid_style_cases (style : pystr) :
  existsb (str_eqb style) valid_styles = true <->
  style = py "clean" \/ style = py "rainbow" \/ style = py "balls".
Proof.
  unfold valid_styles. cbn [existsb]. rewrite !orb_true_iff, !str_eqb_eq.
  intuition discriminate.
Qed.

(** C2.  On a style outside clean, rainbow and balls, [mt_nice] prints
    its error line and returns; the host (atoms, selections, settings,
    colors, the calls it received) and [pymol.stored] are what they were. *)
Theorem mt_nice_invalid_style (style selection : pystr) (w : world) :
  ~ In style valid_styles ->
  mt_nice style selection w =
  (Ok tt,
   mk_world (host w) (st w) (rng w)
     (stdout w ++ [py "Error: " ++ style
                   ++ py " is not a valid option. See help mt_nice"])).
Proof.
  intros H. unfold mt_nice.
  destruct (existsb (str_eqb style) valid_styles) eqn:E.
  - exfalso. apply H. apply valid_style_cases in E.
    unfold valid_styles. simpl. intuition.
  - reflexivity.
Qed.

(** The groups of each preset are those of the registry, in its order,
    each with its two rules. *)
Lemma preset_groups (style : pystr) :
  In style valid_styles ->
  dict_get nice_set style =
  Some (List.map
          (fun group =>
             (group, entry (rule_of style group (py "color_method"))
                           (rule_of style group (py "style"))))
          (dict_keys selectors)).
Proof.
  unfold valid_styles. simpl.
  intros [<-|[<-|[<-|[]]]]; vm_compute; reflexivity.
Qed.

Lemma entry_rules (scope : pystr) (c s : command) (w : world) :
  for_each (dict_values (entry c s)) (apply_rule scope) w =
  (apply_rule scope c ;; apply_rule scope s) w.
Proof.
  unfold entry, dict_values. simpl. apply bind_ext.
  intros _ w'. apply bind_ret_tt.
Qed.

(** The calls of the steps of the specification, when they all succeed. *)
Lemma preset_steps_calls (style selection : pystr) (w w' : world) :
  mt_selectors (st w) = Some selectors ->
  preset_steps style selection w = (Ok tt, w') ->
  h_log (host w') = h_log (host w) ++ preset_calls style selection.
Proof.
  intros H E. unfold preset_steps in E. unfold bind at 1 in E.
  destruct (mt_sele None w) as [[a|e] w1] eqn:E1; [|discriminate].
  assert (L : logs
                (cmd_set (py "stick_radius") 0.7%float ;;
                 cmd_sync ;;
                 set_vdw selection ;;
                 cmd_sync ;;
                 for_each (dict_keys selectors)
                   (fun group =>
                      apply_rule (selection ++ py " and " ++ group)
                        (rule_of style group (py "color_method")) ;;
                      apply_rule (selection ++ py " and " ++ group)
                        (rule_of style group (py "style"))))
                ([ c_set (py "stick_radius") 0.7%float; c_sync;
                   c_alter selection (py "vdw=stored.alter_vdw(elem, vdw)");
                   c_sync; c_sync ]
                 ++ flat_map
                      (fun group =>
                         rule_calls (selection ++ py " and " ++ group)
                           (rule_of style group (py "color_method"))
                         ++ rule_calls (selection ++ py " and " ++ group)
                              (rule_of style group (py "style")))
                      (dict_keys selectors))).
  { eapply logs_eq.
    - eapply logs_bind; [apply logs_cmd_set|intros _].
      eapply logs_bind; [apply logs_cmd_sync|intros _].
      eapply logs_bind; [apply logs_set_vdw|intros _].
      eapply logs_bind; [apply logs_cmd_sync|intros _].
      apply (logs_for_each _ _
               (fun group =>
                  rule_calls (selection ++ py " and " ++ group)
                    (rule_of style group (py "color_method"))
                  ++ rule_calls (selection ++ py " and " ++ group)
                       (rule_of style group (py "style")))).
      intros group. apply logs_bind; [apply logs_apply_rule|].
      intros _. apply logs_apply_rule.
    - reflexivity. }
  rewrite (L _ _ _ E), (mt_sele_calls w w1 a H E1). unfold preset_calls.
  rewrite <- !app_assoc. reflexivity.
Qed.


End StirFacts.

(** ** Dictionaries *)

Lemma dict_get_set_same {V} (d : dict V) (k : pystr) (v : V) :
  dict_get (dict_set d k v) k = Some v.
Proof.
  induction d as [|[k' v'] d IH]; simpl.
  - now rewrite str_eqb_refl.
  - destruct (str_eqb k' k) eqn:E; simpl; rewrite E; [reflexivity|exact IH].
Qed.

Lemma dict_get_set_other {V} (d : dict V) (k k' : pystr) (v : V) :
  k <> k' -> dict_get (dict_set d k v) k' = dict_get d k'.
Proof.
  intros N. induction d as [|[k0 v0] d IH]; simpl.
  - apply str_eqb_neq in N. now rewrite N.
  - destruct (str_eqb k0 k) eqn:E; simpl.
    + apply str_eqb_eq in E. subst k0.
      apply str_eqb_neq in N. now rewrite N.
    + destruct (str_eqb k0 k'); [reflexivity|exact IH].
Qed.

Lemma dict_set_same {V} (d : dict V) (k : pystr) (v : V) :
  dict_get d k = Some v -> dict_set d k v = d.
Proof.
  induction d as [|[k' v'] d IH]; simpl; [discriminate|].
  destruct (str_eqb k' k) eqn:E.
  - intros H. injection H as ->. reflexivity.
  - intros H. now rewrite IH.
Qed.

Lemma with_color_same (a : atom) : with_color a (a_color a) = a.
Proof. destruct a; reflexivity. Qed.

(** ** The host's loops over the atoms of a selection *)

Lemma alter_atoms_recolored (member : nat -> bool) (f : atom -> result atom)
      (l : list atom) :
  (forall a a', f a = Ok a' -> exists c, a' = with_color a c) ->
  forall i, recolored l (fst (alter_atoms member f i l)).
Proof.
  intros H. induction l as [|a l IH]; intros i; cbn [alter_atoms].
  - constructor.
  - assert (R : forall t, recolored t t).
    { induction t as [|b t IHt]; constructor; [|exact IHt].
      exists (a_color b). now rewrite with_color_same. }
    specialize (IH (S i)).
    destruct (member i).
    + destruct (f a) as [a'|e] eqn:F.
      * destruct (alter_atoms member f (S i) l) as [t' e]. simpl in *.
        constructor; [now apply H|exact IH].
      * simpl. apply R.
    + destruct (alter_atoms member f (S i) l) as [t' e]. simpl in *.
      constructor; [|exact IH].
      exists (a_color a). now rewrite with_color_same.
Qed.

Lemma recolored_nth (l l' : list atom) (j : nat) (a' : atom) :
  recolored l l' -> nth_error l' j = Some a' ->
  exists a c, nth_error l j = Some a /\ a' = with_color a c.
Proof.
  intros R. revert j. induction R as [|a b l l' [c ->] _ IH]; intros j.
  - destruct j; discriminate.
  - destruct j as [|j]; simpl.
    + intros E. injection E as <-. eauto.
    + apply IH.
Qed.

Lemma recolored_trans (l1 l2 l3 : list atom) :
  recolored l1 l2 -> recolored l2 l3 -> recolored l1 l3.
Proof.
  intros R. revert l3. induction R as [|a b l l' [c ->] _ IH]; intros l3 R'.
  - inversion R'. constructor.
  - inversion R' as [|x y t t' [c' ->] R'' ]; subst.
    constructor; [|now apply IH].
    exists c'. reflexivity.
Qed.

Lemma recolored_nth_fwd (l l' : list atom) (j : nat) (a : atom) :
  recolored l l' -> nth_error l j = Some a ->
  exists c, nth_error l' j = Some (with_color a c).
Proof.
  intros R. revert j. induction R as [|x y l l' [c ->] _ IH]; intros j.
  - destruct j; discriminate.
  - destruct j as [|j]; simpl.
    + intros E. injection E as <-. eauto.
    + apply IH.
Qed.

(** ** The color allocator *)

Lemma pick_in (pal : list Z) (n : nat) : pal <> [] -> In (pick pal n) pal.
Proof.
  intros H. unfold pick. apply nth_In.
  apply Nat.mod_upper_bound. destruct pal; [contradiction|discriminate].
Qed.

Lemma pick_position (pal : list Z) (p : nat) :
  p < List.length pal -> pick pal p = nth p pal (hd 0%Z pal).
Proof. intros H. unfold pick. now rewrite Nat.mod_small. Qed.

Lemma pick_at (pal : list Z) (c : Z) :
  In c pal -> exists p, p < List.length pal /\ pick pal p = c.
Proof.
  intros H. destruct (In_nth pal c (hd 0%Z pal) H) as (p & Hp & E).
  exists p. split; [exact Hp|]. now rewrite pick_position.
Qed.

Section AssignFacts.

Variable member : nat -> bool.
Variable key : atom -> option pystr.
Variable pal : list Z.

Abbreviation assign := (assign member key pal).

(** A key that has a color keeps having one. *)
Lemma assign_keeps (l : list atom) :
  forall r i d k,
    dict_get d k <> None -> dict_get (assign r i l d) k <> None.
Proof.
  induction l as [|a l IH]; intros r i d k H; simpl; [exact H|].
  destruct (member i); [|now apply IH].
  destruct (key a) as [k'|]; [|exact H].
  apply IH. destruct (list_eq_dec N.eq_dec k' k) as [->|N].
  - rewrite dict_get_set_same. discriminate.
  - now rewrite dict_get_set_other.
Qed.

(** Every atom of the selection has a color under its key. *)
Lemma assign_covers (l : list atom) :
  forall r i d j a k,
    (forall j a, nth_error l j = Some a -> member (i + j) = true ->
                 key a <> None) ->
    nth_error l j = Some a -> member (i + j) = true -> key a = Some k ->
    dict_get (assign r i l d) k <> None.
Proof.
  induction l as [|b l IH]; intros r i d j a k D Hj Hm Hk.
  - destruct j; discriminate.
  - assert (D' : forall j a, nth_error l j = Some a ->
                             member (S i + j) = true -> key a <> None).
    { intros j' a' E M. apply (D (S j')); [exact E|].
      now rewrite Nat.add_succ_r. }
    destruct j as [|j]; simpl in Hj.
    + injection Hj as ->. rewrite Nat.add_0_r in Hm.
      simpl. rewrite Hm, Hk. apply assign_keeps.
      rewrite dict_get_set_same. discriminate.
    + rewrite Nat.add_succ_r in Hm. simpl.
      destruct (member i) eqn:Mi.
      * destruct (key b) as [kb|] eqn:Kb.
        -- eapply IH; eauto.
        -- exfalso. apply (D 0 b eq_refl); [now rewrite Nat.add_0_r|exact Kb].
      * eapply IH; eauto.
Qed.

(** A color of the final dictionary was there at the start or is one of
    the draws made. *)
Lemma assign_values (l : list atom) :
  forall r i d k c,
    dict_get (assign r i l d) k = Some c ->
    dict_get d k = Some c \/
    exists n, n < count_sel member i l /\ c = pick pal (r n).
Proof.
  induction l as [|a l IH]; intros r i d k c H; simpl in *; [now left|].
  destruct (member i).
  - destruct (key a) as [k'|]; [|now left].
    apply IH in H as [H|(n & Hn & ->)].
    + destruct (list_eq_dec N.eq_dec k' k) as [->|N].
      * rewrite dict_get_set_same in H. injection H as <-.
        right. exists 0. split; [lia|reflexivity].
      * rewrite dict_get_set_other in H by exact N. now left.
    + right. exists (S n). split; [lia|reflexivity].
  - apply IH in H as [H|(n & Hn & ->)]; [now left|].
    right. exists n. split; [lia|reflexivity].
Qed.

End AssignFacts.

Section ColorFacts.

Variable sel_eval : list atom -> dict (list nat) -> pystr -> option (list nat).
Variable attr_eval : pystr -> atom -> option pystr.

Abbreviation mt_color := (mt_color sel_eval attr_eval).

(** The expression [iterate] runs on each atom of the selection. *)
Abbreviation draw method :=
  (fun a : atom =>
     palette <- stored_attr "mt_colors" mt_colors ;;
     c <- random_choice palette ;;
     d <- stored_attr "tmp_dict" tmp_dict ;;
     match attr_eval method a with
     | Some k => set_tmp_dict (dict_set d k c)
     | None => raise (NameError method)
     end).

Lemma iterate_run (method : pystr) (member : nat -> bool) (pal : list Z)
      (l : list atom) :
  pal <> [] ->
  forall i h ms mn d r out,
    (forall j a, nth_error l j = Some a -> member (i + j) = true ->
                 attr_eval method a <> None) ->
    iterate_atoms member (draw method) i l
      (mk_world h (mk_stored (Some pal) ms mn (Some d)) r out) =
    (Ok tt,
     mk_world h
       (mk_stored (Some pal) ms mn
          (Some (assign member (attr_eval method) pal r i l d)))
       (shift (count_sel member i l) r) out).
Proof.
  intros Hp. destruct pal as [|x t]; [contradiction|].
  induction l as [|a l IH]; intros i h ms mn d r out D.
  - reflexivity.
  - assert (D' : forall j b, nth_error l j = Some b ->
                             member (S i + j) = true ->
                             attr_eval method b <> None).
    { intros j b E M. apply (D (S j)); [exact E|].
      now rewrite Nat.add_succ_r. }
    cbn [iterate_atoms assign count_sel].
    destruct (member i) eqn:Mi.
    + destruct (attr_eval method a) as [k|] eqn:K.
      2:{ exfalso. apply (D 0 a eq_refl); [now rewrite Nat.add_0_r|exact K]. }
      unfold bind at 1. unfold bind at 1.
      unfold stored_attr at 1. cbn [st mt_colors].
      unfold bind at 1. unfold random_choice.
      unfold bind at 1. unfold stored_attr at 1. cbn [st tmp_dict].
      unfold set_tmp_dict, bind, get_stored, put_stored.
      cbn [st host rng stdout mt_colors mt_selectors mt_nice_set].
      exact (IH (S i) h ms mn _ _ out D').
    + unfold bind at 1. unfold ret at 1.
      exact (IH (S i) h ms mn d r out D').
Qed.

(** What a call of [mt_color] does when the palette is not empty, the host
    accepts the selection and the attribute has a value on each of its
    atoms. *)
Lemma mt_color_run (method selection : pystr) (w : world) (pal : list Z)
      (m : list nat) :
  mt_colors (st w) = Some pal ->
  pal <> [] ->
  sel_eval (h_atoms (host w)) (h_selections (host w)) selection = Some m ->
  (forall i a, mem_index m i = true ->
               nth_error (h_atoms (host w)) i = Some a ->
               attr_eval method a <> None) ->
  exists atoms',
    mt_color method selection w =
    (Ok tt,
     mk_world
       (mk_pymol atoms' (h_selections (host w)) (h_settings (host w))
          (h_colors (host w))
          (h_log (host w) ++
           [c_iterate selection
              (py "stored.tmp_dict[" ++ method
               ++ py "] = stored.r_choice(stored.mt_colors)")] ++
           [c_alter selection
              (py "color = stored.tmp_dict[" ++ method ++ py "]")] ++
           [c_sync] ++ [c_recolor] ++ [c_sync]))
       (mk_stored (Some pal) (mt_selectors (st w)) (mt_nice_set (st w))
                  (Some []))
       (shift (count_sel (mem_index m) 0 (h_atoms (host w))) (rng w))
       (stdout w)) /\
    recolored (h_atoms (host w)) atoms' /\
    forall j,
      nth_error atoms' j =
      option_map
        (fun a =>
           if mem_index m j
           then with_color a
                  (color_of (attr_eval method)
                     (assign (mem_index m) (attr_eval method) pal (rng w) 0
                             (h_atoms (host w)) [])
                     a)
           else a)
        (nth_error (h_atoms (host w)) j).
Proof.
  destruct w as [[atoms sels settings cols log] [mc ms mn td] r out].
  cbn [host st rng stdout h_atoms h_selections h_settings h_colors h_log
       mt_colors mt_selectors mt_nice_set].
  intros -> Hp Hs D.
  set (key := attr_eval method).
  set (D0 := assign (mem_index m) key pal r 0 atoms []).
  set (f := fun a : atom =>
              match key a with
              | Some k =>
                  match dict_get D0 k with
                  | Some c => Ok (with_color a c)
                  | None => Raise (KeyError k)
                  end
              | None => Raise (NameError method)
              end).
  assert (F : forall j a, nth_error atoms j = Some a ->
                          mem_index m (0 + j) = true ->
                          f a = Ok (with_color a (color_of key D0 a))).
  { intros j a Hj Hm. unfold f, color_of, key.
    destruct (attr_eval method a) as [k|] eqn:K.
    - assert (C : dict_get D0 k <> None).
      { unfold D0. eapply assign_covers with (j := j) (a := a); eauto. }
      destruct (dict_get D0 k); [reflexivity|contradiction].
    - exfalso. apply (D j a); assumption. }
  destruct (alter_atoms_ok (mem_index m) f _ atoms 0 F) as [E N].
  exists (fst (alter_atoms (mem_index m) f 0 atoms)).
  split; [|split].
  - unfold mt_color.
    unfold bind at 1. unfold set_tmp_dict at 1.
    unfold bind at 1, get_stored, put_stored.
    cbn [st host rng stdout mt_colors mt_selectors mt_nice_set].
    unfold bind at 1. unfold cmd_iterate.
    unfold bind at 1. unfold log_call at 1.
    unfold bind at 1, get_host, put_host.
    cbn [st host rng stdout h_atoms h_selections h_settings h_colors h_log].
    unfold bind at 1. unfold resolve at 1.
    unfold bind at 1, get_host.
    cbn [st host rng stdout h_atoms h_selections h_settings h_colors h_log].
    rewrite Hs. unfold ret at 1. unfold bind at 1.
    cbn [st host rng stdout h_atoms h_selections h_settings h_colors h_log].
    rewrite (iterate_run method (mem_index m) pal atoms Hp 0 _ ms mn [] r out)
      by (intros j a Hj Hm; apply (D j a); assumption).
    fold key. fold D0.
    unfold bind at 1. unfold stored_attr at 1. cbn [st tmp_dict].
    unfold bind at 1. unfold cmd_alter.
    unfold bind at 1. unfold log_call at 1.
    unfold bind at 1, get_host, put_host.
    cbn [st host rng stdout h_atoms h_selections h_settings h_colors h_log].
    unfold bind at 1. unfold resolve at 1.
    unfold bind at 1, get_host.
    cbn [st host rng stdout h_atoms h_selections h_settings h_colors h_log].
    rewrite Hs. unfold ret at 1. unfold bind at 1.
    cbn [st host rng stdout h_atoms h_selections h_settings h_colors h_log].
    fold f.
    destruct (alter_atoms (mem_index m) f 0 atoms) as [atoms' e].
    cbn [fst snd] in *. subst e.
    unfold cmd_sync, cmd_recolor, log_call, set_tmp_dict, put_atoms,
      bind, get_host, put_host, get_stored, put_stored, ret.
    cbn [st host rng stdout h_atoms h_selections h_settings h_colors h_log
         mt_colors mt_selectors mt_nice_set].
    rewrite <- !app_assoc. reflexivity.
  - apply alter_atoms_recolored. intros a a'. unfold f.
    destruct (key a) as [k|]; [|discriminate].
    destruct (dict_get D0 k); [|discriminate].
    intros H. injection H as <-. eauto.
  - exact N.
Qed.

(** The colors after a call: the atoms of the selection carry one of the
    draws of the call, the same one for the same key. *)
Lemma mt_color_colors (method selection : pystr) (w : world) (pal : list Z)
      (m : list nat) :
  mt_colors (st w) = Some pal ->
  pal <> [] ->
  sel_eval (h_atoms (host w)) (h_selections (host w)) selection = Some m ->
  (forall i a, mem_index m i = true ->
               nth_error (h_atoms (host w)) i = Some a ->
               attr_eval method a <> None) ->
  exists w1,
    mt_color method selection w = (Ok tt, w1) /\
    tmp_dict (st w1) = Some [] /\
    mt_colors (st w1) = Some pal /\
    h_selections (host w1) = h_selections (host w) /\
    rng w1 = shift (count_sel (mem_index m) 0 (h_atoms (host w))) (rng w) /\
    recolored (h_atoms (host w)) (h_atoms (host w1)) /\
    forall i a,
      mem_index m i = true -> nth_error (h_atoms (host w)) i = Some a ->
      (exists n, n < count_sel (mem_index m) 0 (h_atoms (host w)) /\
                 color_at w1 i = Some (pick pal (rng w n))) /\
      forall j b,
        mem_index m j = true -> nth_error (h_atoms (host w)) j = Some b ->
        attr_eval method a = attr_eval method b ->
        color_at w1 j = color_at w1 i.
Proof.
  intros Hc Hp Hs D.
  destruct (mt_color_run method selection w pal m Hc Hp Hs D)
    as (atoms' & E & R & N).
  eexists. split; [exact E|].
  cbn [st host rng tmp_dict mt_colors h_selections h_atoms].
  repeat (split; [reflexivity|]). split; [exact R|].
  intros i a Mi Ai.
  assert (Ci : forall j b, mem_index m j = true ->
                 nth_error (h_atoms (host w)) j = Some b ->
                 option_map a_color (nth_error atoms' j) =
                 Some (color_of (attr_eval method)
                         (assign (mem_index m) (attr_eval method) pal (rng w) 0
                                 (h_atoms (host w)) []) b)).
  { intros j b Mj Bj. rewrite N, Bj. cbn [option_map]. now rewrite Mj. }
  unfold color_at. cbn [host h_atoms]. split.
  - rewrite (Ci i a Mi Ai). unfold color_of.
    destruct (attr_eval method a) as [k|] eqn:K.
    2:{ exfalso. exact (D i a Mi Ai K). }
    pose proof (assign_covers (mem_index m) (attr_eval method) pal
                  (h_atoms (host w)) (rng w) 0 [] i a k) as C.
    specialize (C (fun j' a' E' M' => D j' a' M' E') Ai Mi K).
    destruct (dict_get _ k) as [c|] eqn:G; [|contradiction].
    apply assign_values in G as [G|(n & Hn & ->)]; [discriminate|].
    exists n. split; [exact Hn|reflexivity].
  - intros j b Mj Bj K. rewrite (Ci i a Mi Ai), (Ci j b Mj Bj).
    unfold color_of. now rewrite K.
Qed.

(** C4.  When the palette is not empty, the host accepts the selection
    and the attribute has a value on each of its atoms, [mt_color] returns,
    and any two atoms of the selection with the same value of the
    attribute have the same color, one of the palette.  The dictionary of
    the draws is empty again after the call.  When the palette has two
    different colors and neither the selection nor the attribute reads the
    colors, there are draws for which two calls in a row give an atom of
    the selection two different colors. *)
Theorem mt_color_same_key_same_color (method selection : pystr) (w : world)
        (pal : list Z) (m : list nat) :
  mt_colors (st w) = Some pal ->
  pal <> [] ->
  sel_eval (h_atoms (host w)) (h_selections (host w)) selection = Some m ->
  (forall i a, mem_index m i = true ->
               nth_error (h_atoms (host w)) i = Some a ->
               attr_eval method a <> None) ->
  exists w1,
    mt_color method selection w = (Ok tt, w1) /\
    (forall i j a b,
       mem_index m i = true -> mem_index m j = true ->
       nth_error (h_atoms (host w)) i = Some a ->
       nth_error (h_atoms (host w)) j = Some b ->
       attr_eval method a = attr_eval method b ->
       exists c, In c pal /\ color_at w1 i = Some c /\ color_at w1 j = Some c) /\
    tmp_dict (st w1) = Some [] /\
    (forall c1 c2 i0 a0,
       In c1 pal -> In c2 pal -> c1 <> c2 ->
       mem_index m i0 = true ->
       nth_error (h_atoms (host w)) i0 = Some a0 ->
       (forall l', recolored (h_atoms (host w)) l' ->
                   sel_eval l' (h_selections (host w)) selection = Some m) ->
       (forall a c, attr_eval method (with_color a c) = attr_eval method a) ->
       exists r wa wb,
         mt_color method selection (with_rng w r) = (Ok tt, wa) /\
         mt_color method selection wa = (Ok tt, wb) /\
         color_at wa i0 = Some c1 /\
         color_at wb i0 = Some c2 /\
         color_at wa i0 <> color_at wb i0).
Proof.
  intros Hc Hp Hs D.
  destruct (mt_color_colors method selection w pal m Hc Hp Hs D)
    as (w1 & E & T & _ & _ & _ & _ & C).
  exists w1. split; [exact E|]. split; [|split; [exact T|]].
  - intros i j a b Mi Mj Ai Bj K.
    destruct (C i a Mi Ai) as [(n & _ & Ci) S].
    exists (pick pal (rng w n)). split; [now apply pick_in|].
    split; [exact Ci|]. rewrite (S j b Mj Bj K). exact Ci.
  - intros c1 c2 i0 a0 I1 I2 Ne M0 A0 Hsel Hattr.
    destruct (pick_at pal c1 I1) as (p1 & _ & P1).
    destruct (pick_at pal c2 I2) as (p2 & _ & P2).
    set (n := count_sel (mem_index m) 0 (h_atoms (host w))).
    set (r := fun k => if k <? n then p1 else p2).
    destruct (mt_color_colors method selection (with_rng w r) pal m Hc Hp Hs D)
      as (wa & Ea & _ & Ca & Sa & Ra & La & Xa).
    cbn [with_rng host rng] in Sa, Ra, La, Xa.
    assert (Da : forall i a, mem_index m i = true ->
                   nth_error (h_atoms (host wa)) i = Some a ->
                   attr_eval method a <> None).
    { intros i a' Mi Ai.
      destruct (recolored_nth _ _ _ _ La Ai) as (a & c & Ao & ->).
      rewrite Hattr. exact (D i a Mi Ao). }
    assert (Hsa : sel_eval (h_atoms (host wa)) (h_selections (host wa))
                           selection = Some m).
    { rewrite Sa. apply Hsel. exact La. }
    destruct (mt_color_colors method selection wa pal m Ca Hp Hsa Da)
      as (wb & Eb & _ & _ & _ & _ & _ & Xb).
    destruct (recolored_nth_fwd _ _ _ _ La A0) as (c0 & A0').
    destruct (Xa i0 a0 M0 A0) as [(n1 & L1 & C1) _].
    destruct (Xb i0 _ M0 A0') as [(n2 & L2 & C2) _].
    assert (F1 : color_at wa i0 = Some c1).
    { rewrite C1. unfold r. fold n in L1.
      apply Nat.ltb_lt in L1. now rewrite L1, P1. }
    assert (F2 : color_at wb i0 = Some c2).
    { rewrite C2, Ra. unfold shift, r. fold n.
      assert (G : (n + n2 <? n) = false) by (apply Nat.ltb_ge; lia).
      now rewrite G, P2. }
    exists r, wa, wb. repeat (split; [assumption|]).
    rewrite F1, F2. intros H. injection H as H. contradiction.
Qed.

End ColorFacts.

(** ** The palette *)

Lemma distinctb_NoDup (l : list pystr) : distinctb l = true -> NoDup l.
Proof.
  induction l as [|x l IH]; simpl; intros H; constructor.
  - apply andb_true_iff in H as [H _]. apply negb_true_iff in H.
    intros I. assert (E : existsb (str_eqb x) l = true).
    { apply existsb_exists. exists x. split; [exact I|apply str_eqb_refl]. }
    congruence.
  - apply IH. now apply andb_true_iff in H as [_ H].
Qed.

Lemma enumerate_from_nth {A} (l : list A) :
  forall i j,
    nth_error (enumerate_from i l) j =
    option_map (fun x => (i + j, x)) (nth_error l j).
Proof.
  induction l as [|x l IH]; intros i [|j]; simpl; try reflexivity.
  - now rewrite Nat.add_0_r.
  - rewrite IH. now rewrite Nat.add_succ_r.
Qed.

Lemma index_from_spec (tbl : list (pystr * rgb)) (name : pystr) :
  forall i p,
    index_from tbl name i = Some p ->
    (i <= p)%Z /\
    exists v, nth_error tbl (Z.to_nat (p - i)) = Some (name, v) /\
              dict_get tbl name = Some v.
Proof.
  induction tbl as [|[n v] tbl IH]; simpl; intros i p H; [discriminate|].
  destruct (str_eqb n name) eqn:E.
  - injection H as <-. apply str_eqb_eq in E. subst n.
    split; [lia|]. exists v. rewrite Z.sub_diag. split; reflexivity.
  - apply IH in H as (L & v' & N & G). split; [lia|].
    exists v'. split; [|exact G].
    replace (Z.to_nat (p - i)) with (S (Z.to_nat (p - (i + 1)))) by lia.
    exact N.
Qed.

Lemma index_from_found (tbl : list (pystr * rgb)) (name : pystr) (v : rgb) :
  dict_get tbl name = Some v ->
  forall i, exists p, index_from tbl name i = Some p.
Proof.
  induction tbl as [|[n v'] tbl IH]; simpl; intros H i; [discriminate|].
  destruct (str_eqb n name); eauto.
Qed.

Lemma registered_other (l tbl : list (pystr * rgb)) (name : pystr) :
  ~ In name (List.map fst l) ->
  dict_get (registered l tbl) name = dict_get tbl name.
Proof.
  revert tbl. induction l as [|[n v] l IH]; intros tbl H; [reflexivity|].
  simpl in *. unfold registered in *. simpl. rewrite IH by tauto.
  apply dict_get_set_other. tauto.
Qed.

Lemma registered_in (l tbl : list (pystr * rgb)) (name : pystr) (v : rgb) :
  NoDup (List.map fst l) -> In (name, v) l ->
  dict_get (registered l tbl) name = Some v.
Proof.
  revert tbl. induction l as [|[n v'] l IH]; intros tbl D I; [contradiction|].
  simpl in D. inversion D as [|? ? Hn Hd]; subst.
  unfold registered in *. simpl. destruct I as [I|I].
  - injection I as -> ->.
    rewrite (registered_other l _ name Hn). apply dict_get_set_same.
  - now apply IH.
Qed.

Lemma registered_fixed (l tbl : list (pystr * rgb)) :
  (forall name v, In (name, v) l -> dict_get tbl name = Some v) ->
  registered l tbl = tbl.
Proof.
  induction l as [|[n v] l IH]; intros H; [reflexivity|].
  unfold registered in *. simpl. unfold set_color.
  rewrite dict_set_same by (apply H; now left).
  apply IH. intros name v' I. apply H. now right.
Qed.

Lemma named_distinct : NoDup (List.map fst (named 0 colors)).
Proof. apply distinctb_NoDup. vm_compute. reflexivity. Qed.

Lemma named_nth (i : nat) (value : rgb) :
  nth_error colors i = Some value ->
  nth_error (named 0 colors) i = Some (col_name i, value).
Proof.
  intros H. unfold named. rewrite nth_error_map, enumerate_from_nth, H.
  reflexivity.
Qed.

Lemma register_colors_run (l : list rgb) :
  forall i d h s r out,
    register_colors i l d (mk_world h s r out) =
    (Ok (fold_left (fun d p => dict_set d (fst p) (snd p)) (named i l) d),
     mk_world
       (mk_pymol (h_atoms h) (h_selections h) (h_settings h)
          (registered (named i l) (h_colors h))
          (h_log h ++ List.map (fun p => c_set_color (fst p) (snd p))
                               (named i l)))
       s r out).
Proof.
  induction l as [|value l IH]; intros i d [atoms sels settings cols log] s r out.
  - simpl. now rewrite app_nil_r.
  - cbn [register_colors]. unfold bind at 1.
    unfold cmd_set_color, log_call, bind, get_host, put_host.
    cbn [host st rng stdout h_atoms h_selections h_settings h_colors h_log].
    rewrite IH.
    cbn [host st rng stdout h_atoms h_selections h_settings h_colors h_log].
    unfold named. cbn [enumerate_from List.map fold_left fst snd registered].
    now rewrite <- app_assoc.
Qed.

Lemma index_loop_run (names : list pystr) :
  forall acc h ms mn td r out,
    for_each names
      (fun color =>
         idx <- cmd_get_color_index color ;;
         l <- stored_attr "mt_colors" mt_colors ;;
         set_mt_colors (l ++ [idx]))
      (mk_world h (mk_stored (Some acc) ms mn td) r out) =
    (Ok tt,
     mk_world
       (mk_pymol (h_atoms h) (h_selections h) (h_settings h) (h_colors h)
          (h_log h ++ List.map c_get_color_index names))
       (mk_stored (Some (acc ++ List.map (handle (h_colors h)) names)) ms mn td)
       r out).
Proof.
  induction names as [|n names IH];
    intros acc [atoms sels settings cols log] ms mn td r out.
  - simpl. now rewrite !app_nil_r.
  - cbn [for_each]. unfold bind at 1.
    unfold cmd_get_color_index, log_call, stored_attr, set_mt_colors,
      bind, get_host, put_host, get_stored, put_stored, ret.
    cbn [host st rng stdout h_atoms h_selections h_settings h_colors h_log
         mt_colors mt_selectors mt_nice_set tmp_dict].
    rewrite IH.
    cbn [host st rng stdout h_atoms h_selections h_settings h_colors h_log
         List.map].
    rewrite <- !app_assoc. reflexivity.
Qed.

(** What [nice_settings] leaves: the palette registered in the color
    table, the handles of its names in [stored.mt_colors], and the two
    tables. *)
Lemma nice_settings_run (w : world) :
  nice_settings w =
  (Ok tt,
   mk_world
     (mk_pymol (h_atoms (host w)) (h_selections (host w))
        (h_settings (host w))
        (registered (named 0 colors) (h_colors (host w)))
        (h_log (host w)
         ++ List.map (fun p => c_set_color (fst p) (snd p)) (named 0 colors)
         ++ List.map c_get_color_index (List.map fst (named 0 colors))))
     (mk_stored
        (Some (List.map
                 (handle (registered (named 0 colors) (h_colors (host w))))
                 (List.map fst (named 0 colors))))
        (Some selectors) (Some nice_set) (tmp_dict (st w)))
     (rng w) (stdout w)).
Proof.
  destruct w as [h [mc ms mn td] r out].
  unfold nice_settings. unfold bind at 1. rewrite register_colors_run.
  replace (dict_keys (fold_left (fun d p => dict_set d (fst p) (snd p))
                                (named 0 colors) []))
    with (List.map fst (named 0 colors)) by (vm_compute; reflexivity).
  unfold bind at 1. unfold set_mt_colors at 1.
  unfold bind at 1, get_stored, put_stored.
  cbn [host st rng stdout mt_colors mt_selectors mt_nice_set tmp_dict].
  unfold bind at 1. rewrite index_loop_run.
  unfold set_mt_selectors, set_mt_nice_set, bind, get_stored, put_stored.
  cbn [host st rng stdout h_atoms h_selections h_settings h_colors h_log
       mt_colors mt_selectors mt_nice_set tmp_dict app].
  rewrite <- app_assoc. reflexivity.
Qed.

(** The handle of a registered name points at its entry of the table. *)
Lemma handle_registered (tbl : list (pystr * rgb)) (i : nat) (value : rgb) :
  nth_error colors i = Some value ->
  let tbl' := registered (named 0 colors) tbl in
  (0 <= handle tbl' (col_name i))%Z /\
  nth_error tbl' (Z.to_nat (handle tbl' (col_name i))) =
  Some (col_name i, value).
Proof.
  intros H tbl'.
  assert (G : dict_get tbl' (col_name i) = Some value).
  { apply registered_in; [apply named_distinct|].
    eapply nth_error_In. apply named_nth. exact H. }
  destruct (index_from_found _ _ _ G 0%Z) as (p & P).
  unfold handle, color_index. rewrite P.
  destruct (index_from_spec _ _ _ _ P) as (L & v & N & G').
  rewrite G in G'. injection G' as <-.
  split; [exact L|]. now rewrite Z.sub_0_r in N.
Qed.

(** Registering the palette again changes nothing in a table that has
    it. *)
Lemma registered_twice (tbl : list (pystr * rgb)) :
  registered (named 0 colors) (registered (named 0 colors) tbl) =
  registered (named 0 colors) tbl.
Proof.
  apply registered_fixed. intros name v I.
  apply registered_in; [apply named_distinct|exact I].
Qed.

(** C6.  [nice_settings] returns; the palette is the literal list of 26
    triples from (240,163,255) to (255,80,5); the host receives one
    [set_color] per triple, in the order of the list, under the names
    mt_color_0 to mt_color_25, and then one [get_color_index] per name;
    [stored.mt_colors] holds the 26 handles in that order, each the place
    of its triple in the color table; and a second call leaves the color
    table and the handles as the first one left them. *)
Theorem nice_settings_palette (w : world) :
  exists handles w',
    nice_settings w = (Ok tt, w') /\
    List.length colors = 26 /\
    hd_error colors = Some (240, 163, 255)%Z /\
    last colors (0, 0, 0)%Z = (255, 80, 5)%Z /\
    h_log (host w') =
      h_log (host w)
      ++ List.map (fun p => c_set_color (col_name (fst p)) (snd p))
                  (enumerate_from 0 colors)
      ++ List.map (fun i => c_get_color_index (col_name i)) (seq 0 26) /\
    mt_colors (st w') = Some handles /\
    List.length handles = 26 /\
    (forall i value,
       nth_error colors i = Some value ->
       exists h, nth_error handles i = Some h /\ (0 <= h)%Z /\
                 nth_error (h_colors (host w')) (Z.to_nat h) =
                 Some (col_name i, value)) /\
    exists w'',
      nice_settings w' = (Ok tt, w'') /\
      mt_colors (st w'') = Some handles /\
      h_colors (host w'') = h_colors (host w').
Proof.
  eexists. eexists. split; [apply nice_settings_run|].
  cbn [host st h_log h_colors mt_colors].
  split; [reflexivity|]. split; [reflexivity|]. split; [reflexivity|].
  split.
  { unfold named. rewrite !map_map. reflexivity. }
  split; [reflexivity|].
  split; [now rewrite !length_map; vm_compute|].
  split.
  { intros i value H.
    destruct (handle_registered (h_colors (host w)) i value H) as [L N].
    eexists. split; [|split; [exact L|exact N]].
    rewrite nth_error_map, nth_error_map, (named_nth i value H).
    reflexivity. }
  eexists. split; [apply nice_settings_run|].
  cbn [host st h_log h_colors mt_colors].
  rewrite registered_twice. split; reflexivity.
Qed.

(** ** The selector registry *)

Lemma mem_indices_below (f : nat -> atom -> bool) (l : list atom) :
  forall k n, n < k -> mem_index (indices_from f k l) n = false.
Proof.
  induction l as [|a l IH]; intros k n H; [reflexivity|].
  cbn [indices_from]. destruct (f k a).
  - unfold mem_index in *. cbn [existsb].
    destruct (Nat.eqb_spec n k); [lia|]. apply IH. lia.
  - apply IH. lia.
Qed.

Lemma mem_indices_from (f : nat -> atom -> bool) (l : list atom) :
  forall k j,
    mem_index (indices_from f k l) (k + j) =
    match nth_error l j with
    | Some a => f (k + j) a
    | None => false
    end.
Proof.
  induction l as [|a l IH]; intros k j.
  - now destruct j.
  - cbn [indices_from]. destruct j as [|j].
    + rewrite Nat.add_0_r. cbn [nth_error]. destruct (f k a) eqn:F.
      * unfold mem_index. cbn [existsb]. now rewrite Nat.eqb_refl.
      * apply mem_indices_below. lia.
    + cbn [nth_error]. rewrite Nat.add_succ_r.
      change (S (k + j)) with (S k + j). destruct (f k a).
      * unfold mem_index in *. cbn [existsb].
        destruct (Nat.eqb_spec (S k + j) k); [lia|]. apply IH.
      * apply IH.
Qed.

Lemma mem_indices (f : nat -> atom -> bool) (l : list atom) (i : nat)
      (a : atom) :
  nth_error l i = Some a -> mem_index (indices_from f 0 l) i = f i a.
Proof.
  intros H. change i with (0 + i) at 1. rewrite mem_indices_from, H.
  reflexivity.
Qed.

Lemma select_protein atoms sels :
  pymol_select atoms sels (py "polymer.protein") =
  Some (indices_from (fun _ a => a_protein a) 0 atoms).
Proof. reflexivity. Qed.

Lemma select_BB atoms sels :
  pymol_select atoms sels (py "polymer.protein and name BB") =
  Some (indices_from
          (fun _ a => a_protein a && str_eqb (py "BB") (a_name a)) 0 atoms).
Proof. reflexivity. Qed.

Lemma select_SC atoms sels :
  pymol_select atoms sels (py "polymer.protein and name SC*") =
  Some (indices_from
          (fun _ a => a_protein a && startswith (py "SC") (a_name a)) 0 atoms).
Proof. reflexivity. Qed.

Lemma select_solv atoms sels :
  pymol_select atoms sels (py "resn W or resn WN or resn ION") =
  Some (indices_from
          (fun _ a => str_eqb (py "W") (a_resn a)
                      || str_eqb (py "WN") (a_resn a)
                      || str_eqb (py "ION") (a_resn a)) 0 atoms).
Proof. reflexivity. Qed.

Lemma select_ions atoms sels :
  pymol_select atoms sels (py "resn ION") =
  Some (indices_from (fun _ a => str_eqb (py "ION") (a_resn a)) 0 atoms).
Proof. reflexivity. Qed.

Lemma select_lip atoms sels l :
  dict_get sels (py "ions") = Some l ->
  pymol_select atoms sels (py "organic and not ions") =
  Some (indices_from
          (fun i a => a_organic a && negb (mem_index l i)) 0 atoms).
Proof.
  intros H. unfold pymol_select.
  change (parse_sel (py "organic and not ions"))
    with (Some (s_and s_organic (s_not (s_ref (py "ions"))))).
  cbn [eval_sel]. now rewrite H.
Qed.

Lemma select_nucl atoms sels :
  pymol_select atoms sels (py "polymer.nucleic") =
  Some (indices_from (fun _ a => a_nucleic a) 0 atoms).
Proof. reflexivity. Qed.

Lemma cmd_select_run (name logic : pystr) (l : list nat)
      atoms sels settings cols log s r out :
  pymol_select atoms sels logic = Some l ->
  cmd_select pymol_select name logic
    (mk_world (mk_pymol atoms sels settings cols log) s r out) =
  (Ok tt,
   mk_world (mk_pymol atoms (dict_set sels name l) settings cols
                      (log ++ [c_select name logic])) s r out).
Proof.
  intros H.
  unfold cmd_select, log_call, resolve, put_selections, bind, get_host,
    put_host.
  cbn [host st rng stdout h_atoms h_selections h_settings h_colors h_log].
  rewrite H. reflexivity.
Qed.

(** [mt_sele()] with the registry in place: the seven selections are made
    in the order of the registry, each from its string. *)
Lemma mt_sele_run (w : world) :
  mt_selectors (st w) = Some selectors ->
  exists sels',
    mt_sele pymol_select None w =
    (Ok tt,
     mk_world
       (mk_pymol (h_atoms (host w)) sels' (h_settings (host w))
          (h_colors (host w))
          (h_log (host w)
           ++ List.map (fun item => c_select (fst item) (snd item)) selectors
           ++ [c_sync; c_deselect; c_sync]))
       (st w) (rng w) (stdout w)) /\
    forall group,
      In (py group) (dict_keys selectors) ->
      dict_get sels' (py group) =
      Some (group_atoms (h_atoms (host w))
              (group_atoms (h_atoms (host w)) [] "ions") group).
Proof.
  destruct w as [[atoms sels settings cols log] s r out].
  cbn [host st rng stdout h_atoms h_selections h_settings h_colors h_log].
  intros H. eexists. split.
  - unfold mt_sele. unfold bind at 1. unfold bind at 1.
    unfold stored_attr. cbn [st]. rewrite H.
    unfold selectors at 1. cbn [for_each fst snd].
    unfold bind at 1. rewrite (cmd_select_run _ _ _ _ _ _ _ _ _ _ _ (select_protein _ _)).
    unfold bind at 1. rewrite (cmd_select_run _ _ _ _ _ _ _ _ _ _ _ (select_BB _ _)).
    unfold bind at 1. rewrite (cmd_select_run _ _ _ _ _ _ _ _ _ _ _ (select_SC _ _)).
    unfold bind at 1. rewrite (cmd_select_run _ _ _ _ _ _ _ _ _ _ _ (select_solv _ _)).
    unfold bind at 1. rewrite (cmd_select_run _ _ _ _ _ _ _ _ _ _ _ (select_ions _ _)).
    unfold bind at 1.
    rewrite (cmd_select_run _ _ _ _ _ _ _ _ _ _ _
               (select_lip _ _ _ (dict_get_set_same _ _ _))).
    unfold bind at 1. rewrite (cmd_select_run _ _ _ _ _ _ _ _ _ _ _ (select_nucl _ _)).
    unfold ret at 1.
    unfold cmd_sync, cmd_deselect, log_call, bind, get_host, put_host.
    cbn [host st rng stdout h_atoms h_selections h_settings h_colors h_log].
    unfold selectors. cbn [List.map fst snd].
    rewrite <- !app_assoc. reflexivity.
  - intros group I. unfold selectors in I. cbn [dict_keys List.map fst] in I.
    assert (Hsame : forall g g' : string, py g = py g' ->
              forall ions, group_atoms atoms ions g = group_atoms atoms ions g').
    { intros g g' E ions. unfold group_atoms. now rewrite E. }
    destruct I as [I|[I|[I|[I|[I|[I|[I|[]]]]]]]]; rewrite <- I;
      repeat (rewrite dict_get_set_other by (vm_compute; discriminate));
      rewrite dict_get_set_same; f_equal;
      first [ rewrite <- (Hsame "prot"%string group I)
            | rewrite <- (Hsame "BB"%string group I)
            | rewrite <- (Hsame "SC"%string group I)
            | rewrite <- (Hsame "solv"%string group I)
            | rewrite <- (Hsame "ions"%string group I)
            | rewrite <- (Hsame "lip"%string group I)
            | rewrite <- (Hsame "nucl"%string group I) ];
      reflexivity.
Qed.

Lemma selected_group (h : pymol) (sels' : dict (list nat)) atoms ions
      (group : string) (i : nat) :
  h_selections h = sels' ->
  dict_get sels' (py group) = Some (group_atoms atoms ions group) ->
  selected h group i = mem_index (group_atoms atoms ions group) i.
Proof. intros <- H. unfold selected. now rewrite H. Qed.



(** ** The settings export *)

Section StoreFacts.

Variable splitext : pystr -> pystr * pystr.
Variable name_list : list pystr.
Variable get_setting : pystr -> value.
Variable float_str : float -> pystr.

Abbreviation collect_settings := (collect_settings name_list get_setting).
Abbreviation write_setting := (write_setting float_str).
Abbreviation store_settings :=
  (store_settings splitext name_list get_setting float_str).

(** C8.  On a file name whose extension is not .py, [store_settings]
    raises its TypeError and the file system is what it was: no file was
    created, opened or written. *)
Theorem store_settings_rejects_extension (filename : pystr) (fs : filesystem) :
  snd (splitext filename) <> py ".py" ->
  store_settings filename fs =
  (Raise (TypeError (filename ++ py " must be a .py file")), fs).
Proof.
  intros H. unfold store_settings.
  apply str_eqb_neq in H. rewrite H. reflexivity.
Qed.

Lemma unpack_pair_fails (key : pystr) :
  List.length key <> 2 ->
  exists message, unpack_pair key = Raise (ValueError message).
Proof.
  destruct key as [|a [|b [|c key]]]; simpl; intros H;
    try (eexists; reflexivity).
  contradiction.
Qed.

(** C9.  The write loop runs over the keys of the settings dictionary and
    unpacks each key into two.  When the file can be opened and the first
    key is not two characters long, [store_settings] raises the ValueError
    of the unpacking after the header was printed: the file holds the
    header line and the empty line after it and no setting line, and the
    other files are untouched. *)
Theorem store_settings_unpack_error (filename key : pystr)
        (rest : list pystr) (fs : filesystem) :
  snd (splitext filename) = py ".py" ->
  writable fs filename = true ->
  dict_keys collect_settings = key :: rest ->
  List.length key <> 2 ->
  exists message fs',
    unpack_pair key = Raise (ValueError message) /\
    store_settings filename fs = (Raise (ValueError message), fs') /\
    dict_get (files fs') filename = Some (header ++ [newline]) /\
    forall path, path <> filename ->
                 dict_get (files fs') path = dict_get (files fs) path.
Proof.
  intros He Hw Hk Hl.
  destruct (unpack_pair_fails key Hl) as (message & U).
  exists message. eexists. split; [exact U|].
  unfold store_settings. apply str_eqb_eq in He. rewrite He. cbn [negb].
  rewrite Hk. unfold bind at 1. unfold open_w. rewrite Hw.
  unfold bind at 1. unfold fprint at 1. cbn [files writable].
  rewrite dict_get_set_same. cbn [for_each].
  unfold bind at 1. unfold write_setting at 1. rewrite U.
  unfold raise. split; [reflexivity|]. cbn [files]. split.
  - apply dict_get_set_same.
  - intros path N. rewrite !dict_get_set_other by congruence. reflexivity.
Qed.

End StoreFacts.


(** * The statements on the demo system *)

Lemma alter_vdw_classifies_witness :
  re_match ascii_word ascii_digit pat_small (py "SC1") = true /\
  alter_vdw ascii_word ascii_digit (py "SC1") 1.5 = 2.00%float.
Proof.
  assert (H : re_match ascii_word ascii_digit pat_small (py "SC1") = true)
    by reflexivity.
  split; [exact H|].
  exact (proj1 (proj2 (proj2
           (alter_vdw_classifies ascii_word ascii_digit (py "SC1") 1.5))) H).
Defined.

Lemma rule_order_irrelevant_witness :
  Permutation vdw_patterns (rev vdw_patterns) /\
  List.length (matching ascii_word ascii_digit vdw_patterns (py "TQd")) <= 1 /\
  first_radius ascii_word ascii_digit (rev vdw_patterns) (py "TQd") 1.5 =
  alter_vdw ascii_word ascii_digit (py "TQd") 1.5.
Proof.
  assert (P : Permutation vdw_patterns (rev vdw_patterns))
    by apply Permutation_rev.
  split; [exact P|].
  exact (rule_order_irrelevant ascii_word ascii_digit
           (rev vdw_patterns) (py "TQd") 1.5 P).
Defined.

Lemma mt_nice_invalid_style_witness :
  ~ In (py "bogus") valid_styles /\
  mt_nice ascii_word ascii_digit pymol_select atom_attribute
    (py "bogus") (py "all") demo_loaded =
  (Ok tt,
   mk_world (host demo_loaded) (st demo_loaded) (rng demo_loaded)
     (stdout demo_loaded
      ++ [py "Error: " ++ py "bogus"
          ++ py " is not a valid option. See help mt_nice"])).
Proof.
  assert (H : ~ In (py "bogus") valid_styles).
  { vm_compute. intuition discriminate. }
  split; [exact H|].
  exact (mt_nice_invalid_style ascii_word ascii_digit pymol_select
           atom_attribute (py "bogus") (py "all") demo_loaded H).
Defined.



Lemma store_settings_rejects_extension_witness :
  snd (posix_splitext (py "settings.txt")) <> py ".py" /\
  store_settings posix_splitext demo_names demo_setting demo_float_str
    (py "settings.txt") demo_fs =
  (Raise (TypeError (py "settings.txt" ++ py " must be a .py file")), demo_fs).
Proof.
  assert (H : snd (posix_splitext (py "settings.txt")) <> py ".py")
    by (vm_compute; discriminate).
  split; [exact H|].
  exact (store_settings_rejects_extension posix_splitext demo_names
           demo_setting demo_float_str (py "settings.txt") demo_fs H).
Defined.

Lemma store_settings_unpack_error_witness :
  snd (posix_splitext (py "/tmp/pymol_settings.py")) = py ".py" /\
  writable demo_fs (py "/tmp/pymol_settings.py") = true /\
  dict_keys (collect_settings demo_names demo_setting) =
    py "bonding_vdw_cutoff" :: [py "ab"] /\
  List.length (py "bonding_vdw_cutoff") <> 2 /\
  exists message fs',
    unpack_pair (py "bonding_vdw_cutoff") = Raise (ValueError message) /\
    store_settings posix_splitext demo_names demo_setting demo_float_str
      (py "/tmp/pymol_settings.py") demo_fs =
    (Raise (ValueError message), fs') /\
    dict_get (files fs') (py "/tmp/pymol_settings.py") =
      Some (header ++ [newline]) /\
    forall path, path <> py "/tmp/pymol_settings.py" ->
                 dict_get (files fs') path = dict_get (files demo_fs) path.
Proof.
  assert (He : snd (posix_splitext (py "/tmp/pymol_settings.py")) = py ".py")
    by (vm_compute; reflexivity).
  assert (Hw : writable demo_fs (py "/tmp/pymol_settings.py") = true)
    by reflexivity.
  assert (Hk : dict_keys (collect_settings demo_names demo_setting) =
               py "bonding_vdw_cutoff" :: [py "ab"])
    by (vm_compute; reflexivity).
  assert (Hl : List.length (py "bonding_vdw_cutoff") <> 2)
    by (vm_compute; discriminate).
  split; [exact He|]. split; [exact Hw|]. split; [exact Hk|].
  split; [exact Hl|].
  exact (store_settings_unpack_error posix_splitext demo_names demo_setting
           demo_float_str (py "/tmp/pymol_settings.py")
           (py "bonding_vdw_cutoff") [py "ab"] demo_fs He Hw Hk Hl).
Defined.

Lemma indices_all (l : list atom) :
  forall k, indices_from (fun _ _ => true) k l = seq k (List.length l).
Proof.
  induction l as [|a l IH]; intros k; [reflexivity|].
  simpl. now rewrite IH.
Qed.

Lemma select_all_recolored (l l' : list atom) (sels : dict (list nat)) :
  recolored l l' ->
  pymol_select l' sels (py "all") = pymol_select l sels (py "all").
Proof.
  intros R.
  change (Some (indices_from (fun _ _ => true) 0 l') =
          Some (indices_from (fun _ _ => true) 0 l)).
  rewrite !indices_all. unfold recolored in R.
  now rewrite (Forall2_length R).
Qed.

Lemma mt_color_same_key_same_color_witness :
  mt_colors (st demo_loaded) = Some demo_palette /\
  demo_palette <> [] /\
  pymol_select (h_atoms (host demo_loaded)) (h_selections (host demo_loaded))
               (py "all") = Some (seq 0 7) /\
  (forall i a, mem_index (seq 0 7) i = true ->
               nth_error (h_atoms (host demo_loaded)) i = Some a ->
               atom_attribute (py "resn") a <> None) /\
  exists w1,
    mt_color pymol_select atom_attribute (py "resn") (py "all") demo_loaded =
    (Ok tt, w1) /\
    (exists c, In c demo_palette /\
               color_at w1 1 = Some c /\ color_at w1 2 = Some c) /\
    tmp_dict (st w1) = Some [] /\
    exists r wa wb,
      mt_color pymol_select atom_attribute (py "resn") (py "all")
               (with_rng demo_loaded r) = (Ok tt, wa) /\
      mt_color pymol_select atom_attribute (py "resn") (py "all") wa =
      (Ok tt, wb) /\
      color_at wa 0 = Some 3%Z /\
      color_at wb 0 = Some 4%Z /\
      color_at wa 0 <> color_at wb 0.
Proof.
  assert (Hc : mt_colors (st demo_loaded) = Some demo_palette)
    by (vm_compute; reflexivity).
  assert (Hp : demo_palette <> []) by (vm_compute; discriminate).
  assert (Hs : pymol_select (h_atoms (host demo_loaded))
                 (h_selections (host demo_loaded)) (py "all") =
               Some (seq 0 7)) by (vm_compute; reflexivity).
  assert (D : forall i a, mem_index (seq 0 7) i = true ->
                nth_error (h_atoms (host demo_loaded)) i = Some a ->
                atom_attribute (py "resn") a <> None).
  { intros i a _ _. vm_compute. discriminate. }
  split; [exact Hc|]. split; [exact Hp|]. split; [exact Hs|].
  split; [exact D|].
  destruct (mt_color_same_key_same_color pymol_select atom_attribute
              (py "resn") (py "all") demo_loaded demo_palette (seq 0 7)
              Hc Hp Hs D) as (w1 & E & Same & T & Differ).
  exists w1. split; [exact E|]. split; [|split; [exact T|]].
  - apply (Same 1 2
             (bead "SC1" "LYS" "2" "A" "SC3" 1.5 true false false)
             (bead "BB" "LYS" "2" "A" "TQd" 1.5 true false false));
      vm_compute; reflexivity.
  - apply (Differ 3%Z 4%Z 0
             (bead "BB" "ALA" "1" "A" "P5" 1.5 true false false)).
    + vm_compute. tauto.
    + vm_compute. tauto.
    + discriminate.
    + reflexivity.
    + vm_compute. reflexivity.
    + intros l' R. rewrite (select_all_recolored _ _ _ R). exact Hs.
    + intros a c. reflexivity.
Defined.

(** * Further properties *)

(** ** The bead classifier, by the characters of the code *)

Section ClassifierChars.

Variable word_char : char -> bool.
Variable digit_char : char -> bool.

Abbreviation re_match := (re_match word_char digit_char).
Abbreviation alter_vdw := (alter_vdw word_char digit_char).
Abbreviation regular_code := (regular_code word_char digit_char).
Abbreviation prefixed_code := (prefixed_code word_char digit_char).

Lemma regular_chars (s : pystr) : re_match pat_regular s = regular_code s.
Proof.
  destruct s as [|x [|y rest]]; [reflexivity| |];
    unfold re_match, pat_regular, regular_code;
    cbn -[N.eqb];
    destruct (N.eqb x 81), (N.eqb x 80), (N.eqb x 78), (N.eqb x 67),
      (N.eqb x 88), (N.eqb x 87); cbn;
    try reflexivity;
    destruct (word_char y), (digit_char y); reflexivity.
Qed.

Lemma prefixed_chars (c : char) (s : pystr) :
  re_match (Seq (Lit c) (Group pat_regular)) s = prefixed_code c s.
Proof.
  destruct s as [|x rest]; [reflexivity|].
  unfold prefixed_code. rewrite <- regular_chars.
  unfold re_match. cbn -[N.eqb pat_regular].
  destruct (N.eqb x c); [|reflexivity].
  cbn -[pat_regular]. now rewrite app_nil_r.
Qed.

Lemma alter_vdw_formula (elem : pystr) (vdw : float) :
  alter_vdw elem vdw =
  if regular_code elem then 2.35%float
  else if prefixed_code (letter "S") elem then 2.00%float
  else if prefixed_code (letter "T") elem then 1.65%float
  else vdw.
Proof.
  rewrite <- regular_chars, <- !prefixed_chars. reflexivity.
Qed.

(** X1.  The three patterns read as tests on the leading characters: the
    regular pattern matches the codes that start with W or with one of
    Q, P, N, C, X followed by a word character or digit; the other two
    match S, respectively T, followed by such a code.  [alter_vdw] is the
    cascade of these tests. *)
Theorem alter_vdw_by_characters (elem : pystr) (vdw : float) :
  re_match pat_regular elem = regular_code elem /\
  re_match pat_small elem = prefixed_code (letter "S") elem /\
  re_match pat_tiny elem = prefixed_code (letter "T") elem /\
  alter_vdw elem vdw =
    (if regular_code elem then 2.35%float
     else if prefixed_code (letter "S") elem then 2.00%float
     else if prefixed_code (letter "T") elem then 1.65%float
     else vdw).
Proof.
  split; [apply regular_chars|].
  split; [apply prefixed_chars|].
  split; [apply prefixed_chars|].
  apply alter_vdw_formula.
Qed.

(** X2.  The radius depends on the first three characters of the bead
    code only: two codes that agree on them get the same radius, whatever
    follows. *)
Theorem alter_vdw_first_three (elem elem' : pystr) (vdw : float) :
  firstn 3 elem = firstn 3 elem' ->
  alter_vdw elem vdw = alter_vdw elem' vdw.
Proof.
  intros H. rewrite !alter_vdw_formula.
  destruct elem as [|a [|b [|c elem]]], elem' as [|a' [|b' [|c' elem']]];
    cbn [firstn] in H; try discriminate H;
    try (injection H as -> -> ->); try (injection H as -> ->);
    try (injection H as ->); reflexivity.
Qed.

(** The radius of a code that a pattern matches does not depend on the
    radius the atom had, and [alter_vdw] applied to its own result returns
    that result. *)
Lemma alter_vdw_again (elem : pystr) (vdw vdw' : float) :
  alter_vdw elem (alter_vdw elem vdw) = alter_vdw elem vdw /\
  (alter_vdw elem vdw = alter_vdw elem vdw' \/
   (alter_vdw elem vdw = vdw /\ alter_vdw elem vdw' = vdw')).
Proof.
  rewrite !alter_vdw_formula.
  destruct (regular_code elem); [split; [reflexivity|now left]|].
  destruct (prefixed_code (letter "S") elem);
    [split; [reflexivity|now left]|].
  destruct (prefixed_code (letter "T") elem);
    [split; [reflexivity|now left]|].
  split; [reflexivity|now right].
Qed.

End ClassifierChars.

(** ** [set_vdw] on the host *)

Lemma alter_atoms_length (member : nat -> bool) (f : atom -> result atom)
      (l : list atom) :
  forall i, List.length (fst (alter_atoms member f i l)) = List.length l.
Proof.
  induction l as [|a l IH]; intros i; [reflexivity|].
  cbn [alter_atoms]. specialize (IH (S i)).
  destruct (member i).
  - destruct (f a) as [a'|e]; [|reflexivity].
    destruct (alter_atoms member f (S i) l) as [t' e]. simpl in *. now rewrite IH.
  - destruct (alter_atoms member f (S i) l) as [t' e]. simpl in *. now rewrite IH.
Qed.

Section SetVdwFacts.

Variable word_char : char -> bool.
Variable digit_char : char -> bool.
Variable sel_eval : list atom -> dict (list nat) -> pystr -> option (list nat).

Abbreviation set_vdw := (set_vdw word_char digit_char sel_eval).
Abbreviation alter_vdw := (alter_vdw word_char digit_char).
Abbreviation classified := (classified word_char digit_char).

Lemma classified_nth (m : list nat) (atoms : list atom) (j : nat) :
  nth_error (classified m atoms) j =
  option_map
    (fun a => if mem_index m j
              then with_vdw a (alter_vdw (a_elem a) (a_vdw a))
              else a)
    (nth_error atoms j).
Proof.
  unfold classified.
  exact (proj2 (alter_atoms_ok (mem_index m) _
                  (fun a => with_vdw a (alter_vdw (a_elem a) (a_vdw a)))
                  atoms 0 (fun _ _ _ _ => eq_refl)) j).
Qed.

Lemma set_vdw_run (selection : pystr) (w : world) (m : list nat) :
  sel_eval (h_atoms (host w)) (h_selections (host w)) selection = Some m ->
  set_vdw selection w =
  (Ok tt,
   mk_world
     (mk_pymol (classified m (h_atoms (host w))) (h_selections (host w))
        (h_settings (host w)) (h_colors (host w))
        (h_log (host w)
         ++ [c_alter selection (py "vdw=stored.alter_vdw(elem, vdw)"); c_sync]))
     (st w) (rng w) (stdout w)).
Proof.
  destruct w as [[atoms sels settings cols log] s r out].
  cbn [host st rng stdout h_atoms h_selections h_settings h_colors h_log].
  intros Hs.
  pose proof (proj1 (alter_atoms_ok (mem_index m) _
                       (fun a => with_vdw a (alter_vdw (a_elem a) (a_vdw a)))
                       atoms 0 (fun _ _ _ _ => eq_refl))) as E.
  unfold classified, set_vdw, cmd_alter, cmd_sync, log_call, resolve, put_atoms,
    bind, get_host, put_host, ret.
  cbn [host st rng stdout h_atoms h_selections h_settings h_colors h_log].
  rewrite Hs.
  cbn [host st rng stdout h_atoms h_selections h_settings h_colors h_log].
  destruct (alter_atoms (mem_index m) _ 0 atoms) as [atoms' e].
  cbn [fst snd] in *. subst e.
  cbn [host st rng stdout h_atoms h_selections h_settings h_colors h_log].
  rewrite <- app_assoc. reflexivity.
Qed.



Lemma classified_again (m : list nat) (atoms : list atom) :
  classified m (classified m atoms) = classified m atoms.
Proof.
  apply nth_error_ext. intros j. rewrite classified_nth.
  rewrite classified_nth. destruct (nth_error atoms j) as [a|]; [|reflexivity].
  cbn [option_map]. destruct (mem_index m j); [|reflexivity].
  f_equal.
  change (with_vdw (with_vdw a (alter_vdw (a_elem a) (a_vdw a)))
            (alter_vdw (a_elem a) (alter_vdw (a_elem a) (a_vdw a))) =
          with_vdw a (alter_vdw (a_elem a) (a_vdw a))).
  rewrite (proj1 (alter_vdw_again word_char digit_char _ _ (a_vdw a))).
  reflexivity.
Qed.

(** X5.  Running [set_vdw] again on a selection that still denotes the
    same atoms changes no atom: the radii of the first run stay. *)
Theorem set_vdw_twice (selection : pystr) (w : world) (m : list nat) :
  sel_eval (h_atoms (host w)) (h_selections (host w)) selection = Some m ->
  sel_eval (classified m (h_atoms (host w))) (h_selections (host w))
           selection = Some m ->
  exists w1 w2,
    set_vdw selection w = (Ok tt, w1) /\
    set_vdw selection w1 = (Ok tt, w2) /\
    h_atoms (host w2) = h_atoms (host w1).
Proof.
  intros H1 H2.
  pose proof (set_vdw_run selection w m H1) as R1.
  destruct (set_vdw selection w) as [r1 w1].
  injection R1 as -> ->.
  eexists. eexists. split; [reflexivity|].
  split; [apply (set_vdw_run selection _ m); exact H2|].
  cbn [host h_atoms]. apply classified_again.
Qed.

End SetVdwFacts.

(** ** [mt_sele] with an option *)

Lemma dict_get_filter_key {V} (d : dict V) (n k : pystr) :
  dict_get (filter (fun kv => negb (str_eqb (fst kv) n)) d) k =
  if str_eqb n k then None else dict_get d k.
Proof.
  induction d as [|[k' v] d IH]; simpl.
  - now destruct (str_eqb n k).
  - destruct (str_eqb k' n) eqn:E; simpl.
    + apply str_eqb_eq in E. subst k'. rewrite IH.
      now destruct (str_eqb n k).
    + destruct (str_eqb k' k) eqn:E'.
      * apply str_eqb_eq in E'. subst k'.
        rewrite str_eqb_sym in E. now rewrite E.
      * exact IH.
Qed.

Lemma dict_get_without {V} (names : list pystr) (d : dict V) (k : pystr) :
  dict_get (without names d) k =
  if existsb (str_eqb k) names then None else dict_get d k.
Proof.
  unfold without. induction d as [|[k' v] d IH]; simpl.
  - now destruct (existsb (str_eqb k) names).
  - destruct (existsb (str_eqb k') names) eqn:E; simpl.
    + rewrite IH. destruct (str_eqb k' k) eqn:E'; [|reflexivity].
      apply str_eqb_eq in E'. subst k'. now rewrite E.
    + destruct (str_eqb k' k) eqn:E'; [|exact IH].
      apply str_eqb_eq in E'. subst k'. now rewrite E.
Qed.

Lemma without_cons {V} (n : pystr) (names : list pystr) (d : dict V) :
  without names (filter (fun kv => negb (str_eqb (fst kv) n)) d) =
  without (n :: names) d.
Proof.
  unfold without. induction d as [|[k v] d IH]; [reflexivity|].
  simpl. destruct (str_eqb k n); simpl; [exact IH|].
  destruct (existsb (str_eqb k) names); simpl; [exact IH|now rewrite IH].
Qed.

Lemma delete_loop_run (names : list pystr) :
  forall atoms sels settings cols log s r out,
    for_each names cmd_delete
      (mk_world (mk_pymol atoms sels settings cols log) s r out) =
    (Ok tt,
     mk_world
       (mk_pymol atoms (without names sels) settings cols
                 (log ++ List.map c_delete names)) s r out).
Proof.
  induction names as [|n names IH]; intros atoms sels settings cols log s r out.
  - cbn [for_each List.map]. unfold ret, without. cbn [existsb negb].
    rewrite app_nil_r. f_equal. f_equal. f_equal.
    induction sels as [|kv sels IHs]; [reflexivity|]. simpl. now rewrite <- IHs.
  - cbn [for_each]. unfold bind at 1.
    unfold cmd_delete, log_call, put_selections, bind, get_host, put_host.
    cbn [host st rng stdout h_atoms h_selections h_settings h_colors h_log].
    rewrite IH, without_cons. cbn [List.map]. now rewrite <- app_assoc.
Qed.

Section MtSeleFacts.

Variable sel_eval : list atom -> dict (list nat) -> pystr -> option (list nat).

Abbreviation mt_sele := (mt_sele sel_eval).
Abbreviation cmd_select := (cmd_select sel_eval).

(** X6.  An option other than delete makes [mt_sele] print its hint and
    select or delete nothing: the host only receives sync, deselect, sync.
    The empty string counts as no option. *)
Theorem mt_sele_unknown_option (option : pystr) (w : world) :
  option <> [] ->
  option <> py "delete" ->
  mt_sele (Some option) w =
  (Ok tt,
   mk_world
     (mk_pymol (h_atoms (host w)) (h_selections (host w))
        (h_settings (host w)) (h_colors (host w))
        (h_log (host w) ++ [c_sync; c_deselect; c_sync]))
     (st w) (rng w)
     (stdout w
      ++ [py "Unknown option. Type `mt_sele delete` to delete all the mt selections"]))
  /\ mt_sele (Some []) w = mt_sele None w.
Proof.
  intros Hn Hd. split; [|reflexivity].
  destruct w as [[atoms sels settings cols log] s r out].
  destruct option as [|c option]; [contradiction|].
  unfold mt_sele.
  destruct (is_word "delete" (c :: option)) eqn:E.
  { apply str_eqb_eq in E. contradiction. }
  unfold print, cmd_sync, cmd_deselect, log_call, bind, get_host, put_host.
  cbn [host st rng stdout h_atoms h_selections h_settings h_colors h_log].
  cbn [host st rng stdout h_atoms h_selections h_settings h_colors h_log].
  rewrite <- ?app_assoc. reflexivity.
Qed.

Lemma mt_sele_delete_run (w : world) :
  mt_selectors (st w) = Some selectors ->
  mt_sele (Some (py "delete")) w =
  (Ok tt,
   mk_world
     (mk_pymol (h_atoms (host w))
        (without (dict_keys selectors) (h_selections (host w)))
        (h_settings (host w)) (h_colors (host w))
        (h_log (host w) ++ List.map c_delete (dict_keys selectors)
         ++ [c_sync; c_deselect; c_sync]))
     (st w) (rng w) (stdout w)).
Proof.
  destruct w as [[atoms sels settings cols log] s r out].
  cbn [host st rng stdout h_atoms h_selections h_settings h_colors h_log].
  intros H.
  change (mt_sele (Some (py "delete")))
    with ((s0 <- stored_attr "mt_selectors" mt_selectors ;;
           for_each (dict_keys s0) cmd_delete) ;;
          cmd_sync ;; cmd_deselect ;; cmd_sync).
  unfold bind at 1. unfold bind at 1. unfold stored_attr. cbn [st].
  rewrite H. rewrite delete_loop_run.
  unfold cmd_sync, cmd_deselect, log_call, bind, get_host, put_host.
  cbn [host st rng stdout h_atoms h_selections h_settings h_colors h_log].
  rewrite <- !app_assoc. reflexivity.
Qed.


Lemma dict_set_app_r {V} (d e : dict V) (k : pystr) (v : V) :
  dict_get d k = None -> dict_set (d ++ e) k v = d ++ dict_set e k v.
Proof.
  induction d as [|[k' v'] d IH]; simpl; [reflexivity|].
  destruct (str_eqb k' k); [discriminate|].
  intros H. now rewrite IH.
Qed.

Lemma dict_set_keys {V} (e : dict V) (k : pystr) (v : V) (kv : pystr * V) :
  In kv (dict_set e k v) -> fst kv = k \/ In (fst kv) (dict_keys e).
Proof.
  induction e as [|[k' v'] e IH]; simpl.
  - intros [<-|[]]. now left.
  - destruct (str_eqb k' k) eqn:E; simpl.
    + intros [<-|I]; right; [now left|right; now apply in_map].
    + intros [<-|I]; [right; now left|].
      destruct (IH I) as [->|I']; [now left|right; now right].
Qed.

Lemma cmd_select_inv (name logic : pystr) (w w' : world) (a : unit) :
  cmd_select name logic w = (Ok a, w') ->
  exists l,
    w' = mk_world
           (mk_pymol (h_atoms (host w))
              (dict_set (h_selections (host w)) name l)
              (h_settings (host w)) (h_colors (host w))
              (h_log (host w) ++ [c_select name logic]))
           (st w) (rng w) (stdout w).
Proof.
  destruct w as [[atoms sels settings cols log] s r out].
  unfold cmd_select, log_call, resolve, put_selections, bind, get_host,
    put_host, ret, raise.
  cbn [host st rng stdout h_atoms h_selections h_settings h_colors h_log].
  destruct (sel_eval atoms sels logic) as [l|]; [|discriminate].
  intros H. injection H as _ <-. now exists l.
Qed.

(** The selections a run of the select loop leaves, when it started from
    selections [base ++ e] and none of its names is a key of [base]. *)
Lemma select_loop_shape (items : dict pystr) :
  forall w w' a (base e : dict (list nat)),
    for_each items (fun item => cmd_select (fst item) (snd item)) w =
      (Ok a, w') ->
    h_selections (host w) = base ++ e ->
    (forall name, In name (dict_keys items) -> dict_get base name = None) ->
    exists e',
      h_selections (host w') = base ++ e' /\
      h_atoms (host w') = h_atoms (host w) /\
      forall kv, In kv e' ->
                 In (fst kv) (dict_keys e) \/ In (fst kv) (dict_keys items).
Proof.
  induction items as [|[n logic] items IH]; intros w w' a base e H Hb Hn.
  - cbn [for_each] in H. injection H as _ <-. exists e.
    split; [exact Hb|]. split; [reflexivity|].
    intros kv I. left. now apply in_map.
  - cbn [for_each fst snd] in H. unfold bind in H.
    destruct (cmd_select n logic w) as [[u|x] w1] eqn:E; [|discriminate].
    destruct (cmd_select_inv n logic w w1 u E) as (l & ->).
    assert (Hb1 : h_selections
                    (host (mk_world
                             (mk_pymol (h_atoms (host w))
                                (dict_set (h_selections (host w)) n l)
                                (h_settings (host w)) (h_colors (host w))
                                (h_log (host w) ++ [c_select n logic]))
                             (st w) (rng w) (stdout w))) =
                  base ++ dict_set e n l).
    { cbn [host h_selections]. rewrite Hb. apply dict_set_app_r.
      apply Hn. now left. }
    destruct (IH _ _ _ base (dict_set e n l) H Hb1
                 (fun name I => Hn name (or_intror I)))
      as (e' & S & A & K).
    exists e'. split; [exact S|]. split; [exact A|].
    intros kv I. destruct (K kv I) as [I'|I'].
    + apply in_map_iff in I' as (kv' & F & I').
      destruct (dict_set_keys e n l kv' I') as [X|I''].
      * right. left. cbn [fst]. congruence.
      * left. now rewrite <- F.
    + right. now right.
Qed.

Lemma without_app_base {V} (names : list pystr) (base e : dict V) :
  (forall name, In name names -> dict_get base name = None) ->
  (forall kv, In kv e -> In (fst kv) names) ->
  without names (base ++ e) = base.
Proof.
  intros Hb He. unfold without. rewrite filter_app.
  assert (B : filter (fun kv => negb (existsb (str_eqb (fst kv)) names)) base
              = base).
  { clear He. induction base as [|[k v] base IH]; [reflexivity|].
    simpl. assert (N : existsb (str_eqb k) names = false).
    { destruct (existsb (str_eqb k) names) eqn:X; [|reflexivity].
      apply existsb_exists in X as (n & I & X). apply str_eqb_eq in X.
      subst n. specialize (Hb k I). simpl in Hb.
      now rewrite str_eqb_refl in Hb. }
    rewrite N. simpl. f_equal. apply IH. intros name I.
    specialize (Hb name I). simpl in Hb.
    destruct (str_eqb k name); [discriminate|exact Hb]. }
  assert (E : filter (fun kv => negb (existsb (str_eqb (fst kv)) names)) e
              = []).
  { induction e as [|kv e IH]; [reflexivity|].
    simpl. assert (X : existsb (str_eqb (fst kv)) names = true).
    { apply existsb_exists. exists (fst kv).
      split; [apply He; now left|apply str_eqb_refl]. }
    rewrite X. simpl. apply IH. intros kv' I. apply He. now right. }
  rewrite B, E. apply app_nil_r.
Qed.

(** X8.  Making the selections and deleting them is a round trip: when
    no selection of the host bears a name of the registry, [mt_sele()]
    followed by [mt_sele delete] leaves the selections and the atoms as
    they were. *)
Theorem mt_sele_then_delete (w w1 : world) :
  mt_selectors (st w) = Some selectors ->
  (forall name, In name (dict_keys selectors) ->
                dict_get (h_selections (host w)) name = None) ->
  mt_sele None w = (Ok tt, w1) ->
  exists w2,
    mt_sele (Some (py "delete")) w1 = (Ok tt, w2) /\
    h_selections (host w2) = h_selections (host w) /\
    h_atoms (host w2) = h_atoms (host w).
Proof.
  intros H Hn E.
  assert (R : mt_sele None w =
              (for_each selectors (fun item => cmd_select (fst item) (snd item)) ;;
               cmd_sync ;; cmd_deselect ;; cmd_sync) w).
  { unfold mt_sele, bind, stored_attr. rewrite H. reflexivity. }
  rewrite R in E. unfold bind at 1 in E.
  destruct (for_each selectors _ w) as [[u|x] wa] eqn:L; [|discriminate].
  destruct (select_loop_shape selectors w wa u (h_selections (host w)) []
              L (eq_sym (app_nil_r _)) Hn) as (e' & S & A & K).
  assert (St : st w1 = st w /\ h_selections (host w1) = h_selections (host wa)
               /\ h_atoms (host w1) = h_atoms (host wa)).
  { unfold cmd_sync, cmd_deselect, log_call, bind, get_host, put_host in E.
    injection E as <-. cbn [st host h_selections h_atoms].
    split; [|split; reflexivity].
    pose proof (keeps_for_each selectors
                  (fun item => cmd_select (fst item) (snd item))
                  (fun item => keeps_cmd_select sel_eval (fst item) (snd item)) w)
      as Ks.
    rewrite L in Ks. exact Ks. }
  destruct St as (St & Ss & Sa).
  eexists. split; [apply mt_sele_delete_run; now rewrite St|].
  cbn [host h_selections h_atoms]. rewrite Ss, Sa, S, A.
  split; [|reflexivity].
  apply without_app_base; [exact Hn|].
  intros kv I. destruct (K kv I) as [[]|I']; exact I'.
Qed.

End MtSeleFacts.

(** ** [mt_sele] in the fragment of the selection language *)

Lemma updated_other {V} (items d : dict V) (k : pystr) :
  ~ In k (dict_keys items) ->
  dict_get (updated items d) k = dict_get d k.
Proof.
  revert d. induction items as [|[n v] items IH]; intros d H; [reflexivity|].
  unfold updated in *. simpl in *. rewrite IH by tauto.
  apply dict_get_set_other. tauto.
Qed.

Lemma updated_in {V} (items d : dict V) (k : pystr) (v : V) :
  NoDup (dict_keys items) -> In (k, v) items ->
  dict_get (updated items d) k = Some v.
Proof.
  revert d. induction items as [|[n v'] items IH]; intros d D I; [contradiction|].
  simpl in D. inversion D as [|? ? Hn Hd]; subst.
  change (updated ((n, v') :: items) d) with (updated items (dict_set d n v')).
  destruct I as [I|I].
  - injection I as -> ->.
    rewrite (updated_other items _ k Hn). apply dict_get_set_same.
  - now apply IH.
Qed.

Lemma updated_fixed {V} (items d : dict V) :
  (forall k v, In (k, v) items -> dict_get d k = Some v) ->
  updated items d = d.
Proof.
  induction items as [|[n v] items IH]; intros H; [reflexivity|].
  unfold updated in *. simpl.
  rewrite dict_set_same by (apply H; now left).
  apply IH. intros k v' I. apply H. now right.
Qed.

Lemma registry_values_distinct atoms :
  NoDup (dict_keys (registry_values atoms)).
Proof.
  unfold registry_values, dict_keys. rewrite map_map. cbn [List.map fst].
  apply distinctb_NoDup. vm_compute. reflexivity.
Qed.

(** [mt_sele()] with the registry in place, in the fragment: the state it
    leaves. *)
Lemma mt_sele_resolved (w : world) :
  mt_selectors (st w) = Some selectors ->
  mt_sele pymol_select None w =
  (Ok tt,
   mk_world
     (mk_pymol (h_atoms (host w))
        (updated (registry_values (h_atoms (host w))) (h_selections (host w)))
        (h_settings (host w)) (h_colors (host w))
        (h_log (host w)
         ++ List.map (fun item => c_select (fst item) (snd item)) selectors
         ++ [c_sync; c_deselect; c_sync]))
     (st w) (rng w) (stdout w)).
Proof.
  destruct w as [[atoms sels settings cols log] s r out].
  cbn [host st rng stdout h_atoms h_selections h_settings h_colors h_log].
  intros H.
  unfold mt_sele. unfold bind at 1. unfold bind at 1.
  unfold stored_attr. cbn [st]. rewrite H.
  unfold selectors at 1. cbn [for_each fst snd].
  unfold bind at 1. rewrite (cmd_select_run _ _ _ _ _ _ _ _ _ _ _ (select_protein _ _)).
  unfold bind at 1. rewrite (cmd_select_run _ _ _ _ _ _ _ _ _ _ _ (select_BB _ _)).
  unfold bind at 1. rewrite (cmd_select_run _ _ _ _ _ _ _ _ _ _ _ (select_SC _ _)).
  unfold bind at 1. rewrite (cmd_select_run _ _ _ _ _ _ _ _ _ _ _ (select_solv _ _)).
  unfold bind at 1. rewrite (cmd_select_run _ _ _ _ _ _ _ _ _ _ _ (select_ions _ _)).
  unfold bind at 1.
  rewrite (cmd_select_run _ _ _ _ _ _ _ _ _ _ _
             (select_lip _ _ _ (dict_get_set_same _ _ _))).
  unfold bind at 1. rewrite (cmd_select_run _ _ _ _ _ _ _ _ _ _ _ (select_nucl _ _)).
  unfold ret at 1.
  unfold cmd_sync, cmd_deselect, log_call, bind, get_host, put_host.
  cbn [host st rng stdout h_atoms h_selections h_settings h_colors h_log].
  unfold selectors. cbn [List.map fst snd].
  rewrite <- !app_assoc. reflexivity.
Qed.


(** ** More on the color allocator *)

Lemma alter_atoms_none (member : nat -> bool) (f : atom -> result atom)
      (l : list atom) :
  forall i,
    (forall j a, nth_error l j = Some a -> member (i + j) = false) ->
    alter_atoms member f i l = (l, None).
Proof.
  induction l as [|a l IH]; intros i H; [reflexivity|].
  cbn [alter_atoms]. rewrite <- (Nat.add_0_r i) at 1.
  rewrite (H 0 a eq_refl). rewrite IH; [reflexivity|].
  intros j b Hj. replace (S i + j) with (i + S j) by lia.
  exact (H (S j) b Hj).
Qed.

Lemma iterate_atoms_none (member : nat -> bool) (body : atom -> M unit)
      (l : list atom) (w : world) :
  forall i,
    (forall j a, nth_error l j = Some a -> member (i + j) = false) ->
    iterate_atoms member body i l w = (Ok tt, w).
Proof.
  induction l as [|a l IH]; intros i H; [reflexivity|].
  cbn [iterate_atoms]. rewrite <- (Nat.add_0_r i) at 1.
  rewrite (H 0 a eq_refl). unfold bind, ret. rewrite IH; [reflexivity|].
  intros j b Hj. replace (S i + j) with (i + S j) by lia.
  exact (H (S j) b Hj).
Qed.

Lemma iterate_atoms_fails (member : nat -> bool) (body : atom -> M unit)
      (l : list atom) (w : world) (e : exn) :
  (forall a, body a w = (Raise e, w)) ->
  forall i,
    (exists j a, nth_error l j = Some a /\ member (i + j) = true) ->
    iterate_atoms member body i l w = (Raise e, w).
Proof.
  intros Hb. induction l as [|a l IH]; intros i (j & b & Hj & Hm).
  - destruct j; discriminate.
  - cbn [iterate_atoms]. unfold bind. destruct (member i) eqn:Mi.
    + now rewrite Hb.
    + unfold ret. apply IH. destruct j as [|j].
      * rewrite Nat.add_0_r in Hm. congruence.
      * exists j, b. split; [exact Hj|].
        now replace (S i + j) with (i + S j) by lia.
Qed.

Section AssignLast.

Variable member : nat -> bool.
Variable key : atom -> option pystr.
Variable pal : list Z.

(** A key that no atom of the selection has keeps its entry. *)
Lemma assign_untouched (l : list atom) (k : pystr) :
  forall r i d,
    (forall j b, nth_error l j = Some b -> member (i + j) = true ->
                 key b <> Some k) ->
    dict_get (assign member key pal r i l d) k = dict_get d k.
Proof.
  induction l as [|a l IH]; intros r i d H; [reflexivity|].
  assert (H' : forall j b, nth_error l j = Some b ->
                           member (S i + j) = true -> key b <> Some k).
  { intros j b Hj Hm. apply (H (S j) b Hj).
    now replace (i + S j) with (S i + j) by lia. }
  cbn [assign]. destruct (member i) eqn:Mi; [|now apply IH].
  destruct (key a) as [ka|] eqn:Ka; [|reflexivity].
  rewrite IH by exact H'. apply dict_get_set_other.
  intros ->. apply (H 0 a eq_refl); [now rewrite Nat.add_0_r|exact Ka].
Qed.

(** The entry of a key is the draw made at the last atom of the selection
    that has the key. *)
Lemma assign_last (l : list atom) (k : pystr) :
  forall r i d j a,
    (forall j b, nth_error l j = Some b -> member (i + j) = true ->
                 key b <> None) ->
    nth_error l j = Some a -> member (i + j) = true -> key a = Some k ->
    (forall j' b, j < j' -> nth_error l j' = Some b ->
                  member (i + j') = true -> key b <> Some k) ->
    dict_get (assign member key pal r i l d) k =
    Some (pick pal (r (count_sel member i (firstn j l)))).
Proof.
  induction l as [|x l IH]; intros r i d j a D Hj Hm Hk Hl.
  - destruct j; discriminate.
  - assert (D' : forall j b, nth_error l j = Some b ->
                             member (S i + j) = true -> key b <> None).
    { intros j' b E M. apply (D (S j') b E).
      now replace (i + S j') with (S i + j') by lia. }
    destruct j as [|j].
    + cbn [nth_error] in Hj. injection Hj as ->.
      rewrite Nat.add_0_r in Hm.
      cbn [assign firstn count_sel]. rewrite Hm, Hk.
      rewrite assign_untouched; [apply dict_get_set_same|].
      intros j' b E M. apply (Hl (S j') b); [lia|exact E|].
      now replace (i + S j') with (S i + j') by lia.
    + cbn [nth_error] in Hj.
      replace (i + S j) with (S i + j) in Hm by lia.
      assert (Hl' : forall j' b, j < j' -> nth_error l j' = Some b ->
                                 member (S i + j') = true -> key b <> Some k).
      { intros j' b L E M. apply (Hl (S j') b); [lia|exact E|].
        now replace (i + S j') with (S i + j') by lia. }
      cbn [assign firstn count_sel]. destruct (member i) eqn:Mi.
      * destruct (key x) as [kx|] eqn:Kx.
        -- rewrite (IH (shift 1 r) (S i) _ j a D' Hj Hm Hk Hl').
           reflexivity.
        -- exfalso. apply (D 0 x eq_refl); [now rewrite Nat.add_0_r|exact Kx].
      * rewrite (IH r (S i) d j a D' Hj Hm Hk Hl'). reflexivity.
Qed.

End AssignLast.

Section ColorMore.

Variable sel_eval : list atom -> dict (list nat) -> pystr -> option (list nat).
Variable attr_eval : pystr -> atom -> option pystr.

Abbreviation mt_color := (mt_color sel_eval attr_eval).

(** X10.  On a selection that holds no atom, [mt_color] returns without
    a draw and without changing an atom, even when no palette was ever
    registered; the host still receives iterate, alter, sync, recolor,
    sync. *)
Theorem mt_color_empty_selection (method selection : pystr) (w : world)
        (m : list nat) :
  sel_eval (h_atoms (host w)) (h_selections (host w)) selection = Some m ->
  (forall j a, nth_error (h_atoms (host w)) j = Some a ->
               mem_index m j = false) ->
  mt_color method selection w =
  (Ok tt,
   mk_world
     (mk_pymol (h_atoms (host w)) (h_selections (host w))
        (h_settings (host w)) (h_colors (host w))
        (h_log (host w)
         ++ rule_calls selection (Some (f_mt_color, [method]))))
     (mk_stored (mt_colors (st w)) (mt_selectors (st w)) (mt_nice_set (st w))
                (Some []))
     (rng w) (stdout w)).
Proof.
  destruct w as [[atoms sels settings cols log] [mc ms mn td] r out].
  cbn [host st rng stdout h_atoms h_selections h_settings h_colors h_log
       mt_colors mt_selectors mt_nice_set].
  intros Hs Hm.
  unfold mt_color.
  unfold bind at 1. unfold set_tmp_dict at 1.
  unfold bind at 1, get_stored, put_stored.
  cbn [st host rng stdout mt_colors mt_selectors mt_nice_set].
  unfold bind at 1. unfold cmd_iterate.
  unfold bind at 1. unfold log_call at 1.
  unfold bind at 1, get_host, put_host.
  cbn [st host rng stdout h_atoms h_selections h_settings h_colors h_log].
  unfold bind at 1. unfold resolve at 1.
  unfold bind at 1, get_host.
  cbn [st host rng stdout h_atoms h_selections h_settings h_colors h_log].
  rewrite Hs. unfold ret at 1. unfold bind at 1.
  cbn [st host rng stdout h_atoms h_selections h_settings h_colors h_log].
  rewrite iterate_atoms_none by exact Hm.
  unfold bind at 1. unfold stored_attr at 1. cbn [st tmp_dict].
  unfold bind at 1. unfold cmd_alter.
  unfold bind at 1. unfold log_call at 1.
  unfold bind at 1, get_host, put_host.
  cbn [st host rng stdout h_atoms h_selections h_settings h_colors h_log].
  unfold bind at 1. unfold resolve at 1.
  unfold bind at 1, get_host.
  cbn [st host rng stdout h_atoms h_selections h_settings h_colors h_log].
  rewrite Hs. unfold ret at 1. unfold bind at 1.
  cbn [st host rng stdout h_atoms h_selections h_settings h_colors h_log].
  rewrite alter_atoms_none by exact Hm.
  unfold cmd_sync, cmd_recolor, log_call, set_tmp_dict, put_atoms,
    bind, get_host, put_host, get_stored, put_stored, ret.
  cbn [st host rng stdout h_atoms h_selections h_settings h_colors h_log
       mt_colors mt_selectors mt_nice_set rule_calls].
  rewrite <- !app_assoc. reflexivity.
Qed.

(** X11.  With a selection that holds an atom and no color to draw from,
    [mt_color] raises at the first atom, AttributeError when
    [stored.mt_colors] was never assigned and IndexError when it is empty:
    the host has received the iterate call only, and no atom is
    changed. *)
Theorem mt_color_without_palette (method selection : pystr) (w : world)
        (m : list nat) :
  sel_eval (h_atoms (host w)) (h_selections (host w)) selection = Some m ->
  (exists j a, nth_error (h_atoms (host w)) j = Some a /\
               mem_index m j = true) ->
  mt_colors (st w) = None \/ mt_colors (st w) = Some [] ->
  mt_color method selection w =
  (Raise (match mt_colors (st w) with
          | None => AttributeError (py "mt_colors")
          | Some _ => IndexError
          end),
   mk_world
     (mk_pymol (h_atoms (host w)) (h_selections (host w))
        (h_settings (host w)) (h_colors (host w))
        (h_log (host w)
         ++ [c_iterate selection
               (py "stored.tmp_dict[" ++ method
                ++ py "] = stored.r_choice(stored.mt_colors)")]))
     (mk_stored (mt_colors (st w)) (mt_selectors (st w)) (mt_nice_set (st w))
                (Some []))
     (rng w) (stdout w)).
Proof.
  destruct w as [[atoms sels settings cols log] [mc ms mn td] r out].
  cbn [host st rng stdout h_atoms h_selections h_settings h_colors h_log
       mt_colors mt_selectors mt_nice_set].
  intros Hs Hm Hc.
  unfold mt_color.
  unfold bind at 1. unfold set_tmp_dict at 1.
  unfold bind at 1, get_stored, put_stored.
  cbn [st host rng stdout mt_colors mt_selectors mt_nice_set].
  unfold bind at 1. unfold cmd_iterate.
  unfold bind at 1. unfold log_call at 1.
  unfold bind at 1, get_host, put_host.
  cbn [st host rng stdout h_atoms h_selections h_settings h_colors h_log].
  unfold bind at 1. unfold resolve at 1.
  unfold bind at 1, get_host.
  cbn [st host rng stdout h_atoms h_selections h_settings h_colors h_log].
  rewrite Hs. unfold ret at 1. unfold bind at 1.
  cbn [st host rng stdout h_atoms h_selections h_settings h_colors h_log].
  rewrite (iterate_atoms_fails (mem_index m) _ atoms _
             (match mc with
              | None => AttributeError (py "mt_colors")
              | Some _ => IndexError
              end)); [reflexivity| |exact Hm].
  intros a. destruct Hc as [-> | ->]; reflexivity.
Qed.

(** X12.  A successful [mt_color] changes colors and nothing else: every
    atom is as before up to its color, an atom outside the selection is
    exactly as before, and the selections, the settings, the color table
    and the tables of [pymol.stored] are kept. *)
Theorem mt_color_frame (method selection : pystr) (w : world) (pal : list Z)
        (m : list nat) :
  mt_colors (st w) = Some pal ->
  pal <> [] ->
  sel_eval (h_atoms (host w)) (h_selections (host w)) selection = Some m ->
  (forall i a, mem_index m i = true ->
               nth_error (h_atoms (host w)) i = Some a ->
               attr_eval method a <> None) ->
  exists w1,
    mt_color method selection w = (Ok tt, w1) /\
    (forall j a,
       nth_error (h_atoms (host w)) j = Some a ->
       (exists c, nth_error (h_atoms (host w1)) j = Some (with_color a c)) /\
       (mem_index m j = false -> nth_error (h_atoms (host w1)) j = Some a)) /\
    List.length (h_atoms (host w1)) = List.length (h_atoms (host w)) /\
    h_selections (host w1) = h_selections (host w) /\
    h_settings (host w1) = h_settings (host w) /\
    h_colors (host w1) = h_colors (host w) /\
    mt_colors (st w1) = mt_colors (st w) /\
    mt_selectors (st w1) = mt_selectors (st w) /\
    mt_nice_set (st w1) = mt_nice_set (st w).
Proof.
  intros Hc Hp Hs D.
  destruct (mt_color_run sel_eval attr_eval method selection w pal m
              Hc Hp Hs D) as (atoms' & E & R & N).
  eexists. split; [exact E|].
  cbn [host st h_atoms h_selections h_settings h_colors mt_colors
       mt_selectors mt_nice_set].
  split; [|split; [|repeat split]].
  - intros j a Ha. split.
    + exact (recolored_nth_fwd _ _ j a R Ha).
    + intros Mj. now rewrite N, Ha, Mj.
  - symmetry. exact (Forall2_length R).
  - now rewrite Hc.
Qed.

(** X13.  [mt_color] makes one draw per atom of the selection, not one
    per value of the attribute, and a later draw overwrites an earlier
    one: the color of a value is the draw made at the last atom of the
    selection that has it. *)
Theorem mt_color_last_draw (method selection : pystr) (w : world)
        (pal : list Z) (m : list nat) :
  mt_colors (st w) = Some pal ->
  pal <> [] ->
  sel_eval (h_atoms (host w)) (h_selections (host w)) selection = Some m ->
  (forall i a, mem_index m i = true ->
               nth_error (h_atoms (host w)) i = Some a ->
               attr_eval method a <> None) ->
  exists w1,
    mt_color method selection w = (Ok tt, w1) /\
    rng w1 = shift (count_sel (mem_index m) 0 (h_atoms (host w))) (rng w) /\
    forall i a,
      mem_index m i = true ->
      nth_error (h_atoms (host w)) i = Some a ->
      (forall j b, i < j -> mem_index m j = true ->
                   nth_error (h_atoms (host w)) j = Some b ->
                   attr_eval method b <> attr_eval method a) ->
      color_at w1 i =
      Some (pick pal
              (rng w (count_sel (mem_index m) 0
                        (firstn i (h_atoms (host w)))))).
Proof.
  intros Hc Hp Hs D.
  destruct (mt_color_run sel_eval attr_eval method selection w pal m
              Hc Hp Hs D) as (atoms' & E & R & N).
  eexists. split; [exact E|]. cbn [rng]. split; [reflexivity|].
  intros i a Mi Ai Last.
  unfold color_at. cbn [host h_atoms]. rewrite N, Ai. cbn [option_map].
  rewrite Mi. cbn [a_color with_color]. f_equal. unfold color_of.
  destruct (attr_eval method a) as [k|] eqn:K.
  2:{ exfalso. exact (D i a Mi Ai K). }
  rewrite (assign_last (mem_index m) (attr_eval method) pal
             (h_atoms (host w)) k (rng w) 0 [] i a);
    [reflexivity| | exact Ai | exact Mi | exact K |].
  - intros j b Hj Mj. exact (D j b Mj Hj).
  - intros j b L Hj Mj Kb. apply (Last j b L Mj Hj). now rewrite Kb.
Qed.

End ColorMore.

(** ** What [nice_settings] keeps *)

Lemma index_from_set (tbl : list (pystr * rgb)) (n m : pystr) (v : rgb) :
  forall i p,
    index_from tbl m i = Some p ->
    index_from (dict_set tbl n v) m i = Some p.
Proof.
  induction tbl as [|[k u] tbl IH]; intros i p H; [discriminate|].
  cbn [index_from dict_set] in *.
  destruct (str_eqb k n) eqn:En; cbn [index_from].
  - exact H.
  - destruct (str_eqb k m); [exact H|now apply IH].
Qed.

Lemma registered_index (l tbl : list (pystr * rgb)) (m : pystr) (p : Z) :
  color_index tbl m = Some p -> color_index (registered l tbl) m = Some p.
Proof.
  revert tbl. induction l as [|[n v] l IH]; intros tbl H; [exact H|].
  unfold registered in *. cbn [fold_left fst snd]. apply IH.
  unfold color_index, set_color in *. now apply index_from_set.
Qed.

Lemma dict_set_length {V} (d : dict V) (k : pystr) (v : V) :
  List.length (dict_set d k v) <= S (List.length d).
Proof.
  induction d as [|[k' v'] d IH]; simpl; [lia|].
  destruct (str_eqb k' k); simpl; lia.
Qed.

Lemma registered_length (l tbl : list (pystr * rgb)) :
  List.length (registered l tbl) <= List.length tbl + List.length l.
Proof.
  revert tbl. induction l as [|[n v] l IH]; intros tbl; [simpl; lia|].
  unfold registered in *. cbn [fold_left fst snd List.length].
  specialize (IH (set_color tbl n v)).
  pose proof (dict_set_length tbl n v). unfold set_color in *. lia.
Qed.

(** X14.  [nice_settings] adds to the color table and takes nothing from
    it: every color name known before keeps its handle, a name other than
    mt_color_0 to mt_color_25 keeps its value, and the table grows by at
    most 26 entries.  Atoms, selections and settings are not touched. *)
Theorem nice_settings_keeps_colors (w : world) :
  exists w',
    nice_settings w = (Ok tt, w') /\
    (forall name p,
       color_index (h_colors (host w)) name = Some p ->
       color_index (h_colors (host w')) name = Some p) /\
    (forall name,
       (forall i, i < 26 -> name <> col_name i) ->
       dict_get (h_colors (host w')) name = dict_get (h_colors (host w)) name) /\
    List.length (h_colors (host w')) <= List.length (h_colors (host w)) + 26 /\
    h_atoms (host w') = h_atoms (host w) /\
    h_selections (host w') = h_selections (host w) /\
    h_settings (host w') = h_settings (host w).
Proof.
  eexists. split; [apply nice_settings_run|].
  cbn [host h_colors h_atoms h_selections h_settings].
  split; [|split; [|split; [|repeat split]]].
  - intros name p H. now apply registered_index.
  - intros name H. apply registered_other.
    change (List.map fst (named 0 colors)) with (List.map col_name (seq 0 26)).
    intros I. apply in_map_iff in I as (i & E & I).
    apply in_seq in I. apply (H i); [lia|now symmetry].
  - apply (registered_length (named 0 colors)).
Qed.

(** ** What the preset engine keeps of the host *)

Lemma same_bead_refl (a : atom) : same_bead a a.
Proof. repeat split. Qed.

Lemma same_bead_trans (a b c : atom) :
  same_bead a b -> same_bead b c -> same_bead a c.
Proof.
  unfold same_bead. intros H1 H2.
  destruct H1 as (A1 & A2 & A3 & A4 & A5 & A6 & A7 & A8).
  destruct H2 as (B1 & B2 & B3 & B4 & B5 & B6 & B7 & B8).
  repeat split; congruence.
Qed.

Lemma same_beads_refl (l : list atom) : Forall2 same_bead l l.
Proof. induction l; constructor; [apply same_bead_refl|assumption]. Qed.

Lemma same_beads_trans (l1 l2 l3 : list atom) :
  Forall2 same_bead l1 l2 -> Forall2 same_bead l2 l3 -> Forall2 same_bead l1 l3.
Proof.
  intros H. revert l3. induction H as [|a b l l' Hab _ IH]; intros l3 H'.
  - inversion H'. constructor.
  - inversion H' as [|x y t t' Hbc H'']; subst.
    constructor; [eapply same_bead_trans; eassumption|now apply IH].
Qed.

Lemma alter_atoms_same_beads (member : nat -> bool) (f : atom -> result atom)
      (l : list atom) :
  (forall a a', f a = Ok a' -> same_bead a a') ->
  forall i, Forall2 same_bead l (fst (alter_atoms member f i l)).
Proof.
  intros H. induction l as [|a l IH]; intros i; cbn [alter_atoms].
  - constructor.
  - specialize (IH (S i)). destruct (member i).
    + destruct (f a) as [a'|e] eqn:F.
      * destruct (alter_atoms member f (S i) l) as [t' e]. simpl in *.
        constructor; [now apply H|exact IH].
      * simpl. apply same_beads_refl.
    + destruct (alter_atoms member f (S i) l) as [t' e]. simpl in *.
      constructor; [apply same_bead_refl|exact IH].
Qed.

Section Preserved.

(** A relation between hosts that the log, the selections and a change
    of radius, color or representations do not break. *)
Variable R : pymol -> pymol -> Prop.
Hypothesis R_refl : forall h, R h h.
Hypothesis R_trans : forall h1 h2 h3, R h1 h2 -> R h2 h3 -> R h1 h3.
Hypothesis R_log :
  forall h c, R h (mk_pymol (h_atoms h) (h_selections h) (h_settings h)
                            (h_colors h) (h_log h ++ [c])).
Hypothesis R_selections :
  forall h s, R h (mk_pymol (h_atoms h) s (h_settings h) (h_colors h) (h_log h)).
Hypothesis R_atoms :
  forall h l, Forall2 same_bead (h_atoms h) l ->
              R h (mk_pymol l (h_selections h) (h_settings h) (h_colors h)
                            (h_log h)).

Variable word_char : char -> bool.
Variable digit_char : char -> bool.
Variable sel_eval : list atom -> dict (list nat) -> pystr -> option (list nat).
Variable attr_eval : pystr -> atom -> option pystr.

Lemma preserves_quiet {A} (c : M A) :
  (forall w, host (snd (c w)) = host w) -> preserves R c.
Proof. intros H w. rewrite H. apply R_refl. Qed.

Lemma preserves_bind {A B} (c : M A) (k : A -> M B) :
  preserves R c -> (forall a, preserves R (k a)) -> preserves R (bind c k).
Proof.
  intros Hc Hk w. unfold bind. specialize (Hc w).
  destruct (c w) as [[a|e] w1]; cbn [snd] in *; [|exact Hc].
  eapply R_trans; [exact Hc|apply Hk].
Qed.

Lemma preserves_for_each {A} (l : list A) (b : A -> M unit) :
  (forall x, preserves R (b x)) -> preserves R (for_each l b).
Proof.
  intros H. induction l as [|x l IH]; cbn [for_each].
  - apply preserves_quiet. reflexivity.
  - apply preserves_bind; [apply H|intros _; exact IH].
Qed.

Lemma preserves_ret {A} (a : A) : preserves R (ret a).
Proof. apply preserves_quiet. reflexivity. Qed.

Lemma preserves_raise {A} (e : exn) : preserves R (@raise world A e).
Proof. apply preserves_quiet. reflexivity. Qed.

Lemma preserves_get_host : preserves R get_host.
Proof. apply preserves_quiet. reflexivity. Qed.

Lemma preserves_stored_attr {A} name (field : stored -> option A) :
  preserves R (stored_attr name field).
Proof.
  apply preserves_quiet. intros w. unfold stored_attr.
  now destruct (field (st w)).
Qed.

Lemma preserves_set_tmp_dict d : preserves R (set_tmp_dict d).
Proof. apply preserves_quiet. reflexivity. Qed.

Lemma preserves_random_choice seq : preserves R (random_choice seq).
Proof. apply preserves_quiet. intros w. now destruct seq. Qed.

Lemma preserves_print line : preserves R (print line).
Proof. apply preserves_quiet. reflexivity. Qed.

Lemma preserves_log_call c : preserves R (log_call c).
Proof. intros w. apply R_log. Qed.

Lemma preserves_put_selections s : preserves R (put_selections s).
Proof. intros w. apply R_selections. Qed.

Lemma preserves_resolve s : preserves R (resolve sel_eval s).
Proof.
  apply preserves_quiet. intros w. unfold resolve, bind, get_host.
  now destruct (sel_eval _ _ s).
Qed.

Lemma preserves_iterate_atoms member body l :
  (forall a, preserves R (body a)) ->
  forall i, preserves R (iterate_atoms member body i l).
Proof.
  intros H. induction l as [|a l IH]; intros i; cbn [iterate_atoms].
  - apply preserves_ret.
  - apply preserves_bind; [|intros _; apply IH].
    destruct (member i); [apply H|apply preserves_ret].
Qed.

Lemma preserves_cmd_sync : preserves R cmd_sync.
Proof. apply preserves_log_call. Qed.

Lemma preserves_cmd_deselect : preserves R cmd_deselect.
Proof. apply preserves_log_call. Qed.

Lemma preserves_cmd_recolor : preserves R cmd_recolor.
Proof. apply preserves_log_call. Qed.

Lemma preserves_cmd_select name logic :
  preserves R (cmd_select sel_eval name logic).
Proof.
  unfold cmd_select.
  apply preserves_bind; [apply preserves_log_call|intros _].
  apply preserves_bind; [apply preserves_resolve|intros l].
  apply preserves_bind; [apply preserves_get_host|intros h].
  apply preserves_put_selections.
Qed.

Lemma preserves_cmd_delete name : preserves R (cmd_delete name).
Proof.
  unfold cmd_delete.
  apply preserves_bind; [apply preserves_log_call|intros _].
  apply preserves_bind; [apply preserves_get_host|intros h].
  apply preserves_put_selections.
Qed.

Lemma preserves_altered (w : world) (c : call) (l : list atom) :
  Forall2 same_bead (h_atoms (host w)) l ->
  R (host w)
    (mk_pymol l (h_selections (host w)) (h_settings (host w))
              (h_colors (host w)) (h_log (host w) ++ [c])).
Proof.
  intros H. eapply R_trans; [apply (R_log (host w) c)|].
  apply (R_atoms
           (mk_pymol (h_atoms (host w)) (h_selections (host w))
                     (h_settings (host w)) (h_colors (host w))
                     (h_log (host w) ++ [c])) l H).
Qed.

Lemma preserves_cmd_alter s e f :
  (forall a a', f a = Ok a' -> same_bead a a') ->
  preserves R (cmd_alter sel_eval s e f).
Proof.
  intros H w.
  unfold cmd_alter, log_call, resolve, put_atoms, bind, get_host, put_host,
    ret, raise.
  cbn [host st rng stdout h_atoms h_selections h_settings h_colors h_log fst snd].
  destruct (sel_eval (h_atoms (host w)) (h_selections (host w)) s) as [l|];
    [|apply R_log].
  cbn [host st rng stdout h_atoms h_selections h_settings h_colors h_log fst snd].
  pose proof (alter_atoms_same_beads (mem_index l) f (h_atoms (host w)) H 0)
    as B.
  destruct (alter_atoms (mem_index l) f 0 (h_atoms (host w))) as [atoms' x].
  cbn [fst] in B.
  destruct x as [x|];
    cbn [host st rng stdout h_atoms h_selections h_settings h_colors h_log
         fst snd];
    apply preserves_altered; exact B.
Qed.

Lemma preserves_cmd_iterate s e body :
  (forall a, preserves R (body a)) ->
  preserves R (cmd_iterate sel_eval s e body).
Proof.
  intros H. unfold cmd_iterate.
  apply preserves_bind; [apply preserves_log_call|intros _].
  apply preserves_bind; [apply preserves_resolve|intros l].
  apply preserves_bind; [apply preserves_get_host|intros h].
  now apply preserves_iterate_atoms.
Qed.

Lemma preserves_cmd_color color s : preserves R (cmd_color sel_eval color s).
Proof.
  intros w.
  unfold cmd_color, log_call, resolve, put_atoms, bind, get_host, put_host,
    ret, raise.
  cbn [host st rng stdout h_atoms h_selections h_settings h_colors h_log fst snd].
  destruct (color_index (h_colors (host w)) color) as [idx|]; [|apply R_log].
  cbn [host st rng stdout h_atoms h_selections h_settings h_colors h_log fst snd].
  destruct (sel_eval (h_atoms (host w)) (h_selections (host w)) s) as [l|];
    [|apply R_log].
  cbn [host st rng stdout h_atoms h_selections h_settings h_colors h_log fst snd].
  apply preserves_altered. apply alter_atoms_same_beads.
  intros a a' E. injection E as <-. repeat split.
Qed.

Lemma preserves_cmd_show_as rep s : preserves R (cmd_show_as sel_eval rep s).
Proof.
  intros w.
  unfold cmd_show_as, log_call, resolve, put_atoms, bind, get_host, put_host,
    ret, raise.
  cbn [host st rng stdout h_atoms h_selections h_settings h_colors h_log fst snd].
  destruct (sel_eval (h_atoms (host w)) (h_selections (host w)) s) as [l|];
    [|apply R_log].
  cbn [host st rng stdout h_atoms h_selections h_settings h_colors h_log fst snd].
  apply preserves_altered. apply alter_atoms_same_beads.
  intros a a' E. injection E as <-. repeat split.
Qed.

Lemma preserves_cmd_hide rep s : preserves R (cmd_hide sel_eval rep s).
Proof.
  intros w.
  unfold cmd_hide, log_call, resolve, put_atoms, bind, get_host, put_host,
    ret, raise.
  cbn [host st rng stdout h_atoms h_selections h_settings h_colors h_log fst snd].
  destruct (sel_eval (h_atoms (host w)) (h_selections (host w)) s) as [l|];
    [|apply R_log].
  cbn [host st rng stdout h_atoms h_selections h_settings h_colors h_log fst snd].
  apply preserves_altered. apply alter_atoms_same_beads.
  intros a a' E. injection E as <-. repeat split.
Qed.

Lemma preserves_mt_color method s :
  preserves R (mt_color sel_eval attr_eval method s).
Proof.
  unfold mt_color.
  apply preserves_bind; [apply preserves_set_tmp_dict|intros _].
  apply preserves_bind.
  { apply preserves_cmd_iterate. intros a.
    apply preserves_bind; [apply preserves_stored_attr|intros pal].
    apply preserves_bind; [apply preserves_random_choice|intros c].
    apply preserves_bind; [apply preserves_stored_attr|intros d].
    destruct (attr_eval method a);
      [apply preserves_set_tmp_dict|apply preserves_raise]. }
  intros _.
  apply preserves_bind; [apply preserves_stored_attr|intros d].
  apply preserves_bind.
  { apply preserves_cmd_alter. intros a a'.
    destruct (attr_eval method a) as [k|]; [|discriminate].
    destruct (dict_get d k); [|discriminate].
    intros E. injection E as <-. repeat split. }
  intros _.
  apply preserves_bind; [apply preserves_cmd_sync|intros _].
  apply preserves_bind; [apply preserves_set_tmp_dict|intros _].
  apply preserves_bind; [apply preserves_cmd_recolor|intros _].
  apply preserves_cmd_sync.
Qed.

Lemma preserves_set_vdw s :
  preserves R (set_vdw word_char digit_char sel_eval s).
Proof.
  unfold set_vdw. apply preserves_bind; [|intros _; apply preserves_cmd_sync].
  apply preserves_cmd_alter. intros a a' E. injection E as <-. repeat split.
Qed.

Lemma preserves_mt_sele option : preserves R (mt_sele sel_eval option).
Proof.
  unfold mt_sele. apply preserves_bind.
  - assert (S : preserves R
                  (s <- stored_attr "mt_selectors" mt_selectors ;;
                   for_each s (fun item =>
                                 cmd_select sel_eval (fst item) (snd item)))).
    { apply preserves_bind; [apply preserves_stored_attr|intros s].
      apply preserves_for_each. intros x. apply preserves_cmd_select. }
    destruct option as [[|c d]|]; try exact S.
    destruct (is_word "delete" (c :: d)); [|apply preserves_print].
    apply preserves_bind; [apply preserves_stored_attr|intros s].
    apply preserves_for_each. intros x. apply preserves_cmd_delete.
  - intros _.
    apply preserves_bind; [apply preserves_cmd_sync|intros _].
    apply preserves_bind; [apply preserves_cmd_deselect|intros _].
    apply preserves_cmd_sync.
Qed.

Lemma preserves_call_command f args scope :
  preserves R (call_command sel_eval attr_eval f args scope).
Proof.
  destruct f, args as [|x [|y args]]; cbn [call_command];
    try apply preserves_raise.
  - apply preserves_mt_color.
  - apply preserves_cmd_color.
  - apply preserves_cmd_show_as.
  - apply preserves_cmd_hide.
Qed.

(** The part of [mt_nice] after the stick radius was set. *)
Lemma preserves_presets style selection :
  preserves R
    (cmd_sync ;;
     set_vdw word_char digit_char sel_eval selection ;;
     cmd_sync ;;
     table <- stored_attr "mt_nice_set" mt_nice_set ;;
     match dict_get table style with
     | None => raise (KeyError style)
     | Some settings =>
         for_each settings
           (fun item =>
              for_each (dict_values (snd item))
                (fun command =>
                   match command with
                   | Some (f, args) =>
                       call_command sel_eval attr_eval f args
                         (selection ++ py " and " ++ fst item)
                   | None => ret tt
                   end))
     end).
Proof.
  apply preserves_bind; [apply preserves_cmd_sync|intros _].
  apply preserves_bind; [apply preserves_set_vdw|intros _].
  apply preserves_bind; [apply preserves_cmd_sync|intros _].
  apply preserves_bind; [apply preserves_stored_attr|intros table].
  destruct (dict_get table style) as [settings|]; [|apply preserves_raise].
  apply preserves_for_each. intros item.
  apply preserves_for_each. intros [[f args]|];
    [apply preserves_call_command|apply preserves_ret].
Qed.

End Preserved.

Lemma restyled_refl (h : pymol) : restyled h h.
Proof. split; [reflexivity|apply same_beads_refl]. Qed.

Lemma restyled_trans (h1 h2 h3 : pymol) :
  restyled h1 h2 -> restyled h2 h3 -> restyled h1 h3.
Proof.
  intros [C1 B1] [C2 B2]. split; [congruence|].
  eapply same_beads_trans; eassumption.
Qed.

Lemma restyled_log (h : pymol) (c : call) :
  restyled h (mk_pymol (h_atoms h) (h_selections h) (h_settings h)
                       (h_colors h) (h_log h ++ [c])).
Proof. split; [reflexivity|apply same_beads_refl]. Qed.

Lemma restyled_selections (h : pymol) (s : dict (list nat)) :
  restyled h (mk_pymol (h_atoms h) s (h_settings h) (h_colors h) (h_log h)).
Proof. split; [reflexivity|apply same_beads_refl]. Qed.

Lemma restyled_atoms (h : pymol) (l : list atom) :
  Forall2 same_bead (h_atoms h) l ->
  restyled h (mk_pymol l (h_selections h) (h_settings h) (h_colors h)
                       (h_log h)).
Proof. intros H. split; [reflexivity|exact H]. Qed.

Lemma restyled_cmd_set name value : preserves restyled (cmd_set name value).
Proof. intros w. split; [reflexivity|apply same_beads_refl]. Qed.

Ltac restyled_side :=
  first [ exact restyled_refl | exact restyled_trans | exact restyled_log
        | exact restyled_selections | exact restyled_atoms ].

Section KeptFacts.

Variable word_char : char -> bool.
Variable digit_char : char -> bool.
Variable sel_eval : list atom -> dict (list nat) -> pystr -> option (list nat).
Variable attr_eval : pystr -> atom -> option pystr.

Abbreviation mt_nice := (mt_nice word_char digit_char sel_eval attr_eval).


Lemma cmd_set_run (name : pystr) (value : float) (w : world) :
  cmd_set name value w =
  (Ok tt,
   mk_world
     (mk_pymol (h_atoms (host w)) (h_selections (host w))
        (dict_set (h_settings (host w)) name value) (h_colors (host w))
        (h_log (host w) ++ [c_set name value]))
     (st w) (rng w) (stdout w)).
Proof. reflexivity. Qed.

(** X16.  When [mt_nice] returns on a valid style, the settings of the
    host are the ones it had with stick_radius set to 0.7; no other
    setting is changed.  Whatever the style and the outcome, the settings
    are the old ones or the old ones with that radius. *)
Theorem mt_nice_stick_radius (style selection : pystr) (w : world) :
  (In style valid_styles ->
   forall w', mt_nice style selection w = (Ok tt, w') ->
              h_settings (host w') =
              dict_set (h_settings (host w)) (py "stick_radius") 0.7%float) /\
  (h_settings (host (snd (mt_nice style selection w))) = h_settings (host w) \/
   h_settings (host (snd (mt_nice style selection w))) =
   dict_set (h_settings (host w)) (py "stick_radius") 0.7%float).
Proof.
  assert (Sele : forall w0, h_settings (host (snd (mt_sele sel_eval None w0)))
                            = h_settings (host w0)).
  { apply (preserves_mt_sele same_settings); unfold same_settings;
      intros; cbn [h_settings]; congruence. }
  assert (Rest : forall w0,
             h_settings
               (host (snd
                  ((cmd_sync ;;
                    set_vdw word_char digit_char sel_eval selection ;;
                    cmd_sync ;;
                    table <- stored_attr "mt_nice_set" mt_nice_set ;;
                    match dict_get table style with
                    | None => raise (KeyError style)
                    | Some settings =>
                        for_each settings
                          (fun item =>
                             for_each (dict_values (snd item))
                               (fun command =>
                                  match command with
                                  | Some (f, args) =>
                                      call_command sel_eval attr_eval f args
                                        (selection ++ py " and " ++ fst item)
                                  | None => ret tt
                                  end))
                    end) w0))) = h_settings (host w0)).
  { apply (preserves_presets same_settings); unfold same_settings;
      intros; cbn [h_settings]; congruence. }
  unfold mt_nice.
  destruct (existsb (str_eqb style) valid_styles) eqn:V; cbn [negb].
  - assert (Shape :
              forall r w',
                (mt_sele sel_eval None ;;
                 cmd_set (py "stick_radius") 0.7%float ;;
                 cmd_sync ;;
                 set_vdw word_char digit_char sel_eval selection ;;
                 cmd_sync ;;
                 table <- stored_attr "mt_nice_set" mt_nice_set ;;
                 match dict_get table style with
                 | None => raise (KeyError style)
                 | Some settings =>
                     for_each settings
                       (fun item =>
                          for_each (dict_values (snd item))
                            (fun command =>
                               match command with
                               | Some (f, args) =>
                                   call_command sel_eval attr_eval f args
                                     (selection ++ py " and " ++ fst item)
                               | None => ret tt
                               end))
                 end) w = (r, w') ->
                (r <> Ok tt /\ h_settings (host w') = h_settings (host w)) \/
                h_settings (host w') =
                dict_set (h_settings (host w)) (py "stick_radius") 0.7%float).
    { intros r w' H. unfold bind at 1 in H.
      pose proof (Sele w) as S1.
      destruct (mt_sele sel_eval None w) as [[u|e] w1]; cbn [snd] in S1.
      - right. unfold bind at 1 in H. rewrite cmd_set_run in H.
        match type of H with
        | ?rest ?w2 = _ =>
            pose proof (Rest w2) as S2; rewrite H in S2
        end.
        cbn [snd host h_settings] in S2. now rewrite S2, S1.
      - left. injection H as <- <-. split; [discriminate|exact S1]. }
    split.
    + intros _ w' H. destruct (Shape _ _ H) as [[N _]|E];
        [now contradiction N|exact E].
    + destruct (Shape _ _ (surjective_pairing _)) as [[_ E]|E];
        [now left|now right].
  - split.
    + intros I. exfalso.
      assert (T : existsb (str_eqb style) valid_styles = true).
      { apply (valid_style_cases attr_eval).
        unfold valid_styles in I. simpl in I. intuition. }
      congruence.
    + left. reflexivity.
Qed.

(** X17.  On a valid style before [nice_settings] has run, [mt_nice]
    raises AttributeError at its first read of [stored.mt_selectors]: the
    host has received no call and nothing is changed. *)
Theorem mt_nice_before_load (style selection : pystr) (w : world) :
  In style valid_styles ->
  mt_selectors (st w) = None ->
  mt_nice style selection w = (Raise (AttributeError (py "mt_selectors")), w).
Proof.
  intros I H.
  assert (V : existsb (str_eqb style) valid_styles = true).
  { apply (valid_style_cases attr_eval).
    unfold valid_styles in I. simpl in I. intuition. }
  unfold mt_nice. rewrite V. cbn [negb].
  unfold bind at 1. unfold mt_sele. unfold bind at 1. unfold bind at 1.
  unfold stored_attr. now rewrite H.
Qed.

End KeptFacts.

(** ** More on the settings export *)

Lemma dict_set_keys_eq {V} (d : dict V) (k : pystr) (v : V) :
  dict_keys (dict_set d k v) =
  if existsb (str_eqb k) (dict_keys d) then dict_keys d
  else dict_keys d ++ [k].
Proof.
  induction d as [|[k' v'] d IH]; [reflexivity|].
  unfold dict_keys in *.
  cbn [dict_set List.map fst existsb].
  rewrite (str_eqb_sym k k'). destruct (str_eqb k' k); [reflexivity|].
  cbn [List.map fst orb]. rewrite IH.
  now destruct (existsb (str_eqb k) (List.map fst d)).
Qed.

Lemma collect_keys_from (names : list pystr) (get_setting : pystr -> value) :
  forall d : dict value,
    dict_keys (fold_left (fun d n => dict_set d n (get_setting n)) names d) =
    fold_left (fun ks n => if existsb (str_eqb n) ks then ks else ks ++ [n])
              names (dict_keys d).
Proof.
  induction names as [|n names IH]; intros d; [reflexivity|].
  cbn [fold_left]. rewrite IH. now rewrite dict_set_keys_eq.
Qed.

Lemma collect_keys (names : list pystr) (get_setting : pystr -> value) :
  dict_keys (collect_settings names get_setting) = first_seen names.
Proof. apply collect_keys_from. Qed.

Lemma write_setting_values (f1 f2 : float -> pystr) (path key : pystr) :
  write_setting f1 path key = write_setting f2 path key.
Proof. destruct key as [|a [|b [|c key]]]; reflexivity. Qed.

(** X18.  The export never looks at the value of a setting: with the
    same names, two hosts whose settings have different values (and two
    ways of printing a float) give the same outcome and the same files. *)
Theorem store_settings_ignores_values
        (splitext : pystr -> pystr * pystr) (name_list : list pystr)
        (g1 g2 : pystr -> value) (f1 f2 : float -> pystr)
        (filename : pystr) (fs : filesystem) :
  store_settings splitext name_list g1 f1 filename fs =
  store_settings splitext name_list g2 f2 filename fs.
Proof.
  unfold store_settings.
  destruct (negb (str_eqb (snd (splitext filename)) (py ".py")));
    [reflexivity|].
  rewrite !collect_keys.
  apply bind_ext. intros _ fs1. apply bind_ext. intros _ fs2.
  apply for_each_ext. intros key fs3. now rewrite (write_setting_values f1 f2).
Qed.

Lemma write_setting_outcome (f : float -> pystr) (path key : pystr)
      (fs : filesystem) :
  fst (write_setting f path key fs) = Ok tt \/
  fst (write_setting f path key fs) = Raise OSError \/
  exists m, In m unpack_messages /\
            fst (write_setting f path key fs) = Raise (ValueError m).
Proof.
  destruct key as [|a [|b [|c key]]].
  - right. right. eexists. split; [|reflexivity]. simpl. tauto.
  - right. right. eexists. split; [|reflexivity]. simpl. tauto.
  - unfold write_setting. cbn [unpack_pair isinstance_str]. unfold fprint.
    destruct (dict_get (files fs) path); [now left|right; now left].
  - right. right. eexists. split; [|reflexivity]. simpl. tauto.
Qed.

Lemma write_loop_outcome (f : float -> pystr) (path : pystr)
      (keys : list pystr) :
  forall fs,
    fst (for_each keys (write_setting f path) fs) = Ok tt \/
    fst (for_each keys (write_setting f path) fs) = Raise OSError \/
    exists m, In m unpack_messages /\
              fst (for_each keys (write_setting f path) fs) =
              Raise (ValueError m).
Proof.
  induction keys as [|key keys IH]; intros fs; [now left|].
  cbn [for_each]. unfold bind.
  pose proof (write_setting_outcome f path key fs) as H.
  destruct (write_setting f path key fs) as [[u|e] fs1]; cbn [fst] in *.
  - apply IH.
  - destruct H as [H|H]; [discriminate|right; exact H].
Qed.

(** X19.  The export ends in one of four ways: it returns; it raises
    the TypeError of the file name; it raises OSError at the file; or it
    raises the ValueError of unpacking a key into two.  The ValueError
    written for a value that is neither a string nor an int is never
    raised. *)
Theorem store_settings_outcomes
        (splitext : pystr -> pystr * pystr) (name_list : list pystr)
        (get_setting : pystr -> value) (float_str : float -> pystr)
        (filename : pystr) (fs : filesystem) (v : value) :
  let r := fst (store_settings splitext name_list get_setting float_str
                               filename fs) in
  (r = Ok tt \/
   r = Raise (TypeError (filename ++ py " must be a .py file")) \/
   r = Raise OSError \/
   exists m, In m unpack_messages /\ r = Raise (ValueError m)) /\
  r <> Raise (ValueError (format float_str v
                          ++ py " is neither a string nor an int")).
Proof.
  cbv zeta.
  assert (O : let r := fst (store_settings splitext name_list get_setting
                              float_str filename fs) in
              r = Ok tt \/
              r = Raise (TypeError (filename ++ py " must be a .py file")) \/
              r = Raise OSError \/
              exists m, In m unpack_messages /\ r = Raise (ValueError m)).
  { cbv zeta. unfold store_settings.
    destruct (negb (str_eqb (snd (splitext filename)) (py ".py")));
      [right; now left|].
    unfold bind, open_w, fprint. cbv beta.
    destruct (writable fs filename) eqn:W; [|right; right; left; reflexivity].
    cbn [files writable]. rewrite dict_get_set_same.
    match goal with
    | |- context [for_each ?k ?b ?f] =>
        destruct (write_loop_outcome float_str filename k f) as [H|[H|H]]
    end;
      [left|right; right; left|right; right; right];
      destruct (for_each _ _ _) as [r fs']; exact H. }
  split; [exact O|].
  cbv zeta in O. intros E. rewrite E in O.
  destruct O as [O|[O|[O|(m & I & O)]]]; try discriminate.
  injection O as O.
  assert (L : forall m, In m unpack_messages -> hd 0%N (rev m) = 41%N).
  { intros m' I'. unfold unpack_messages in I'. simpl in I'.
    destruct I' as [<-|[<-|[<-|[]]]]; vm_compute; reflexivity. }
  pose proof (L m I) as Lm. rewrite <- O in Lm.
  rewrite rev_app_distr in Lm. vm_compute in Lm. discriminate Lm.
Qed.

Lemma dict_set_twice {V} (d : dict V) (k : pystr) (v v' : V) :
  dict_set (dict_set d k v) k v' = dict_set d k v'.
Proof.
  induction d as [|[k' u] d IH]; simpl.
  - now rewrite str_eqb_refl.
  - destruct (str_eqb k' k) eqn:E; simpl; rewrite E; [reflexivity|].
    now rewrite IH.
Qed.

Lemma first_seen_from_in (names : list pystr) :
  forall acc k,
    In k (fold_left (fun ks n => if existsb (str_eqb n) ks then ks
                                 else ks ++ [n]) names acc) ->
    In k acc \/ In k names.
Proof.
  induction names as [|n names IH]; intros acc k H; [now left|].
  cbn [fold_left] in H. apply IH in H as [H|H]; [|right; now right].
  destruct (existsb (str_eqb n) acc); [now left|].
  apply in_app_or in H as [H|[<-|[]]]; [now left|right; now left].
Qed.

Lemma write_loop_two (f : float -> pystr) (path : pystr) (keys : list pystr) :
  forall fs content,
    dict_get (files fs) path = Some content ->
    (forall k, In k keys -> List.length k = 2) ->
    for_each keys (write_setting f path) fs =
    (Ok tt,
     mk_fs (dict_set (files fs) path
                     (content ++ List.concat (List.map setting_line keys)))
           (writable fs)).
Proof.
  induction keys as [|key keys IH]; intros [fl wr] content G H.
  - cbn [for_each List.map List.concat files writable] in *. unfold ret.
    rewrite app_nil_r. now rewrite dict_set_same.
  - cbn [for_each]. unfold bind.
    assert (L : List.length key = 2) by (apply H; now left).
    destruct key as [|a [|b [|c key]]]; try discriminate L.
    unfold write_setting at 1. cbn [unpack_pair isinstance_str format].
    unfold fprint. cbn [files writable] in *. rewrite G.
    rewrite (IH _ (content ++ setting_line [a; b])).
    + cbn [files writable List.map List.concat]. rewrite dict_set_twice.
      now rewrite <- app_assoc.
    + cbn [files]. apply dict_get_set_same.
    + intros k I. apply H. now right.
Qed.

(** X20.  When the file can be opened and every setting name is two
    characters long, the export returns, and the file, whatever it held
    before, is the header, an empty line, and one line per name in the
    order of first occurrence, each setting the first character of the
    name to the second as a string; the other files are untouched. *)
Theorem store_settings_two_character_names
        (splitext : pystr -> pystr * pystr) (name_list : list pystr)
        (get_setting : pystr -> value) (float_str : float -> pystr)
        (filename : pystr) (fs : filesystem) :
  snd (splitext filename) = py ".py" ->
  writable fs filename = true ->
  (forall name, In name name_list -> List.length name = 2) ->
  exists fs',
    store_settings splitext name_list get_setting float_str filename fs =
      (Ok tt, fs') /\
    dict_get (files fs') filename =
      Some (header ++ [newline]
            ++ List.concat (List.map setting_line (first_seen name_list))) /\
    forall path, path <> filename ->
                 dict_get (files fs') path = dict_get (files fs) path.
Proof.
  intros He Hw Hn. eexists. split.
  - unfold store_settings. apply str_eqb_eq in He. rewrite He. cbn [negb].
    rewrite collect_keys.
    unfold bind at 1. unfold open_w. rewrite Hw.
    unfold bind at 1. unfold fprint at 1. cbn [files writable].
    rewrite dict_get_set_same.
    apply (write_loop_two float_str filename (first_seen name_list) _
             ([] ++ header ++ [newline])).
    + cbn [files]. apply dict_get_set_same.
    + intros k I. apply Hn.
      destruct (first_seen_from_in name_list [] k I) as [[]|I']. exact I'.
  - cbn [files]. split.
    + rewrite dict_get_set_same. now rewrite <- app_assoc.
    + intros path N. rewrite !dict_get_set_other by congruence. reflexivity.
Qed.

(** ** The loops of [main] *)

Section MainFacts.

Variable lower : pystr -> pystr.

Lemma unknown_answer_cases (inp : pystr) :
  unknown_answer lower inp = true ->
  existsb (str_eqb (lower inp)) [py "yes"; py "y"] = false /\
  existsb (str_eqb (lower inp)) [py "no"; py "n"; py ""] = false.
Proof.
  unfold unknown_answer. cbn [existsb]. intros H. apply negb_true_iff in H.
  repeat (apply orb_false_iff in H; destruct H as [? H]).
  split; repeat (apply orb_false_iff; split); assumption.
Qed.

(** X21.  The confirmation loop goes by the first answer it knows: each
    answer before it costs one prompt and one error line, a yes or y (in
    any case) lets the run go on, a no, n or empty answer prints the help
    and exits with status 0, and the answers after it are not read.  With
    no known answer the loop prompts once more and finds the input
    ended. *)
Theorem confirm_first_known (unknown : list pystr) :
  forallb (unknown_answer lower) unknown = true ->
  confirm lower unknown =
    (end_of_input, complaints unknown ++ [out_prompt], []) /\
  forall known rest,
    unknown_answer lower known = false ->
    confirm lower (unknown ++ known :: rest) =
    (if existsb (str_eqb (lower known)) [py "yes"; py "y"]
     then (proceed, complaints unknown ++ [out_prompt], rest)
     else (exit_0, complaints unknown ++ [out_prompt; out_help], rest)).
Proof.
  induction unknown as [|inp unknown IH]; intros H.
  - split; [reflexivity|]. intros known rest K.
    cbn [app confirm complaints flat_map].
    destruct (existsb (str_eqb (lower known)) [py "yes"; py "y"]) eqn:Y;
      [reflexivity|].
    destruct (existsb (str_eqb (lower known)) [py "no"; py "n"; py ""]) eqn:N;
      [reflexivity|].
    exfalso. unfold unknown_answer in K. apply negb_false_iff in K.
    cbn [existsb] in K, Y, N.
    repeat (apply orb_false_iff in Y; destruct Y as [? Y]).
    repeat (apply orb_false_iff in N; destruct N as [? N]).
    repeat (apply orb_true_iff in K; destruct K as [K|K]); congruence.
  - cbn [forallb] in H. apply andb_true_iff in H as [U H].
    destruct (unknown_answer_cases inp U) as [Y N].
    destruct (IH H) as [E K]. split.
    + cbn [confirm]. rewrite Y, N, E. reflexivity.
    + intros known rest Kn. cbn [app confirm]. rewrite Y, N.
      rewrite (K known rest Kn).
      now destruct (existsb (str_eqb (lower known)) [py "yes"; py "y"]).
Qed.

End MainFacts.

Lemma sort_args_from (path : Type) (suffix path_str : path -> pystr)
      (p : path) (pymol : list pystr) :
  forall pymol_args scripts,
    sort_args (Ok p) suffix path_str pymol pymol_args scripts =
    if existsb (str_eqb (suffix p)) [py ".pml"; py ".py"]
    then Ok (pymol_args, scripts ++ repeat (path_str p) (List.length pymol))
    else Ok (pymol_args ++ repeat (path_str p) (List.length pymol), scripts).
Proof.
  induction pymol as [|arg pymol IH]; intros pymol_args scripts.
  - cbn [sort_args List.length repeat]. rewrite !app_nil_r.
    now destruct (existsb _ _).
  - cbn [sort_args List.length repeat].
    destruct (existsb (str_eqb (suffix p)) [py ".pml"; py ".py"]) eqn:S;
      rewrite IH, <- app_assoc; reflexivity.
Qed.

(** X22.  The loop over the arguments for the host cleans the whole
    argument record at each turn, not the argument at hand: what it
    builds depends on how many arguments there are and not on what they
    are.  When the cleaning fails and there is an argument, the loop
    raises; otherwise every entry is the same path, all of them scripts
    or all of them host arguments. *)
Theorem sort_args_ignores_arguments (path : Type)
        (clean_path_args : result path) (suffix path_str : path -> pystr)
        (pymol pymol' : list pystr) :
  List.length pymol = List.length pymol' ->
  sort_args clean_path_args suffix path_str pymol [] [] =
  sort_args clean_path_args suffix path_str pymol' [] [] /\
  sort_args clean_path_args suffix path_str pymol [] [] =
  match clean_path_args with
  | Raise e => match pymol with [] => Ok ([], []) | _ :: _ => Raise e end
  | Ok p =>
      if existsb (str_eqb (suffix p)) [py ".pml"; py ".py"]
      then Ok ([], repeat (path_str p) (List.length pymol))
      else Ok (repeat (path_str p) (List.length pymol), [])
  end.
Proof.
  intros L.
  destruct clean_path_args as [p|e].
  - rewrite !(sort_args_from path). rewrite L. split; reflexivity.
  - destruct pymol, pymol'; try discriminate L; split; reflexivity.
Qed.

(** ** The exceptions of a call after [load] *)

Lemma alter_atoms_error (member : nat -> bool) (f : atom -> result atom)
      (l : list atom) :
  forall i e, snd (alter_atoms member f i l) = Some e ->
              exists a, f a = Raise e.
Proof.
  induction l as [|a l IH]; intros i e H; [discriminate|].
  cbn [alter_atoms] in H. destruct (member i).
  - destruct (f a) as [a'|e'] eqn:F.
    + destruct (alter_atoms member f (S i) l) as [t' e0] eqn:T.
      cbn [snd] in H. apply (IH (S i)). now rewrite T.
    + cbn [snd] in H. injection H as <-. now exists a.
  - destruct (alter_atoms member f (S i) l) as [t' e0] eqn:T.
    cbn [snd] in H. apply (IH (S i)). now rewrite T.
Qed.

Lemma dict_get_in {V} (d : dict V) (k : pystr) (v : V) :
  dict_get d k = Some v -> exists k', In (k', v) d.
Proof.
  induction d as [|[k0 v0] d IH]; [discriminate|]. cbn [dict_get].
  destruct (str_eqb k0 k).
  - intros H. injection H as ->. exists k0. now left.
  - intros H. destruct (IH H) as [k' I]. exists k'. now right.
Qed.

Lemma preset_unary (style : pystr) (settings : dict (dict command)) :
  dict_get nice_set style = Some settings ->
  forall item, In item settings ->
  forall c, In c (dict_values (snd item)) -> unary c = true.
Proof.
  assert (U : forallb
                (fun p => forallb
                            (fun item => forallb unary (dict_values (snd item)))
                            (snd p))
                nice_set = true) by (vm_compute; reflexivity).
  intros G item I c C.
  destruct (dict_get_in nice_set style settings G) as [k' K].
  rewrite forallb_forall in U. specialize (U _ K). cbn [snd] in U.
  rewrite forallb_forall in U. specialize (U _ I).
  rewrite forallb_forall in U. exact (U _ C).
Qed.

Section Guarded.

Variable word_char : char -> bool.
Variable digit_char : char -> bool.
Variable sel_eval : list atom -> dict (list nat) -> pystr -> option (list nat).
Variable attr_eval : pystr -> atom -> option pystr.

Lemma guarded_bind {A B} (Q : A -> Prop) (Q' : B -> Prop)
      (c : M A) (k : A -> M B) :
  guarded Q c -> (forall a, Q a -> guarded Q' (k a)) -> guarded Q' (bind c k).
Proof.
  intros Hc Hk w R. unfold bind. specialize (Hc w R).
  destruct (c w) as [[a|e] w1]; cbn [fst snd] in *; [|exact Hc].
  destruct Hc as [Qa R1]. exact (Hk a Qa w1 R1).
Qed.

Lemma guarded_then {A B} (c : M A) (k : A -> M B) :
  guarded (fun _ => True) c -> (forall a, guarded (fun _ => True) (k a)) ->
  guarded (fun _ => True) (bind c k).
Proof. intros Hc Hk. apply (guarded_bind _ _ c k Hc). intros a _. apply Hk. Qed.

(** A call that returns and keeps [pymol.stored]. *)
Lemma guarded_quiet {A} (c : M A) :
  keeps_st c -> (forall w, exists a, fst (c w) = Ok a) ->
  guarded (fun _ => True) c.
Proof.
  intros K T w R. destruct (T w) as [a E]. rewrite E, K. now split.
Qed.

Lemma guarded_ret {A} (a : A) : guarded (fun _ => True) (ret a).
Proof. intros w R. now split. Qed.

Lemma guarded_for_each {A} (l : list A) (b : A -> M unit) :
  (forall x, In x l -> guarded (fun _ => True) (b x)) ->
  guarded (fun _ => True) (for_each l b).
Proof.
  induction l as [|x l IH]; intros H; cbn [for_each].
  - apply guarded_ret.
  - apply guarded_then; [apply H; now left|intros _].
    apply IH. intros y I. apply H. now right.
Qed.

Lemma guarded_get_host : guarded (fun _ => True) get_host.
Proof. intros w R. now split. Qed.

Lemma guarded_log_call c : guarded (fun _ => True) (log_call c).
Proof. intros w R. now split. Qed.

Lemma guarded_put_atoms l : guarded (fun _ => True) (put_atoms l).
Proof. intros w R. now split. Qed.

Lemma guarded_put_selections s : guarded (fun _ => True) (put_selections s).
Proof. intros w R. now split. Qed.

Lemma guarded_print line : guarded (fun _ => True) (print line).
Proof. intros w R. now split. Qed.

Lemma guarded_cmd_set name value : guarded (fun _ => True) (cmd_set name value).
Proof. intros w R. now split. Qed.

Lemma guarded_resolve s : guarded (fun _ => True) (resolve sel_eval s).
Proof.
  intros w R. unfold resolve, bind, get_host.
  destruct (sel_eval _ _ s); cbn [fst snd]; [now split|now left].
Qed.

Lemma guarded_selectors :
  guarded (fun _ => True) (stored_attr "mt_selectors" mt_selectors).
Proof.
  intros w R. unfold stored_attr. pose proof R as (S & _). rewrite S.
  cbn [fst snd]. now split.
Qed.

Lemma guarded_nice_set :
  guarded (fun table => table = nice_set)
          (stored_attr "mt_nice_set" mt_nice_set).
Proof.
  intros w R. unfold stored_attr. pose proof R as (_ & N & _). rewrite N.
  cbn [fst snd]. now split.
Qed.

Create HintDb guarded.

#[local] Hint Resolve guarded_ret guarded_get_host guarded_log_call
  guarded_put_atoms guarded_put_selections guarded_print guarded_cmd_set
  guarded_resolve guarded_selectors : guarded.

Ltac guarded :=
  repeat first
    [ solve [auto with guarded]
    | apply guarded_then; [solve [auto with guarded]|intro] ].

Lemma guarded_cmd_select name logic :
  guarded (fun _ => True) (cmd_select sel_eval name logic).
Proof. unfold cmd_select. guarded. Qed.

Lemma guarded_cmd_alter s e f :
  (forall a x, f a = Raise x -> host_error x) ->
  guarded (fun _ => True) (cmd_alter sel_eval s e f).
Proof.
  intros F. unfold cmd_alter.
  apply guarded_then; [apply guarded_log_call|intros _].
  apply guarded_then; [apply guarded_resolve|intros l].
  apply guarded_then; [apply guarded_get_host|intros h].
  destruct (alter_atoms (mem_index l) f 0 (h_atoms h)) as [atoms' x] eqn:E.
  apply guarded_then; [apply guarded_put_atoms|intros _].
  destruct x as [x|]; [|apply guarded_ret].
  intros w R. cbn [fst raise].
  destruct (alter_atoms_error (mem_index l) f (h_atoms h) 0 x) as [b B].
  - now rewrite E.
  - exact (F b x B).
Qed.

Lemma guarded_cmd_color color s :
  guarded (fun _ => True) (cmd_color sel_eval color s).
Proof.
  unfold cmd_color.
  apply guarded_then; [apply guarded_log_call|intros _].
  apply guarded_then; [apply guarded_get_host|intros h].
  destruct (color_index (h_colors h) color); [guarded|].
  intros w R. now left.
Qed.

Lemma guarded_cmd_show_as rep s :
  guarded (fun _ => True) (cmd_show_as sel_eval rep s).
Proof. unfold cmd_show_as. guarded. Qed.

Lemma guarded_cmd_hide rep s :
  guarded (fun _ => True) (cmd_hide sel_eval rep s).
Proof. unfold cmd_hide. guarded. Qed.

Lemma guarded_set_vdw s :
  guarded (fun _ => True) (set_vdw word_char digit_char sel_eval s).
Proof.
  unfold set_vdw. apply guarded_then; [|intros _; apply guarded_log_call].
  apply guarded_cmd_alter. discriminate.
Qed.

Lemma guarded_mt_sele_default :
  guarded (fun _ => True) (mt_sele sel_eval None).
Proof.
  unfold mt_sele. apply guarded_then.
  - apply guarded_then; [apply guarded_selectors|intros s].
    apply guarded_for_each. intros item _. apply guarded_cmd_select.
  - intros _. unfold cmd_sync, cmd_deselect. guarded.
Qed.

(** The expression [iterate] runs on each atom of the selection. *)
Abbreviation draw method :=
  (fun a : atom =>
     palette <- stored_attr "mt_colors" mt_colors ;;
     c <- random_choice palette ;;
     d <- stored_attr "tmp_dict" tmp_dict ;;
     match attr_eval method a with
     | Some k => set_tmp_dict (dict_set d k c)
     | None => raise (NameError method)
     end).

(** The attribute has a value on every atom of the selection, or the
    loop of draws raises NameError at the first atom where it has none. *)
Lemma iterate_undefined (method : pystr) (member : nat -> bool)
      (pal : list Z) (l : list atom) :
  pal <> [] ->
  forall i h ms mn d r out,
    (forall j a, nth_error l j = Some a -> member (i + j) = true ->
                 attr_eval method a <> None) \/
    ((exists j a, nth_error l j = Some a /\ member (i + j) = true /\
                  attr_eval method a = None) /\
     fst (iterate_atoms member (draw method) i l
            (mk_world h (mk_stored (Some pal) ms mn (Some d)) r out)) =
     Raise (NameError method)).
Proof.
  intros Hp. destruct pal as [|x t]; [contradiction|].
  induction l as [|a l IH]; intros i h ms mn d r out.
  - left. intros j b Hj. destruct j; discriminate.
  - cbn [iterate_atoms]. destruct (member i) eqn:Mi.
    + destruct (attr_eval method a) as [k|] eqn:K.
      * destruct (IH (S i) h ms mn
                    (dict_set d k (nth (r 0 mod List.length (x :: t))
                                       (x :: t) x))
                    (fun n => r (S n)) out) as [D|[(j & b & Hj & Hm & Hb) F]].
        -- left. intros j b Hj Hm. destruct j as [|j].
           ++ injection Hj as <-. congruence.
           ++ apply (D j b Hj).
              now replace (S i + j) with (i + S j) by lia.
        -- right. split.
           ++ exists (S j), b. split; [exact Hj|]. split; [|exact Hb].
              now replace (i + S j) with (S i + j) by lia.
           ++ unfold bind at 1. unfold bind at 1.
              unfold stored_attr at 1. cbn [st mt_colors].
              unfold bind at 1. unfold random_choice.
              unfold bind at 1. unfold stored_attr at 1. cbn [st tmp_dict].
              unfold set_tmp_dict, bind, get_stored, put_stored.
              cbn [st host rng stdout mt_colors mt_selectors mt_nice_set].
              exact F.
      * right. split.
        -- exists 0, a. split; [reflexivity|].
           split; [now rewrite Nat.add_0_r|exact K].
        -- unfold bind at 1. unfold bind at 1.
           unfold stored_attr at 1. cbn [st mt_colors].
           unfold bind at 1. unfold random_choice.
           unfold bind at 1. unfold stored_attr at 1. cbn [st tmp_dict].
           reflexivity.
    + destruct (IH (S i) h ms mn d r out) as [D|[(j & b & Hj & Hm & Hb) F]].
      * left. intros j b Hj Hm. destruct j as [|j].
        -- rewrite Nat.add_0_r in Hm. congruence.
        -- apply (D j b Hj). now replace (S i + j) with (i + S j) by lia.
      * right. split.
        -- exists (S j), b. split; [exact Hj|]. split; [|exact Hb].
           now replace (i + S j) with (S i + j) by lia.
        -- unfold bind at 1. unfold ret at 1. exact F.
Qed.

(** The three ways a call of [mt_color] with a palette ends. *)
Lemma mt_color_cases (method selection : pystr) (w : world) (pal : list Z) :
  mt_colors (st w) = Some pal ->
  pal <> [] ->
  let r := mt_color sel_eval attr_eval method selection w in
  (fst r = Ok tt /\
   st (snd r) = mk_stored (Some pal) (mt_selectors (st w))
                          (mt_nice_set (st w)) (Some [])) \/
  (fst r = Raise CmdException /\
   sel_eval (h_atoms (host w)) (h_selections (host w)) selection = None) \/
  (fst r = Raise (NameError method) /\
   exists m i a,
     sel_eval (h_atoms (host w)) (h_selections (host w)) selection = Some m /\
     mem_index m i = true /\ nth_error (h_atoms (host w)) i = Some a /\
     attr_eval method a = None).
Proof.
  intros Hc Hp r.
  destruct (sel_eval (h_atoms (host w)) (h_selections (host w)) selection)
    as [m|] eqn:Hs.
  - destruct w as [[atoms sels settings cols log] [mc ms mn td] r0 out].
    cbn [host st rng stdout h_atoms h_selections h_settings h_colors h_log
         mt_colors mt_selectors mt_nice_set] in *.
    subst mc.
    destruct (iterate_undefined method (mem_index m) pal atoms Hp 0
                (mk_pymol atoms sels settings cols
                   (log ++ [c_iterate selection
                              (py "stored.tmp_dict[" ++ method
                               ++ py "] = stored.r_choice(stored.mt_colors)")]))
                ms mn [] r0 out) as [D|[(j & a & Hj & Hm & Ha) F]].
    + left.
      destruct (mt_color_run sel_eval attr_eval method selection
                  (mk_world (mk_pymol atoms sels settings cols log)
                            (mk_stored (Some pal) ms mn td) r0 out)
                  pal m eq_refl Hp Hs) as (atoms' & E & _).
      { intros i a Mi Ai. exact (D i a Ai Mi). }
      unfold r. rewrite E. split; reflexivity.
    + right. right. split; [|now exists m, j, a].
      unfold r, mt_color.
      unfold bind at 1. unfold set_tmp_dict at 1.
      unfold bind at 1, get_stored, put_stored.
      cbn [st host rng stdout mt_colors mt_selectors mt_nice_set].
      unfold bind at 1. unfold cmd_iterate.
      unfold bind at 1. unfold log_call at 1.
      unfold bind at 1, get_host, put_host.
      cbn [st host rng stdout h_atoms h_selections h_settings h_colors h_log].
      unfold bind at 1. unfold resolve at 1.
      unfold bind at 1, get_host.
      cbn [st host rng stdout h_atoms h_selections h_settings h_colors h_log].
      rewrite Hs. unfold ret at 1. unfold bind at 1.
      cbn [st host rng stdout h_atoms h_selections h_settings h_colors h_log].
      destruct (iterate_atoms _ _ 0 atoms _) as [[u|e] w1];
        cbn [fst] in *; [discriminate F|exact F].
  - right. left. split; [|reflexivity].
    unfold r, mt_color, cmd_iterate, resolve, set_tmp_dict, log_call,
      bind, get_host, put_host, get_stored, put_stored.
    cbn [st host rng stdout h_atoms h_selections h_settings h_colors h_log].
    rewrite Hs. reflexivity.
Qed.

Lemma guarded_mt_color method s :
  guarded (fun _ => True) (mt_color sel_eval attr_eval method s).
Proof.
  intros w R. pose proof R as (S & N & pal & Hc & Hp).
  destruct (mt_color_cases method s w pal Hc Hp)
    as [[E T]|[[E _]|[E _]]]; rewrite E.
  - split; [exact I|]. rewrite T. cbn [mt_selectors mt_nice_set mt_colors].
    split; [exact S|]. split; [exact N|]. now exists pal.
  - now left.
  - right. now exists method.
Qed.

Lemma guarded_command (c : command) (scope : pystr) :
  unary c = true ->
  guarded (fun _ => True)
    (match c with
     | Some (f, args) => call_command sel_eval attr_eval f args scope
     | None => ret tt
     end).
Proof.
  destruct c as [[f [|x [|y args]]]|]; try discriminate; intros _.
  - destruct f; cbn [call_command].
    + apply guarded_mt_color.
    + apply guarded_cmd_color.
    + apply guarded_cmd_show_as.
    + apply guarded_cmd_hide.
  - apply guarded_ret.
Qed.

Lemma guarded_mt_nice style selection :
  guarded (fun _ => True)
    (mt_nice word_char digit_char sel_eval attr_eval style selection).
Proof.
  unfold mt_nice.
  destruct (negb (existsb (str_eqb style) valid_styles)) eqn:V;
    [apply guarded_print|].
  apply guarded_then; [apply guarded_mt_sele_default|intros _].
  apply guarded_then; [apply guarded_cmd_set|intros _].
  apply guarded_then; [apply guarded_log_call|intros _].
  apply guarded_then; [apply guarded_set_vdw|intros _].
  apply guarded_then; [apply guarded_log_call|intros _].
  apply (guarded_bind (fun table => table = nice_set) (fun _ => True));
    [apply guarded_nice_set|intros table ->].
  destruct (dict_get nice_set style) as [settings|] eqn:G.
  - apply guarded_for_each. intros item I.
    apply guarded_for_each. intros c C.
    apply guarded_command. exact (preset_unary style settings G item I c C).
  - exfalso. apply negb_false_iff in V.
    apply (valid_style_cases attr_eval) in V.
    destruct V as [-> | [-> | ->]]; vm_compute in G; discriminate G.
Qed.

End Guarded.


(** X24.  [load] returns, and after it, whatever the style and the
    selection, [mt_nice] returns or raises an exception of the host:
    CmdException for a selection or a color name the host rejects,
    NameError for an expression it cannot evaluate.  It raises no
    AttributeError, KeyError, IndexError or TypeError; and when it
    returns, the tables and the palette are in place for the next
    call. *)
Theorem mt_nice_after_load
        (word_char digit_char : char -> bool)
        (sel_eval : list atom -> dict (list nat) -> pystr -> option (list nat))
        (attr_eval : pystr -> atom -> option pystr)
        (style selection : pystr) (w : world) :
  fst (load w) = Ok tt /\
  ready (st (snd (load w))) /\
  match fst (mt_nice word_char digit_char sel_eval attr_eval style selection
                     (snd (load w))) with
  | Ok _ =>
      ready (st (snd (mt_nice word_char digit_char sel_eval attr_eval
                              style selection (snd (load w)))))
  | Raise e =>
      host_error e /\
      (forall x, e <> AttributeError x) /\ (forall x, e <> KeyError x) /\
      e <> IndexError /\ (forall x, e <> TypeError x)
  end.
Proof.
  assert (L : fst (load w) = Ok tt /\ ready (st (snd (load w)))).
  { unfold load. rewrite nice_settings_run. cbn [fst snd st].
    split; [reflexivity|]. unfold ready.
    cbn [mt_selectors mt_nice_set mt_colors].
    split; [reflexivity|]. split; [reflexivity|].
    eexists. split; [reflexivity|].
    intros H. apply (f_equal (@List.length Z)) in H.
    rewrite !length_map in H. vm_compute in H. discriminate H. }
  destruct L as [L R]. split; [exact L|]. split; [exact R|].
  pose proof (guarded_mt_nice word_char digit_char sel_eval attr_eval
                style selection (snd (load w)) R) as G.
  destruct (fst (mt_nice word_char digit_char sel_eval attr_eval style
                         selection (snd (load w)))) as [u|e].
  - exact (proj2 G).
  - split; [exact G|].
    destruct G as [-> | [m ->]]; repeat split; intros; discriminate.
Qed.

(** * The further properties on the demo system *)

Lemma alter_vdw_first_three_witness :
  firstn 3 (py "SC3") = firstn 3 (py "SC3xyz") /\
  alter_vdw ascii_word ascii_digit (py "SC3") 1.5 =
  alter_vdw ascii_word ascii_digit (py "SC3xyz") 1.5.
Proof.
  assert (H : firstn 3 (py "SC3") = firstn 3 (py "SC3xyz")) by reflexivity.
  split; [exact H|].
  exact (alter_vdw_first_three ascii_word ascii_digit
           (py "SC3") (py "SC3xyz") 1.5 H).
Defined.



Lemma set_vdw_twice_witness :
  pymol_select (h_atoms (host demo_loaded)) (h_selections (host demo_loaded))
               (py "all") = Some (seq 0 7) /\
  pymol_select (classified ascii_word ascii_digit (seq 0 7)
                           (h_atoms (host demo_loaded)))
               (h_selections (host demo_loaded)) (py "all") =
    Some (seq 0 7) /\
  exists w1 w2,
    set_vdw ascii_word ascii_digit pymol_select (py "all") demo_loaded =
      (Ok tt, w1) /\
    set_vdw ascii_word ascii_digit pymol_select (py "all") w1 = (Ok tt, w2) /\
    h_atoms (host w2) = h_atoms (host w1).
Proof.
  assert (H1 : pymol_select (h_atoms (host demo_loaded))
                 (h_selections (host demo_loaded)) (py "all") =
               Some (seq 0 7)) by (vm_compute; reflexivity).
  assert (H2 : pymol_select (classified ascii_word ascii_digit (seq 0 7)
                               (h_atoms (host demo_loaded)))
                 (h_selections (host demo_loaded)) (py "all") =
               Some (seq 0 7)) by (vm_compute; reflexivity).
  split; [exact H1|]. split; [exact H2|].
  exact (set_vdw_twice ascii_word ascii_digit pymol_select (py "all")
           demo_loaded (seq 0 7) H1 H2).
Defined.

Lemma mt_sele_unknown_option_witness :
  py "list" <> [] /\
  py "list" <> py "delete" /\
  mt_sele pymol_select (Some (py "list")) demo_loaded =
  (Ok tt,
   mk_world
     (mk_pymol (h_atoms (host demo_loaded)) (h_selections (host demo_loaded))
        (h_settings (host demo_loaded)) (h_colors (host demo_loaded))
        (h_log (host demo_loaded) ++ [c_sync; c_deselect; c_sync]))
     (st demo_loaded) (rng demo_loaded)
     (stdout demo_loaded
      ++ [py "Unknown option. Type `mt_sele delete` to delete all the mt selections"]))
  /\ mt_sele pymol_select (Some []) demo_loaded =
     mt_sele pymol_select None demo_loaded.
Proof.
  assert (H1 : py "list" <> []) by (vm_compute; discriminate).
  assert (H2 : py "list" <> py "delete") by (vm_compute; discriminate).
  split; [exact H1|]. split; [exact H2|].
  exact (mt_sele_unknown_option pymol_select (py "list") demo_loaded H1 H2).
Defined.


Lemma mt_sele_then_delete_witness :
  mt_selectors (st demo_loaded) = Some selectors /\
  (forall name, In name (dict_keys selectors) ->
                dict_get (h_selections (host demo_loaded)) name = None) /\
  mt_sele pymol_select None demo_loaded =
    (Ok tt, snd (mt_sele pymol_select None demo_loaded)) /\
  exists w2,
    mt_sele pymol_select (Some (py "delete"))
            (snd (mt_sele pymol_select None demo_loaded)) = (Ok tt, w2) /\
    h_selections (host w2) = h_selections (host demo_loaded) /\
    h_atoms (host w2) = h_atoms (host demo_loaded).
Proof.
  assert (H : mt_selectors (st demo_loaded) = Some selectors)
    by (vm_compute; reflexivity).
  assert (N : forall name, In name (dict_keys selectors) ->
                dict_get (h_selections (host demo_loaded)) name = None)
    by (intros name _; vm_compute; reflexivity).
  assert (E : mt_sele pymol_select None demo_loaded =
              (Ok tt, snd (mt_sele pymol_select None demo_loaded)))
    by (vm_compute; reflexivity).
  split; [exact H|]. split; [exact N|]. split; [exact E|].
  exact (mt_sele_then_delete pymol_select demo_loaded
           (snd (mt_sele pymol_select None demo_loaded)) H N E).
Defined.


Lemma mt_color_empty_selection_witness :
  pymol_select (h_atoms (host demo_world)) (h_selections (host demo_world))
               (py "name ZZ") = Some [] /\
  (forall j a, nth_error (h_atoms (host demo_world)) j = Some a ->
               mem_index [] j = false) /\
  mt_colors (st demo_world) = None /\
  mt_color pymol_select atom_attribute (py "resn") (py "name ZZ") demo_world =
  (Ok tt,
   mk_world
     (mk_pymol (h_atoms (host demo_world)) (h_selections (host demo_world))
        (h_settings (host demo_world)) (h_colors (host demo_world))
        (h_log (host demo_world)
         ++ rule_calls (py "name ZZ") (Some (f_mt_color, [py "resn"]))))
     (mk_stored (mt_colors (st demo_world)) (mt_selectors (st demo_world))
                (mt_nice_set (st demo_world)) (Some []))
     (rng demo_world) (stdout demo_world)).
Proof.
  assert (H : pymol_select (h_atoms (host demo_world))
                (h_selections (host demo_world)) (py "name ZZ") = Some [])
    by (vm_compute; reflexivity).
  assert (N : forall j a, nth_error (h_atoms (host demo_world)) j = Some a ->
                mem_index [] j = false) by (intros j a _; reflexivity).
  split; [exact H|]. split; [exact N|]. split; [reflexivity|].
  exact (mt_color_empty_selection pymol_select atom_attribute
           (py "resn") (py "name ZZ") demo_world [] H N).
Defined.

Lemma mt_color_without_palette_witness :
  pymol_select (h_atoms (host demo_world)) (h_selections (host demo_world))
               (py "all") = Some (seq 0 7) /\
  (exists j a, nth_error (h_atoms (host demo_world)) j = Some a /\
               mem_index (seq 0 7) j = true) /\
  (mt_colors (st demo_world) = None \/ mt_colors (st demo_world) = Some []) /\
  fst (mt_color pymol_select atom_attribute (py "resn") (py "all")
                demo_world) =
    Raise (AttributeError (py "mt_colors")) /\
  h_atoms (host (snd (mt_color pymol_select atom_attribute (py "resn")
                               (py "all") demo_world))) =
    h_atoms (host demo_world).
Proof.
  assert (H : pymol_select (h_atoms (host demo_world))
                (h_selections (host demo_world)) (py "all") = Some (seq 0 7))
    by (vm_compute; reflexivity).
  assert (A : exists j a, nth_error (h_atoms (host demo_world)) j = Some a /\
                          mem_index (seq 0 7) j = true).
  { exists 0, (bead "BB" "ALA" "1" "A" "P5" 1.5 true false false).
    split; reflexivity. }
  assert (P : mt_colors (st demo_world) = None \/
              mt_colors (st demo_world) = Some []) by (left; reflexivity).
  split; [exact H|]. split; [exact A|]. split; [exact P|].
  rewrite (mt_color_without_palette pymol_select atom_attribute
             (py "resn") (py "all") demo_world (seq 0 7) H A P).
  split; reflexivity.
Defined.

Lemma demo_resn_defined (m : list nat) :
  forall i a, mem_index m i = true ->
              nth_error (h_atoms (host demo_loaded)) i = Some a ->
              atom_attribute (py "resn") a <> None.
Proof. intros i a _ _. vm_compute. discriminate. Qed.

Lemma mt_color_frame_witness :
  mt_colors (st demo_loaded) = Some demo_palette /\
  demo_palette <> [] /\
  pymol_select (h_atoms (host demo_loaded)) (h_selections (host demo_loaded))
               (py "name BB") = Some [0; 2] /\
  (forall i a, mem_index [0; 2] i = true ->
               nth_error (h_atoms (host demo_loaded)) i = Some a ->
               atom_attribute (py "resn") a <> None) /\
  exists w1,
    mt_color pymol_select atom_attribute (py "resn") (py "name BB")
             demo_loaded = (Ok tt, w1) /\
    nth_error (h_atoms (host w1)) 1 =
      Some (bead "SC1" "LYS" "2" "A" "SC3" 1.5 true false false) /\
    (exists c, nth_error (h_atoms (host w1)) 2 =
               Some (with_color
                       (bead "BB" "LYS" "2" "A" "TQd" 1.5 true false false)
                       c)) /\
    h_settings (host w1) = h_settings (host demo_loaded) /\
    h_colors (host w1) = h_colors (host demo_loaded) /\
    mt_selectors (st w1) = mt_selectors (st demo_loaded).
Proof.
  assert (Hc : mt_colors (st demo_loaded) = Some demo_palette)
    by (vm_compute; reflexivity).
  assert (Hp : demo_palette <> []) by (vm_compute; discriminate).
  assert (Hs : pymol_select (h_atoms (host demo_loaded))
                 (h_selections (host demo_loaded)) (py "name BB") =
               Some [0; 2]) by (vm_compute; reflexivity).
  pose proof (demo_resn_defined [0; 2]) as D.
  split; [exact Hc|]. split; [exact Hp|]. split; [exact Hs|].
  split; [exact D|].
  destruct (mt_color_frame pymol_select atom_attribute (py "resn")
              (py "name BB") demo_loaded demo_palette [0; 2] Hc Hp Hs D)
    as (w1 & E & A & _ & _ & S & C & _ & R & _).
  exists w1. split; [exact E|].
  assert (A1 : nth_error (h_atoms (host demo_loaded)) 1 =
               Some (bead "SC1" "LYS" "2" "A" "SC3" 1.5 true false false))
    by (vm_compute; reflexivity).
  assert (A2 : nth_error (h_atoms (host demo_loaded)) 2 =
               Some (bead "BB" "LYS" "2" "A" "TQd" 1.5 true false false))
    by (vm_compute; reflexivity).
  split; [|split; [|split; [exact S|split; [exact C|exact R]]]].
  - apply (proj2 (A 1 _ A1)). reflexivity.
  - exact (proj1 (A 2 _ A2)).
Defined.

Lemma mt_color_last_draw_witness :
  mt_colors (st demo_loaded) = Some demo_palette /\
  demo_palette <> [] /\
  pymol_select (h_atoms (host demo_loaded)) (h_selections (host demo_loaded))
               (py "all") = Some (seq 0 7) /\
  (forall i a, mem_index (seq 0 7) i = true ->
               nth_error (h_atoms (host demo_loaded)) i = Some a ->
               atom_attribute (py "resn") a <> None) /\
  exists w1,
    mt_color pymol_select atom_attribute (py "resn") (py "all") demo_loaded =
      (Ok tt, w1) /\
    rng w1 = shift 7 (rng demo_loaded) /\
    color_at w1 3 = Some (pick demo_palette (rng demo_loaded 3)).
Proof.
  assert (Hc : mt_colors (st demo_loaded) = Some demo_palette)
    by (vm_compute; reflexivity).
  assert (Hp : demo_palette <> []) by (vm_compute; discriminate).
  assert (Hs : pymol_select (h_atoms (host demo_loaded))
                 (h_selections (host demo_loaded)) (py "all") =
               Some (seq 0 7)) by (vm_compute; reflexivity).
  pose proof (demo_resn_defined (seq 0 7)) as D.
  split; [exact Hc|]. split; [exact Hp|]. split; [exact Hs|].
  split; [exact D|].
  destruct (mt_color_last_draw pymol_select atom_attribute (py "resn")
              (py "all") demo_loaded demo_palette (seq 0 7) Hc Hp Hs D)
    as (w1 & E & G & L).
  exists w1. split; [exact E|]. split; [exact G|].
  apply (L 3 (bead "BBx" "LYS" "2" "B" "Nda" 1.5 true false false)).
  - reflexivity.
  - vm_compute. reflexivity.
  - intros j b Lt M N.
    do 4 (destruct j as [|j]; [lia|]).
    do 3 (destruct j as [|j];
          [vm_compute in N; injection N as <-; vm_compute; discriminate|]).
    vm_compute in M. discriminate M.
Defined.

Lemma mt_nice_before_load_witness :
  In (py "clean") valid_styles /\
  mt_selectors (st demo_world) = None /\
  mt_nice ascii_word ascii_digit pymol_select atom_attribute
          (py "clean") (py "all") demo_world =
  (Raise (AttributeError (py "mt_selectors")), demo_world).
Proof.
  assert (H : In (py "clean") valid_styles) by (left; reflexivity).
  assert (N : mt_selectors (st demo_world) = None) by reflexivity.
  split; [exact H|]. split; [exact N|].
  exact (mt_nice_before_load ascii_word ascii_digit pymol_select
           atom_attribute (py "clean") (py "all") demo_world H N).
Defined.

Lemma store_settings_two_character_names_witness :
  snd (posix_splitext (py "/tmp/pymol_settings.py")) = py ".py" /\
  writable demo_fs (py "/tmp/pymol_settings.py") = true /\
  (forall name, In name [py "ab"; py "cd"; py "ab"] ->
                List.length name = 2) /\
  exists fs',
    store_settings posix_splitext [py "ab"; py "cd"; py "ab"] demo_setting
      demo_float_str (py "/tmp/pymol_settings.py") demo_fs = (Ok tt, fs') /\
    dict_get (files fs') (py "/tmp/pymol_settings.py") =
      Some (header ++ [newline]
            ++ setting_line (py "ab") ++ setting_line (py "cd")).
Proof.
  assert (He : snd (posix_splitext (py "/tmp/pymol_settings.py")) = py ".py")
    by (vm_compute; reflexivity).
  assert (Hw : writable demo_fs (py "/tmp/pymol_settings.py") = true)
    by reflexivity.
  assert (Hn : forall name, In name [py "ab"; py "cd"; py "ab"] ->
                            List.length name = 2).
  { intros name [<-|[<-|[<-|[]]]]; reflexivity. }
  split; [exact He|]. split; [exact Hw|]. split; [exact Hn|].
  destruct (store_settings_two_character_names posix_splitext
              [py "ab"; py "cd"; py "ab"] demo_setting demo_float_str
              (py "/tmp/pymol_settings.py") demo_fs He Hw Hn)
    as (fs' & E & F & _).
  exists fs'. split; [exact E|].
  rewrite F. vm_compute. reflexivity.
Defined.

Lemma confirm_first_known_witness :
  forallb (unknown_answer ascii_lower) [py "maybe"; py "yess"] = true /\
  unknown_answer ascii_lower (py "YES") = false /\
  confirm ascii_lower [py "maybe"; py "yess"; py "YES"; py "n"] =
    (proceed, complaints [py "maybe"; py "yess"] ++ [out_prompt], [py "n"]) /\
  confirm ascii_lower [py "maybe"; py "yess"; py "N"; py "y"] =
    (exit_0, complaints [py "maybe"; py "yess"] ++ [out_prompt; out_help],
     [py "y"]).
Proof.
  assert (U : forallb (unknown_answer ascii_lower) [py "maybe"; py "yess"] =
              true) by (vm_compute; reflexivity).
  assert (K : unknown_answer ascii_lower (py "YES") = false)
    by (vm_compute; reflexivity).
  assert (K' : unknown_answer ascii_lower (py "N") = false)
    by (vm_compute; reflexivity).
  split; [exact U|]. split; [exact K|].
  destruct (confirm_first_known ascii_lower [py "maybe"; py "yess"] U)
    as [_ F].
  split.
  - exact (F (py "YES") [py "n"] K).
  - exact (F (py "N") [py "y"] K').
Defined.

Lemma sort_args_ignores_arguments_witness :
  List.length [py "-q"; py "system.gro"] = List.length [py "a"; py "b"] /\
  sort_args (Ok (py "run.pml")) (fun p => snd (posix_splitext p))
            (fun p => p) [py "-q"; py "system.gro"] [] [] =
  sort_args (Ok (py "run.pml")) (fun p => snd (posix_splitext p))
            (fun p => p) [py "a"; py "b"] [] [] /\
  sort_args (Ok (py "run.pml")) (fun p => snd (posix_splitext p))
            (fun p => p) [py "-q"; py "system.gro"] [] [] =
  Ok ([], [py "run.pml"; py "run.pml"]).
Proof.
  assert (L : List.length [py "-q"; py "system.gro"] =
              List.length [py "a"; py "b"]) by reflexivity.
  split; [exact L|].
  destruct (sort_args_ignores_arguments pystr (Ok (py "run.pml"))
              (fun p => snd (posix_splitext p)) (fun p => p)
              [py "-q"; py "system.gro"] [py "a"; py "b"] L) as [E S].
  split; [exact E|].
  rewrite S. vm_compute. reflexivity.
Defined.

